(** * Jolt/Core/Reference.h : intrusive reference counting

    A shallow embedding of [RefTarget<T>], [Ref<T>] and [RefConst<T>] and the
    properties of their counting discipline.

    - Objects derived from [RefTarget<T>] live in a heap indexed by their
      address; the only field that matters here is [mRefCount], a 32 bit
      unsigned counter kept as a [Z] with its wrap-around written out.
    - Handles ([Ref<T>], [RefConst<T>]) are objects too: they live in two
      stores indexed by the address of the handle, so that [a = a] and
      [a = std::move(a)] alias the way they do in C++.
    - Member functions are computations in a small state and error monad.
      A failed [JPH_ASSERT] stops the program with the text of the asserted
      expression; touching an object that is not alive is undefined.
    - The counter is a [std::atomic]; the embedding is sequential, each
      member function is one indivisible step.
    - [T] is a template parameter.  [RefTarget_], [Ref_] and [RefConst_] are
      the classes for a [T] whose destructor does nothing of its own;
      [RefTargetOf], [RefOf] and [RefConstOf] take the destructor of [T], and
      the [AddRef()] and [Release()] the handles call, as parameters. *)

From Stdlib Require Import ZArith Lia.
From stdpp Require Import gmap strings.

Local Open Scope Z_scope.

(** ** Machine integers and addresses *)

(** [uint32] arithmetic: every stored result is reduced modulo 2^32. *)
Definition wrap32 (z : Z) : Z := z mod 2 ^ 32.

Definition is_uint32 (z : Z) : Prop := 0 <= z < 2 ^ 32.

(** Addresses of counted objects, and of handles. *)
Definition loc := positive.
Definition hloc := positive.

(** A [T *]: [None] is [nullptr]. *)
Definition ptr := option loc.
Definition nullptr : ptr := None.

(** ** The state of the program *)

(** The [RefTarget<T>] part of an object of type [T]. *)
Record RefTarget := MkRefTarget { mRefCount : Z }.

(** A [Ref<T>]. *)
Record Ref := MkRef { Ref_mPtr : ptr }.

(** A [RefConst<T>]. *)
Record RefConst := MkRefConst { RefConst_mPtr : ptr }.

Record world := MkWorld {
  heap : gmap loc RefTarget;      (* the live counted objects *)
  refs : gmap hloc Ref;           (* the live Ref<T> handles *)
  crefs : gmap hloc RefConst;     (* the live RefConst<T> handles *)
  deleted : list loc              (* objects destroyed by [delete], latest first *)
}.

Definition set_heap (f : gmap loc RefTarget → gmap loc RefTarget) (w : world) : world :=
  MkWorld (f (heap w)) (refs w) (crefs w) (deleted w).

Definition set_refs (f : gmap hloc Ref → gmap hloc Ref) (w : world) : world :=
  MkWorld (heap w) (f (refs w)) (crefs w) (deleted w).

Definition set_crefs (f : gmap hloc RefConst → gmap hloc RefConst) (w : world) : world :=
  MkWorld (heap w) (refs w) (f (crefs w)) (deleted w).

Definition log_delete (p : loc) (w : world) : world :=
  MkWorld (heap w) (refs w) (crefs w) (p :: deleted w).

(** ** The monad of member functions *)

Inductive outcome (A : Type) : Type :=
| Done (a : A) (w : world)        (* returned [a], leaving the state [w] *)
| Fatal (expr : string)           (* a JPH_ASSERT on [expr] failed *)
| Undefined.                      (* access to an object that is not alive *)
Arguments Done {A} a w.
Arguments Fatal {A} expr.
Arguments Undefined {A}.

Definition M (A : Type) : Type := world → outcome A.

Definition ret {A} (a : A) : M A := fun w => Done a w.

Definition bind {A B} (m : M A) (k : A → M B) : M B :=
  fun w => match m w with
           | Done a w' => k a w'
           | Fatal e => Fatal e
           | Undefined => Undefined
           end.

Notation "x <- m ;; k" := (bind m (fun x => k))
  (at level 100, m at next level, right associativity).
Notation "m ;;; k" := (bind m (fun _ => k))
  (at level 100, right associativity).

(** Modelled from the spec: the macro [JPH_ASSERT] is not defined in
    Reference.h.  The specification says that a violated assertion triggers a
    fatal diagnostic rather than proceeding; the diagnostic carries the
    asserted expression. *)
Definition JPH_ASSERT (expr : string) (cond : bool) : M unit :=
  fun w => if cond then Done tt w else Fatal expr.

(** Field access [this->mRefCount]. *)
Definition load_mRefCount (this : loc) : M Z :=
  fun w => match heap w !! this with
           | Some o => Done (mRefCount o) w
           | None => Undefined
           end.

Definition store_mRefCount (this : loc) (v : Z) : M unit :=
  fun w => match heap w !! this with
           | Some _ => Done tt (set_heap (insert this (MkRefTarget v)) w)
           | None => Undefined
           end.

(** ** RefTarget<T> *)

Module RefTarget_.

(** [static constexpr uint32 cEmbedded = 0x0ebedded;] *)
Definition cEmbedded : Z := 0x0ebedded.

Definition dtor_expr : string := "mRefCount == 0 || mRefCount == cEmbedded".
Definition SetEmbedded_expr : string := "mRefCount < cEmbedded".
Definition SetRefCountInternal_expr : string := "inRefCount >= 0".

(** [RefTarget() : mRefCount(0) { }], constructing at [this]. *)
Definition ctor (this : loc) : M unit :=
  fun w => Done tt (set_heap (insert this (MkRefTarget 0)) w).

(** [RefTarget(const RefTarget &) : mRefCount(0) { }]: the argument is not
    read. *)
Definition copy_ctor (this : loc) (inRHS : loc) : M unit :=
  fun w => Done tt (set_heap (insert this (MkRefTarget 0)) w).

(** [~RefTarget() { JPH_ASSERT(mRefCount == 0 || mRefCount == cEmbedded); }] *)
Definition dtor (this : loc) : M unit :=
  c <- load_mRefCount this ;;
  JPH_ASSERT dtor_expr ((c =? 0) || (c =? cEmbedded)).

(** [delete static_cast<const T *>(this)]: the destructor of [T] ends in the
    destructor of its base [RefTarget<T>], then the storage is given back.
    The body of [T]'s own destructor is not part of Reference.h: this is
    the [delete] of a [T] whose destructor does nothing of its own (no
    member to destroy).  [RefTargetOf.delete_T] below takes the destructor
    of [T] as a parameter. *)
Definition delete_T (this : loc) : M unit :=
  dtor this ;;;
  fun w => Done tt (log_delete this (set_heap (delete this) w)).

(** [void SetEmbedded() { JPH_ASSERT(mRefCount < cEmbedded); mRefCount += cEmbedded; }] *)
Definition SetEmbedded (this : loc) : M unit :=
  c <- load_mRefCount this ;;
  JPH_ASSERT SetEmbedded_expr (c <? cEmbedded) ;;;
  store_mRefCount this (wrap32 (c + cEmbedded)).

(** [RefTarget & operator = (const RefTarget &inRHS) { return *this; }] *)
Definition assign (this : loc) (inRHS : loc) : M loc :=
  ret this.

(** [uint32 GetRefCount() const { return mRefCount; }] *)
Definition GetRefCount (this : loc) : M Z :=
  load_mRefCount this.

(** [void AddRef() const { ++mRefCount; }] *)
Definition AddRef (this : loc) : M unit :=
  c <- load_mRefCount this ;;
  store_mRefCount this (wrap32 (c + 1)).

(** [void Release() const { if (--mRefCount == 0) delete static_cast<const T *>(this); }] *)
Definition Release (this : loc) : M unit :=
  c <- load_mRefCount this ;;
  let c' := wrap32 (c - 1) in
  store_mRefCount this c' ;;;
  if c' =? 0 then delete_T this else ret tt.

(** [void SetRefCountInternal(uint32 inRefCount) { JPH_ASSERT(inRefCount >= 0); mRefCount = inRefCount; }] *)
Definition SetRefCountInternal (this : loc) (inRefCount : Z) : M unit :=
  JPH_ASSERT SetRefCountInternal_expr (inRefCount >=? 0) ;;;
  store_mRefCount this inRefCount.

End RefTarget_.

(** ** Ref<T> *)

Module Ref_.

(** Reading and writing [this->mPtr] of a live [Ref<T>]. *)
Definition load_mPtr (this : hloc) : M ptr :=
  fun w => match refs w !! this with
           | Some r => Done (Ref_mPtr r) w
           | None => Undefined
           end.

Definition store_mPtr (this : hloc) (p : ptr) : M unit :=
  fun w => match refs w !! this with
           | Some _ => Done tt (set_refs (insert this (MkRef p)) w)
           | None => Undefined
           end.

(** Member initialisation [: mPtr(p)] of the handle under construction. *)
Definition init_mPtr (this : hloc) (p : ptr) : M unit :=
  fun w => Done tt (set_refs (insert this (MkRef p)) w).

(** [void AddRef() { if (mPtr != nullptr) mPtr->AddRef(); }] *)
Definition AddRef (this : hloc) : M unit :=
  p <- load_mPtr this ;;
  match p with
  | Some o => RefTarget_.AddRef o
  | None => ret tt
  end.

(** [void Release() { if (mPtr != nullptr) mPtr->Release(); }] *)
Definition Release (this : hloc) : M unit :=
  p <- load_mPtr this ;;
  match p with
  | Some o => RefTarget_.Release o
  | None => ret tt
  end.

(** [Ref() : mPtr(nullptr) { }] *)
Definition ctor (this : hloc) : M unit :=
  init_mPtr this nullptr.

(** [Ref(T *inRHS) : mPtr(inRHS) { AddRef(); }] *)
Definition ctor_ptr (this : hloc) (inRHS : ptr) : M unit :=
  init_mPtr this inRHS ;;;
  AddRef this.

(** [Ref(const Ref<T> &inRHS) : mPtr(inRHS.mPtr) { AddRef(); }] *)
Definition copy_ctor (this : hloc) (inRHS : hloc) : M unit :=
  p <- load_mPtr inRHS ;;
  init_mPtr this p ;;;
  AddRef this.

(** [Ref(Ref<T> &&inRHS) noexcept : mPtr(inRHS.mPtr) { inRHS.mPtr = nullptr; }] *)
Definition move_ctor (this : hloc) (inRHS : hloc) : M unit :=
  p <- load_mPtr inRHS ;;
  init_mPtr this p ;;;
  store_mPtr inRHS nullptr.

(** [~Ref() { Release(); }], after which the handle is gone. *)
Definition dtor (this : hloc) : M unit :=
  Release this ;;;
  fun w => Done tt (set_refs (delete this) w).

(** [Ref<T> & operator = (T *inRHS)
      { if (mPtr != inRHS) { Release(); mPtr = inRHS; AddRef(); } return *this; }] *)
Definition assign_ptr (this : hloc) (inRHS : ptr) : M hloc :=
  p <- load_mPtr this ;;
  (if bool_decide (p ≠ inRHS)
   then Release this ;;; store_mPtr this inRHS ;;; AddRef this
   else ret tt) ;;;
  ret this.

(** [Ref<T> & operator = (const Ref<T> &inRHS)
      { if (mPtr != inRHS.mPtr) { Release(); mPtr = inRHS.mPtr; AddRef(); } return *this; }] *)
Definition assign_copy (this : hloc) (inRHS : hloc) : M hloc :=
  p <- load_mPtr this ;;
  q <- load_mPtr inRHS ;;
  (if bool_decide (p ≠ q)
   then Release this ;;;
        q' <- load_mPtr inRHS ;;
        store_mPtr this q' ;;;
        AddRef this
   else ret tt) ;;;
  ret this.

(** [Ref<T> & operator = (Ref<T> &&inRHS)
      { if (mPtr != inRHS.mPtr) { Release(); mPtr = inRHS.mPtr; inRHS.mPtr = nullptr; } return *this; }] *)
Definition assign_move (this : hloc) (inRHS : hloc) : M hloc :=
  p <- load_mPtr this ;;
  q <- load_mPtr inRHS ;;
  (if bool_decide (p ≠ q)
   then Release this ;;;
        q' <- load_mPtr inRHS ;;
        store_mPtr this q' ;;;
        store_mPtr inRHS nullptr
   else ret tt) ;;;
  ret this.

(** [T * GetPtr() const { return mPtr; }] *)
Definition GetPtr (this : hloc) : M ptr :=
  load_mPtr this.

(** [bool operator == (const T * inRHS) const { return mPtr == inRHS; }] *)
Definition eq_ptr (this : hloc) (inRHS : ptr) : M bool :=
  p <- load_mPtr this ;;
  ret (bool_decide (p = inRHS)).

(** [bool operator == (const Ref<T> &inRHS) const { return mPtr == inRHS.mPtr; }] *)
Definition eq_Ref (this : hloc) (inRHS : hloc) : M bool :=
  p <- load_mPtr this ;;
  q <- load_mPtr inRHS ;;
  ret (bool_decide (p = q)).

(** [bool operator != (const T * inRHS) const { return mPtr != inRHS; }] *)
Definition ne_ptr (this : hloc) (inRHS : ptr) : M bool :=
  p <- load_mPtr this ;;
  ret (bool_decide (p ≠ inRHS)).

(** [bool operator != (const Ref<T> &inRHS) const { return mPtr != inRHS.mPtr; }] *)
Definition ne_Ref (this : hloc) (inRHS : hloc) : M bool :=
  p <- load_mPtr this ;;
  q <- load_mPtr inRHS ;;
  ret (bool_decide (p ≠ q)).

End Ref_.

(** ** RefConst<T> *)

Module RefConst_.

Definition load_mPtr (this : hloc) : M ptr :=
  fun w => match crefs w !! this with
           | Some r => Done (RefConst_mPtr r) w
           | None => Undefined
           end.

Definition store_mPtr (this : hloc) (p : ptr) : M unit :=
  fun w => match crefs w !! this with
           | Some _ => Done tt (set_crefs (insert this (MkRefConst p)) w)
           | None => Undefined
           end.

Definition init_mPtr (this : hloc) (p : ptr) : M unit :=
  fun w => Done tt (set_crefs (insert this (MkRefConst p)) w).

(** [void AddRef() { if (mPtr != nullptr) mPtr->AddRef(); }] *)
Definition AddRef (this : hloc) : M unit :=
  p <- load_mPtr this ;;
  match p with
  | Some o => RefTarget_.AddRef o
  | None => ret tt
  end.

(** [void Release() { if (mPtr != nullptr) mPtr->Release(); }] *)
Definition Release (this : hloc) : M unit :=
  p <- load_mPtr this ;;
  match p with
  | Some o => RefTarget_.Release o
  | None => ret tt
  end.

(** [RefConst() : mPtr(nullptr) { }] *)
Definition ctor (this : hloc) : M unit :=
  init_mPtr this nullptr.

(** [RefConst(const T * inRHS) : mPtr(inRHS) { AddRef(); }] *)
Definition ctor_ptr (this : hloc) (inRHS : ptr) : M unit :=
  init_mPtr this inRHS ;;;
  AddRef this.

(** [RefConst(const RefConst<T> &inRHS) : mPtr(inRHS.mPtr) { AddRef(); }] *)
Definition copy_ctor (this : hloc) (inRHS : hloc) : M unit :=
  p <- load_mPtr inRHS ;;
  init_mPtr this p ;;;
  AddRef this.

(** [RefConst(RefConst<T> &&inRHS) noexcept : mPtr(inRHS.mPtr) { inRHS.mPtr = nullptr; }] *)
Definition move_ctor (this : hloc) (inRHS : hloc) : M unit :=
  p <- load_mPtr inRHS ;;
  init_mPtr this p ;;;
  store_mPtr inRHS nullptr.

(** [RefConst(const Ref<T> &inRHS) : mPtr(inRHS.mPtr) { AddRef(); }] *)
Definition copy_ctor_Ref (this : hloc) (inRHS : hloc) : M unit :=
  p <- Ref_.load_mPtr inRHS ;;
  init_mPtr this p ;;;
  AddRef this.

(** [RefConst(Ref<T> &&inRHS) : mPtr(inRHS.mPtr) { inRHS.mPtr = nullptr; }] *)
Definition move_ctor_Ref (this : hloc) (inRHS : hloc) : M unit :=
  p <- Ref_.load_mPtr inRHS ;;
  init_mPtr this p ;;;
  Ref_.store_mPtr inRHS nullptr.

(** [~RefConst() { Release(); }] *)
Definition dtor (this : hloc) : M unit :=
  Release this ;;;
  fun w => Done tt (set_crefs (delete this) w).

(** [RefConst<T> & operator = (const T * inRHS)
      { if (mPtr != inRHS) { Release(); mPtr = inRHS; AddRef(); } return *this; }] *)
Definition assign_ptr (this : hloc) (inRHS : ptr) : M hloc :=
  p <- load_mPtr this ;;
  (if bool_decide (p ≠ inRHS)
   then Release this ;;; store_mPtr this inRHS ;;; AddRef this
   else ret tt) ;;;
  ret this.

(** [RefConst<T> & operator = (const RefConst<T> &inRHS)
      { if (mPtr != inRHS.mPtr) { Release(); mPtr = inRHS.mPtr; AddRef(); } return *this; }] *)
Definition assign_copy (this : hloc) (inRHS : hloc) : M hloc :=
  p <- load_mPtr this ;;
  q <- load_mPtr inRHS ;;
  (if bool_decide (p ≠ q)
   then Release this ;;;
        q' <- load_mPtr inRHS ;;
        store_mPtr this q' ;;;
        AddRef this
   else ret tt) ;;;
  ret this.

(** [RefConst<T> & operator = (RefConst<T> &&inRHS)
      { if (mPtr != inRHS.mPtr) { Release(); mPtr = inRHS.mPtr; inRHS.mPtr = nullptr; } return *this; }] *)
Definition assign_move (this : hloc) (inRHS : hloc) : M hloc :=
  p <- load_mPtr this ;;
  q <- load_mPtr inRHS ;;
  (if bool_decide (p ≠ q)
   then Release this ;;;
        q' <- load_mPtr inRHS ;;
        store_mPtr this q' ;;;
        store_mPtr inRHS nullptr
   else ret tt) ;;;
  ret this.

(** [RefConst<T> & operator = (const Ref<T> &inRHS)
      { if (mPtr != inRHS.mPtr) { Release(); mPtr = inRHS.mPtr; AddRef(); } return *this; }] *)
Definition assign_copy_Ref (this : hloc) (inRHS : hloc) : M hloc :=
  p <- load_mPtr this ;;
  q <- Ref_.load_mPtr inRHS ;;
  (if bool_decide (p ≠ q)
   then Release this ;;;
        q' <- Ref_.load_mPtr inRHS ;;
        store_mPtr this q' ;;;
        AddRef this
   else ret tt) ;;;
  ret this.

(** [RefConst<T> & operator = (Ref<T> &&inRHS)
      { if (mPtr != inRHS.mPtr) { Release(); mPtr = inRHS.mPtr; inRHS.mPtr = nullptr; } return *this; }] *)
Definition assign_move_Ref (this : hloc) (inRHS : hloc) : M hloc :=
  p <- load_mPtr this ;;
  q <- Ref_.load_mPtr inRHS ;;
  (if bool_decide (p ≠ q)
   then Release this ;;;
        q' <- Ref_.load_mPtr inRHS ;;
        store_mPtr this q' ;;;
        Ref_.store_mPtr inRHS nullptr
   else ret tt) ;;;
  ret this.

(** [const T * GetPtr() const { return mPtr; }] *)
Definition GetPtr (this : hloc) : M ptr :=
  load_mPtr this.

(** [bool operator == (const T * inRHS) const { return mPtr == inRHS; }] *)
Definition eq_ptr (this : hloc) (inRHS : ptr) : M bool :=
  p <- load_mPtr this ;;
  ret (bool_decide (p = inRHS)).

(** [bool operator == (const RefConst<T> &inRHS) const { return mPtr == inRHS.mPtr; }] *)
Definition eq_RefConst (this : hloc) (inRHS : hloc) : M bool :=
  p <- load_mPtr this ;;
  q <- load_mPtr inRHS ;;
  ret (bool_decide (p = q)).

(** [bool operator == (const Ref<T> &inRHS) const { return mPtr == inRHS.mPtr; }] *)
Definition eq_Ref (this : hloc) (inRHS : hloc) : M bool :=
  p <- load_mPtr this ;;
  q <- Ref_.load_mPtr inRHS ;;
  ret (bool_decide (p = q)).

(** [bool operator != (const T * inRHS) const { return mPtr != inRHS; }] *)
Definition ne_ptr (this : hloc) (inRHS : ptr) : M bool :=
  p <- load_mPtr this ;;
  ret (bool_decide (p ≠ inRHS)).

(** [bool operator != (const RefConst<T> &inRHS) const { return mPtr != inRHS.mPtr; }] *)
Definition ne_RefConst (this : hloc) (inRHS : hloc) : M bool :=
  p <- load_mPtr this ;;
  q <- load_mPtr inRHS ;;
  ret (bool_decide (p ≠ q)).

(** [bool operator != (const Ref<T> &inRHS) const { return mPtr != inRHS.mPtr; }] *)
Definition ne_Ref (this : hloc) (inRHS : hloc) : M bool :=
  p <- load_mPtr this ;;
  q <- Ref_.load_mPtr inRHS ;;
  ret (bool_decide (p ≠ q)).

End RefConst_.

(** ** std::hash for the handles *)

Section Hash.

(** [std::hash<T *>] and [std::hash<const T *>] come from the standard
    library: any functions of the pointer value. *)
Variable hash_ptr : ptr → Z.
Variable hash_const_ptr : ptr → Z.

(** [size_t operator () (const JPH::Ref<T> &inRHS) const
      { return hash<T *> { }(inRHS.GetPtr()); }] *)
Definition hash_Ref (inRHS : hloc) : M Z :=
  p <- Ref_.GetPtr inRHS ;;
  ret (hash_ptr p).

(** [size_t operator () (const JPH::RefConst<T> &inRHS) const
      { return hash<const T *> { }(inRHS.GetPtr()); }] *)
Definition hash_RefConst (inRHS : hloc) : M Z :=
  p <- RefConst_.GetPtr inRHS ;;
  ret (hash_const_ptr p).

End Hash.

(** ** Sequences of calls on one object *)

Inductive call := CallAddRef | CallRelease | CallSetEmbedded.

Global Instance call_eq_dec : EqDecision call.
Proof. solve_decision. Defined.

Definition exec_call (this : loc) (c : call) : M unit :=
  match c with
  | CallAddRef => RefTarget_.AddRef this
  | CallRelease => RefTarget_.Release this
  | CallSetEmbedded => RefTarget_.SetEmbedded this
  end.

Fixpoint exec_calls (this : loc) (cs : list call) : M unit :=
  match cs with
  | [] => ret tt
  | c :: cs' => exec_call this c ;;; exec_calls this cs'
  end.

(** How often [c] occurs in [cs]. *)
Definition count_call (c : call) (cs : list call) : Z :=
  Z.of_nat (length (filter (λ d, d = c) cs)).

(** Has [this] been destroyed by a [delete]? *)
Definition was_deleted (this : loc) (w : world) : bool :=
  bool_decide (this ∈ deleted w).

(** Concrete states for examples: objects with their counters, [Ref]
    handles and [RefConst] handles with their pointers. *)
Definition world_of (objs : list (loc * Z)) (rs cs : list (hloc * ptr)) : world :=
  MkWorld (list_to_map (prod_map id MkRefTarget <$> objs))
          (list_to_map (prod_map id MkRef <$> rs))
          (list_to_map (prod_map id MkRefConst <$> cs))
          [].

(** ** The same classes for any T *)

(** [RefTarget<T>] for a [T] with a destructor of its own. *)
Module RefTargetOf.
Section WithT.

(** [~T()] up to the point where the base [~RefTarget<T>()] runs: the body
    of the destructor of [T] and the destructors of the members of [T].
    Reference.h does not have it; whatever it does to the state, handles
    that are members of the object included, is a parameter. *)
Variable T_dtor : loc → M unit.

(** [delete static_cast<const T *>(this)]: [~T()], then the base
    [~RefTarget<T>()], then the storage is given back. *)
Definition delete_T (this : loc) : M unit :=
  T_dtor this ;;;
  RefTarget_.dtor this ;;;
  fun w => Done tt (log_delete this (set_heap (delete this) w)).

(** [void Release() const { if (--mRefCount == 0) delete static_cast<const T *>(this); }] *)
Definition Release (this : loc) : M unit :=
  c <- load_mRefCount this ;;
  let c' := wrap32 (c - 1) in
  store_mRefCount this c' ;;;
  if c' =? 0 then delete_T this else ret tt.

End WithT.
End RefTargetOf.

(** [Ref<T>] for any [T]: the member functions that call [mPtr->AddRef()]
    or [mPtr->Release()].  The others ([Ref()], the move constructor,
    [GetPtr()], the comparisons) call nothing and are those of [Ref_]. *)
Module RefOf.
Section WithT.

(** [T::AddRef] and [T::Release], whatever [T] makes of them: those of
    [RefTarget<T>] for a [T] derived from it, its own for a [T] derived
    from [RefTargetVirtual]. *)
Variables T_AddRef T_Release : loc → M unit.

(** [void AddRef() { if (mPtr != nullptr) mPtr->AddRef(); }] *)
Definition AddRef (this : hloc) : M unit :=
  p <- Ref_.load_mPtr this ;;
  match p with
  | Some o => T_AddRef o
  | None => ret tt
  end.

(** [void Release() { if (mPtr != nullptr) mPtr->Release(); }] *)
Definition Release (this : hloc) : M unit :=
  p <- Ref_.load_mPtr this ;;
  match p with
  | Some o => T_Release o
  | None => ret tt
  end.

(** [Ref(T *inRHS) : mPtr(inRHS) { AddRef(); }] *)
Definition ctor_ptr (this : hloc) (inRHS : ptr) : M unit :=
  Ref_.init_mPtr this inRHS ;;;
  AddRef this.

(** [Ref(const Ref<T> &inRHS) : mPtr(inRHS.mPtr) { AddRef(); }] *)
Definition copy_ctor (this : hloc) (inRHS : hloc) : M unit :=
  p <- Ref_.load_mPtr inRHS ;;
  Ref_.init_mPtr this p ;;;
  AddRef this.

(** [~Ref() { Release(); }] *)
Definition dtor (this : hloc) : M unit :=
  Release this ;;;
  fun w => Done tt (set_refs (delete this) w).

(** [Ref<T> & operator = (T *inRHS)
      { if (mPtr != inRHS) { Release(); mPtr = inRHS; AddRef(); } return *this; }] *)
Definition assign_ptr (this : hloc) (inRHS : ptr) : M hloc :=
  p <- Ref_.load_mPtr this ;;
  (if bool_decide (p ≠ inRHS)
   then Release this ;;; Ref_.store_mPtr this inRHS ;;; AddRef this
   else ret tt) ;;;
  ret this.

(** [Ref<T> & operator = (const Ref<T> &inRHS)
      { if (mPtr != inRHS.mPtr) { Release(); mPtr = inRHS.mPtr; AddRef(); } return *this; }] *)
Definition assign_copy (this : hloc) (inRHS : hloc) : M hloc :=
  p <- Ref_.load_mPtr this ;;
  q <- Ref_.load_mPtr inRHS ;;
  (if bool_decide (p ≠ q)
   then Release this ;;;
        q' <- Ref_.load_mPtr inRHS ;;
        Ref_.store_mPtr this q' ;;;
        AddRef this
   else ret tt) ;;;
  ret this.

(** [Ref<T> & operator = (Ref<T> &&inRHS)
      { if (mPtr != inRHS.mPtr) { Release(); mPtr = inRHS.mPtr; inRHS.mPtr = nullptr; } return *this; }] *)
Definition assign_move (this : hloc) (inRHS : hloc) : M hloc :=
  p <- Ref_.load_mPtr this ;;
  q <- Ref_.load_mPtr inRHS ;;
  (if bool_decide (p ≠ q)
   then Release this ;;;
        q' <- Ref_.load_mPtr inRHS ;;
        Ref_.store_mPtr this q' ;;;
        Ref_.store_mPtr inRHS nullptr
   else ret tt) ;;;
  ret this.

End WithT.
End RefOf.

(** [RefConst<T>] for any [T], in the same way. *)
Module RefConstOf.
Section WithT.

Variables T_AddRef T_Release : loc → M unit.

(** [void AddRef() { if (mPtr != nullptr) mPtr->AddRef(); }] *)
Definition AddRef (this : hloc) : M unit :=
  p <- RefConst_.load_mPtr this ;;
  match p with
  | Some o => T_AddRef o
  | None => ret tt
  end.

(** [void Release() { if (mPtr != nullptr) mPtr->Release(); }] *)
Definition Release (this : hloc) : M unit :=
  p <- RefConst_.load_mPtr this ;;
  match p with
  | Some o => T_Release o
  | None => ret tt
  end.

(** [RefConst(const T * inRHS) : mPtr(inRHS) { AddRef(); }] *)
Definition ctor_ptr (this : hloc) (inRHS : ptr) : M unit :=
  RefConst_.init_mPtr this inRHS ;;;
  AddRef this.

(** [RefConst(const RefConst<T> &inRHS) : mPtr(inRHS.mPtr) { AddRef(); }] *)
Definition copy_ctor (this : hloc) (inRHS : hloc) : M unit :=
  p <- RefConst_.load_mPtr inRHS ;;
  RefConst_.init_mPtr this p ;;;
  AddRef this.

(** [RefConst(const Ref<T> &inRHS) : mPtr(inRHS.mPtr) { AddRef(); }] *)
Definition copy_ctor_Ref (this : hloc) (inRHS : hloc) : M unit :=
  p <- Ref_.load_mPtr inRHS ;;
  RefConst_.init_mPtr this p ;;;
  AddRef this.

(** [~RefConst() { Release(); }] *)
Definition dtor (this : hloc) : M unit :=
  Release this ;;;
  fun w => Done tt (set_crefs (delete this) w).

(** [RefConst<T> & operator = (const T * inRHS)
      { if (mPtr != inRHS) { Release(); mPtr = inRHS; AddRef(); } return *this; }] *)
Definition assign_ptr (this : hloc) (inRHS : ptr) : M hloc :=
  p <- RefConst_.load_mPtr this ;;
  (if bool_decide (p ≠ inRHS)
   then Release this ;;; RefConst_.store_mPtr this inRHS ;;; AddRef this
   else ret tt) ;;;
  ret this.

(** [RefConst<T> & operator = (const RefConst<T> &inRHS)
      { if (mPtr != inRHS.mPtr) { Release(); mPtr = inRHS.mPtr; AddRef(); } return *this; }] *)
Definition assign_copy (this : hloc) (inRHS : hloc) : M hloc :=
  p <- RefConst_.load_mPtr this ;;
  q <- RefConst_.load_mPtr inRHS ;;
  (if bool_decide (p ≠ q)
   then Release this ;;;
        q' <- RefConst_.load_mPtr inRHS ;;
        RefConst_.store_mPtr this q' ;;;
        AddRef this
   else ret tt) ;;;
  ret this.

(** [RefConst<T> & operator = (RefConst<T> &&inRHS)
      { if (mPtr != inRHS.mPtr) { Release(); mPtr = inRHS.mPtr; inRHS.mPtr = nullptr; } return *this; }] *)
Definition assign_move (this : hloc) (inRHS : hloc) : M hloc :=
  p <- RefConst_.load_mPtr this ;;
  q <- RefConst_.load_mPtr inRHS ;;
  (if bool_decide (p ≠ q)
   then Release this ;;;
        q' <- RefConst_.load_mPtr inRHS ;;
        RefConst_.store_mPtr this q' ;;;
        RefConst_.store_mPtr inRHS nullptr
   else ret tt) ;;;
  ret this.

(** [RefConst<T> & operator = (const Ref<T> &inRHS)
      { if (mPtr != inRHS.mPtr) { Release(); mPtr = inRHS.mPtr; AddRef(); } return *this; }] *)
Definition assign_copy_Ref (this : hloc) (inRHS : hloc) : M hloc :=
  p <- RefConst_.load_mPtr this ;;
  q <- Ref_.load_mPtr inRHS ;;
  (if bool_decide (p ≠ q)
   then Release this ;;;
        q' <- Ref_.load_mPtr inRHS ;;
        RefConst_.store_mPtr this q' ;;;
        AddRef this
   else ret tt) ;;;
  ret this.

(** [RefConst<T> & operator = (Ref<T> &&inRHS)
      { if (mPtr != inRHS.mPtr) { Release(); mPtr = inRHS.mPtr; inRHS.mPtr = nullptr; } return *this; }] *)
Definition assign_move_Ref (this : hloc) (inRHS : hloc) : M hloc :=
  p <- RefConst_.load_mPtr this ;;
  q <- Ref_.load_mPtr inRHS ;;
  (if bool_decide (p ≠ q)
   then Release this ;;;
        q' <- Ref_.load_mPtr inRHS ;;
        RefConst_.store_mPtr this q' ;;;
        Ref_.store_mPtr inRHS nullptr
   else ret tt) ;;;
  ret this.

End WithT.
End RefConstOf.

(** A call through the pointer [p] of a handle: none when [p] is
    [nullptr]. *)
Definition call_on (f : loc → M unit) (p : ptr) : M unit :=
  match p with
  | Some o => f o
  | None => ret tt
  end.

(** ** Handles against counters *)

(** How many handles of a store point at [o]. *)
Definition count_ptr {A} (f : A → ptr) (o : loc) (m : gmap hloc A) : nat :=
  size (filter (λ kv, f kv.2 = Some o) m).

(** How many handles, of both kinds, point at [o]. *)
Definition handle_count (w : world) (o : loc) : Z :=
  Z.of_nat (count_ptr Ref_mPtr o (refs w) + count_ptr RefConst_mPtr o (crefs w)).

(** 1 when [p] points at [o], else 0. *)
Definition ind (p : ptr) (o : loc) : Z := if decide (p = Some o) then 1 else 0.

(** The counter of every live object is the number of handles pointing at it
    (plus [cEmbedded] for an embedded object) plus [d o]; nothing but [d o]
    handles point at an object that is gone.  [d] accounts for a member
    function in mid-flight: between its [Release()], its store to [mPtr] and
    its [AddRef()] the counters are off by one. *)
Definition counted_upto (d : loc → Z) (w : world) : Prop :=
  ∀ o, match heap w !! o with
       | Some obj =>
           is_uint32 (mRefCount obj)
           ∧ (mRefCount obj = handle_count w o + d o
              ∨ mRefCount obj = RefTarget_.cEmbedded + handle_count w o + d o)
       | None => handle_count w o + d o = 0
       end.

(** Between member functions: counters and handles agree. *)
Definition counted (w : world) : Prop := counted_upto (λ _, 0) w.

(** Incrementing the target of [p] does not overflow the counter. *)
Definition no_overflow (w : world) (p : ptr) : Prop :=
  match p with
  | Some o => ∀ obj, heap w !! o = Some obj → mRefCount obj + 1 < 2 ^ 32
  | None => True
  end.

(** A pointer that may be used: [nullptr], or the address of a live object. *)
Definition valid_ptr (w : world) (p : ptr) : Prop :=
  match p with
  | Some o => is_Some (heap w !! o)
  | None => True
  end.

(** ** Programs over handles *)

(** The statements of a program that creates objects, may mark them as
    embedded, and otherwise touches them through handles only. *)
Inductive handle_op :=
| NewObject (o : loc)                          (* new (o) T *)
| Embed (o : loc)                              (* o->SetEmbedded() *)
| Ref_new (this : hloc)                        (* Ref<T> this; *)
| Ref_from_ptr (this : hloc) (p : ptr)         (* Ref<T> this(p); *)
| Ref_copy (this inRHS : hloc)                 (* Ref<T> this(inRHS); *)
| Ref_move (this inRHS : hloc)                 (* Ref<T> this(std::move(inRHS)); *)
| Ref_destroy (this : hloc)                    (* this.~Ref() *)
| Ref_set_ptr (this : hloc) (p : ptr)          (* this = p; *)
| Ref_set_copy (this inRHS : hloc)             (* this = inRHS; *)
| Ref_set_move (this inRHS : hloc)             (* this = std::move(inRHS); *)
| RefConst_new (this : hloc)
| RefConst_from_ptr (this : hloc) (p : ptr)
| RefConst_copy (this inRHS : hloc)
| RefConst_move (this inRHS : hloc)
| RefConst_copy_Ref (this inRHS : hloc)        (* RefConst<T> this(inRHS), inRHS a Ref<T> *)
| RefConst_move_Ref (this inRHS : hloc)
| RefConst_destroy (this : hloc)
| RefConst_set_ptr (this : hloc) (p : ptr)
| RefConst_set_copy (this inRHS : hloc)
| RefConst_set_move (this inRHS : hloc)
| RefConst_set_copy_Ref (this inRHS : hloc)    (* this = inRHS, inRHS a Ref<T> *)
| RefConst_set_move_Ref (this inRHS : hloc).

Definition exec_op (op : handle_op) : M unit :=
  match op with
  | NewObject o => RefTarget_.ctor o
  | Embed o => RefTarget_.SetEmbedded o
  | Ref_new this => Ref_.ctor this
  | Ref_from_ptr this p => Ref_.ctor_ptr this p
  | Ref_copy this inRHS => Ref_.copy_ctor this inRHS
  | Ref_move this inRHS => Ref_.move_ctor this inRHS
  | Ref_destroy this => Ref_.dtor this
  | Ref_set_ptr this p => Ref_.assign_ptr this p ;;; ret tt
  | Ref_set_copy this inRHS => Ref_.assign_copy this inRHS ;;; ret tt
  | Ref_set_move this inRHS => Ref_.assign_move this inRHS ;;; ret tt
  | RefConst_new this => RefConst_.ctor this
  | RefConst_from_ptr this p => RefConst_.ctor_ptr this p
  | RefConst_copy this inRHS => RefConst_.copy_ctor this inRHS
  | RefConst_move this inRHS => RefConst_.move_ctor this inRHS
  | RefConst_copy_Ref this inRHS => RefConst_.copy_ctor_Ref this inRHS
  | RefConst_move_Ref this inRHS => RefConst_.move_ctor_Ref this inRHS
  | RefConst_destroy this => RefConst_.dtor this
  | RefConst_set_ptr this p => RefConst_.assign_ptr this p ;;; ret tt
  | RefConst_set_copy this inRHS => RefConst_.assign_copy this inRHS ;;; ret tt
  | RefConst_set_move this inRHS => RefConst_.assign_move this inRHS ;;; ret tt
  | RefConst_set_copy_Ref this inRHS => RefConst_.assign_copy_Ref this inRHS ;;; ret tt
  | RefConst_set_move_Ref this inRHS => RefConst_.assign_move_Ref this inRHS ;;; ret tt
  end.

(** What each statement asks of its caller: storage under construction is
    not in use, the handles named are alive, a raw pointer handed over is
    valid, no counter is incremented past its range, and [SetEmbedded()] is
    called on a live object whose counter is below [cEmbedded], which is the
    condition that [SetEmbedded()] asserts. *)
Definition op_pre (w : world) (op : handle_op) : Prop :=
  match op with
  | NewObject o => heap w !! o = None
  | Embed o => ∃ obj, heap w !! o = Some obj ∧ mRefCount obj < RefTarget_.cEmbedded
  | Ref_new this => refs w !! this = None
  | Ref_from_ptr this p => refs w !! this = None ∧ valid_ptr w p ∧ no_overflow w p
  | Ref_copy this inRHS =>
      refs w !! this = None ∧ ∃ p, refs w !! inRHS = Some (MkRef p) ∧ no_overflow w p
  | Ref_move this inRHS => refs w !! this = None ∧ is_Some (refs w !! inRHS)
  | Ref_destroy this => is_Some (refs w !! this)
  | Ref_set_ptr this p => is_Some (refs w !! this) ∧ valid_ptr w p ∧ no_overflow w p
  | Ref_set_copy this inRHS =>
      is_Some (refs w !! this) ∧ ∃ p, refs w !! inRHS = Some (MkRef p) ∧ no_overflow w p
  | Ref_set_move this inRHS => is_Some (refs w !! this) ∧ is_Some (refs w !! inRHS)
  | RefConst_new this => crefs w !! this = None
  | RefConst_from_ptr this p => crefs w !! this = None ∧ valid_ptr w p ∧ no_overflow w p
  | RefConst_copy this inRHS =>
      crefs w !! this = None
      ∧ ∃ p, crefs w !! inRHS = Some (MkRefConst p) ∧ no_overflow w p
  | RefConst_move this inRHS => crefs w !! this = None ∧ is_Some (crefs w !! inRHS)
  | RefConst_copy_Ref this inRHS =>
      crefs w !! this = None ∧ ∃ p, refs w !! inRHS = Some (MkRef p) ∧ no_overflow w p
  | RefConst_move_Ref this inRHS => crefs w !! this = None ∧ is_Some (refs w !! inRHS)
  | RefConst_destroy this => is_Some (crefs w !! this)
  | RefConst_set_ptr this p => is_Some (crefs w !! this) ∧ valid_ptr w p ∧ no_overflow w p
  | RefConst_set_copy this inRHS =>
      is_Some (crefs w !! this)
      ∧ ∃ p, crefs w !! inRHS = Some (MkRefConst p) ∧ no_overflow w p
  | RefConst_set_move this inRHS => is_Some (crefs w !! this) ∧ is_Some (crefs w !! inRHS)
  | RefConst_set_copy_Ref this inRHS =>
      is_Some (crefs w !! this) ∧ ∃ p, refs w !! inRHS = Some (MkRef p) ∧ no_overflow w p
  | RefConst_set_move_Ref this inRHS =>
      is_Some (crefs w !! this) ∧ is_Some (refs w !! inRHS)
  end.

(** The same statements for a [T] derived from [RefTarget<T>] with the
    destructor [T_dtor]. *)
Section ProgramsOfT.

Variable T_dtor : loc → M unit.

Definition exec_op_of (op : handle_op) : M unit :=
  let T_AddRef := RefTarget_.AddRef in
  let T_Release := RefTargetOf.Release T_dtor in
  match op with
  | NewObject o => RefTarget_.ctor o
  | Embed o => RefTarget_.SetEmbedded o
  | Ref_new this => Ref_.ctor this
  | Ref_from_ptr this p => RefOf.ctor_ptr T_AddRef this p
  | Ref_copy this inRHS => RefOf.copy_ctor T_AddRef this inRHS
  | Ref_move this inRHS => Ref_.move_ctor this inRHS
  | Ref_destroy this => RefOf.dtor T_Release this
  | Ref_set_ptr this p => RefOf.assign_ptr T_AddRef T_Release this p ;;; ret tt
  | Ref_set_copy this inRHS => RefOf.assign_copy T_AddRef T_Release this inRHS ;;; ret tt
  | Ref_set_move this inRHS => RefOf.assign_move T_Release this inRHS ;;; ret tt
  | RefConst_new this => RefConst_.ctor this
  | RefConst_from_ptr this p => RefConstOf.ctor_ptr T_AddRef this p
  | RefConst_copy this inRHS => RefConstOf.copy_ctor T_AddRef this inRHS
  | RefConst_move this inRHS => RefConst_.move_ctor this inRHS
  | RefConst_copy_Ref this inRHS => RefConstOf.copy_ctor_Ref T_AddRef this inRHS
  | RefConst_move_Ref this inRHS => RefConst_.move_ctor_Ref this inRHS
  | RefConst_destroy this => RefConstOf.dtor T_Release this
  | RefConst_set_ptr this p => RefConstOf.assign_ptr T_AddRef T_Release this p ;;; ret tt
  | RefConst_set_copy this inRHS =>
      RefConstOf.assign_copy T_AddRef T_Release this inRHS ;;; ret tt
  | RefConst_set_move this inRHS => RefConstOf.assign_move T_Release this inRHS ;;; ret tt
  | RefConst_set_copy_Ref this inRHS =>
      RefConstOf.assign_copy_Ref T_AddRef T_Release this inRHS ;;; ret tt
  | RefConst_set_move_Ref this inRHS =>
      RefConstOf.assign_move_Ref T_Release this inRHS ;;; ret tt
  end.

Fixpoint exec_ops_of (ops : list handle_op) : M unit :=
  match ops with
  | [] => ret tt
  | op :: ops' => exec_op_of op ;;; exec_ops_of ops'
  end.

(** The precondition of every statement holds when the program gets to it. *)
Fixpoint ops_pre_of (w : world) (ops : list handle_op) : Prop :=
  match ops with
  | [] => True
  | op :: ops' => op_pre w op ∧ ∀ w', exec_op_of op w = Done tt w' → ops_pre_of w' ops'
  end.

End ProgramsOfT.

(** * Properties *)

(** ** Arithmetic of the counter *)

Lemma wrap32_range z : is_uint32 (wrap32 z).
Proof. unfold is_uint32, wrap32. apply Z.mod_pos_bound. lia. Qed.

Lemma wrap32_small z : is_uint32 z → wrap32 z = z.
Proof. unfold is_uint32, wrap32. intros H. apply Z.mod_small. lia. Qed.

Lemma wrap32_pred_zero c : is_uint32 c → wrap32 (c - 1) = 0 ↔ c = 1.
Proof.
  unfold is_uint32, wrap32. intros Hc. split.
  - intros H. destruct (Z.eq_dec c 0) as [->|Hne].
    + vm_compute in H. discriminate.
    + rewrite Z.mod_small in H by lia. lia.
  - intros ->. reflexivity.
Qed.

Lemma cEmbedded_value : RefTarget_.cEmbedded = 247389677.
Proof. reflexivity. Qed.

(** ** Equations of the member functions of RefTarget on a live object *)

Section RefTargetEquations.

Variables (this : loc) (w : world) (o : RefTarget).
Hypothesis Hlive : heap w !! this = Some o.

Lemma load_mRefCount_live : load_mRefCount this w = Done (mRefCount o) w.
Proof using Hlive. unfold load_mRefCount. by rewrite Hlive. Qed.

Lemma store_mRefCount_live v :
  store_mRefCount this v w = Done tt (set_heap (insert this (MkRefTarget v)) w).
Proof using Hlive. unfold store_mRefCount. by rewrite Hlive. Qed.

Lemma AddRef_live :
  RefTarget_.AddRef this w =
  Done tt (set_heap (insert this (MkRefTarget (wrap32 (mRefCount o + 1)))) w).
Proof using Hlive.
  unfold RefTarget_.AddRef, bind. by rewrite load_mRefCount_live, store_mRefCount_live.
Qed.

Lemma Release_live_nonzero :
  wrap32 (mRefCount o - 1) ≠ 0 →
  RefTarget_.Release this w =
  Done tt (set_heap (insert this (MkRefTarget (wrap32 (mRefCount o - 1)))) w).
Proof using Hlive.
  intros Hnz. unfold RefTarget_.Release, bind.
  rewrite load_mRefCount_live, store_mRefCount_live.
  apply Z.eqb_neq in Hnz. by rewrite Hnz.
Qed.

Lemma Release_live_zero :
  wrap32 (mRefCount o - 1) = 0 →
  RefTarget_.Release this w =
  Done tt (log_delete this (set_heap (delete this) w)).
Proof using Hlive.
  intros Hz. unfold RefTarget_.Release, bind.
  rewrite load_mRefCount_live, store_mRefCount_live, Hz. simpl.
  unfold RefTarget_.delete_T, RefTarget_.dtor, bind, load_mRefCount, JPH_ASSERT. simpl.
  rewrite lookup_insert_eq. simpl.
  unfold set_heap, log_delete. simpl. by rewrite delete_insert_eq.
Qed.

Lemma SetEmbedded_live_ok :
  mRefCount o < RefTarget_.cEmbedded →
  RefTarget_.SetEmbedded this w =
  Done tt (set_heap (insert this (MkRefTarget (wrap32 (mRefCount o + RefTarget_.cEmbedded)))) w).
Proof using Hlive.
  intros Hlt. unfold RefTarget_.SetEmbedded, bind, JPH_ASSERT.
  rewrite load_mRefCount_live. apply Z.ltb_lt in Hlt. rewrite Hlt.
  by rewrite store_mRefCount_live.
Qed.

Lemma SetEmbedded_live_fatal :
  RefTarget_.cEmbedded <= mRefCount o →
  RefTarget_.SetEmbedded this w = Fatal RefTarget_.SetEmbedded_expr.
Proof using Hlive.
  intros Hge. unfold RefTarget_.SetEmbedded, bind, JPH_ASSERT.
  rewrite load_mRefCount_live. apply Z.ltb_ge in Hge. by rewrite Hge.
Qed.

Lemma dtor_live_ok :
  mRefCount o = 0 ∨ mRefCount o = RefTarget_.cEmbedded →
  RefTarget_.dtor this w = Done tt w.
Proof using Hlive.
  intros Hc. unfold RefTarget_.dtor, bind, JPH_ASSERT. rewrite load_mRefCount_live.
  destruct Hc as [-> | ->]; reflexivity.
Qed.

Lemma dtor_live_fatal :
  mRefCount o ≠ 0 → mRefCount o ≠ RefTarget_.cEmbedded →
  RefTarget_.dtor this w = Fatal RefTarget_.dtor_expr.
Proof using Hlive.
  intros H0 HE. unfold RefTarget_.dtor, bind, JPH_ASSERT. rewrite load_mRefCount_live.
  apply Z.eqb_neq in H0, HE. by rewrite H0, HE.
Qed.

End RefTargetEquations.

(** ** RefTarget::Release *)



(** C9.  [Release()] on a live object whose counter is 0 stores 2^32 - 1:
    the call returns normally, the object stays alive, nothing is deleted and
    no assertion fires. *)
Theorem Release_at_zero_wraps (this : loc) (w : world) :
  heap w !! this = Some (MkRefTarget 0) →
  RefTarget_.Release this w =
    Done tt (set_heap (insert this (MkRefTarget (2 ^ 32 - 1))) w)
  ∧ ∀ w', RefTarget_.Release this w = Done tt w' →
      heap w' !! this = Some (MkRefTarget 4294967295) ∧ deleted w' = deleted w.
Proof.
  intros Hlive.
  assert (HR : RefTarget_.Release this w =
               Done tt (set_heap (insert this (MkRefTarget (2 ^ 32 - 1))) w)).
  { by rewrite (Release_live_nonzero this w _ Hlive). }
  split; [exact HR |].
  intros w' Hw'. rewrite HR in Hw'. injection Hw' as <-. simpl.
  by rewrite lookup_insert_eq.
Qed.

Lemma Release_at_zero_wraps_witness :
  let w := world_of [(5%positive, 0)] [] [] in
  heap w !! 5%positive = Some (MkRefTarget 0) ∧
  RefTarget_.Release 5%positive w =
    Done tt (set_heap (insert 5%positive (MkRefTarget (2 ^ 32 - 1))) w).
Proof.
  intros w. split; [reflexivity |].
  apply (Release_at_zero_wraps 5%positive w). reflexivity.
Defined.

(** ** RefTarget::SetRefCountInternal *)

(** C10.  For every [uint32] argument the asserted condition
    [inRefCount >= 0] is true, and on a live object the call stores exactly
    the argument, whatever the counter was, changing nothing else. *)
Theorem SetRefCountInternal_overwrites (this : loc) (w : world) (o : RefTarget) (v : Z) :
  is_uint32 v →
  heap w !! this = Some o →
  (v >=? 0) = true
  ∧ RefTarget_.SetRefCountInternal this v w =
      Done tt (set_heap (insert this (MkRefTarget v)) w).
Proof.
  intros Hv Hlive.
  assert (Hge : (v >=? 0) = true).
  { unfold is_uint32 in Hv. rewrite Z.geb_leb. apply Z.leb_le. lia. }
  split; [exact Hge |].
  unfold RefTarget_.SetRefCountInternal, bind, JPH_ASSERT. rewrite Hge.
  by rewrite (store_mRefCount_live this w o Hlive).
Qed.

Lemma SetRefCountInternal_overwrites_witness :
  let w := world_of [(1%positive, 7)] [] [] in
  is_uint32 4000000000 ∧ heap w !! 1%positive = Some (MkRefTarget 7) ∧
  RefTarget_.SetRefCountInternal 1%positive 4000000000 w =
    Done tt (set_heap (insert 1%positive (MkRefTarget 4000000000)) w).
Proof.
  intros w.
  assert (Hv : is_uint32 4000000000) by (unfold is_uint32; lia).
  split; [exact Hv |]. split; [reflexivity |].
  apply (SetRefCountInternal_overwrites 1%positive w (MkRefTarget 7) 4000000000 Hv).
  reflexivity.
Defined.

(** ** Copying a RefTarget *)

(** C6.  The copy constructor makes an object with counter 0 whatever the
    source holds and leaves every other object, the source among them,
    as it was; copy assignment returns [*this] and changes nothing at all,
    so both operands keep their counters. *)
Theorem copy_never_touches_counters (this inRHS : loc) (w : world) :
  (∃ w', RefTarget_.copy_ctor this inRHS w = Done tt w'
     ∧ heap w' !! this = Some (MkRefTarget 0)
     ∧ (∀ q, q ≠ this → heap w' !! q = heap w !! q)
     ∧ refs w' = refs w ∧ crefs w' = crefs w ∧ deleted w' = deleted w)
  ∧ RefTarget_.assign this inRHS w = Done this w.
Proof.
  split; [| reflexivity].
  eexists. split; [reflexivity |]. simpl.
  repeat split.
  - by rewrite lookup_insert_eq.
  - intros q Hq. by rewrite lookup_insert_ne.
Qed.

(** ** Sequences of calls *)

Lemma set_heap_insert_id (this : loc) (w : world) (o : RefTarget) :
  heap w !! this = Some o → set_heap (insert this o) w = w.
Proof. destruct w as [h r c d]. unfold set_heap. simpl. intros H. by rewrite insert_id. Qed.

Lemma set_heap_insert_twice (this : loc) (w : world) (a b : RefTarget) :
  set_heap (insert this a) (set_heap (insert this b) w) = set_heap (insert this a) w.
Proof. unfold set_heap. simpl. by rewrite insert_insert_eq. Qed.

Lemma heap_set_heap_insert (this : loc) (w : world) (a : RefTarget) :
  heap (set_heap (insert this a) w) !! this = Some a.
Proof. simpl. apply lookup_insert_eq. Qed.

Lemma wrap32_add_l a b : wrap32 (wrap32 a + b) = wrap32 (a + b).
Proof. unfold wrap32. apply Zplus_mod_idemp_l. Qed.

Lemma count_call_cons c d cs :
  count_call c (d :: cs) = (if decide (d = c) then 1 else 0) + count_call c cs.
Proof.
  unfold count_call. rewrite filter_cons.
  destruct (decide (d = c)); simpl length; lia.
Qed.

Lemma count_call_nonneg c cs : 0 <= count_call c cs.
Proof. unfold count_call. lia. Qed.

Lemma exec_calls_app (this : loc) (cs ds : list call) (w : world) :
  exec_calls this (cs ++ ds) w = (exec_calls this cs ;;; exec_calls this ds) w.
Proof.
  revert w. induction cs as [| c cs IH]; intros w; [reflexivity |].
  simpl. unfold bind in *. destruct (exec_call this c w); [apply IH | done | done].
Qed.

(** Nothing can be called on an object that is gone. *)
Lemma exec_calls_dead (this : loc) (cs : list call) (w w' : world) :
  heap w !! this = None →
  exec_calls this cs w = Done tt w' → cs = [] ∧ w' = w.
Proof.
  intros Hdead. destruct cs as [| c cs]; simpl.
  - intros [= <-]. done.
  - unfold bind. destruct c; simpl;
      unfold RefTarget_.AddRef, RefTarget_.Release, RefTarget_.SetEmbedded,
        bind, load_mRefCount; rewrite Hdead; discriminate.
Qed.

(** The assertion of the destructor never fails inside [Release()]. *)
Lemma exec_call_dtor_assertion (this : loc) (c : call) (w : world) :
  exec_call this c w ≠ Fatal RefTarget_.dtor_expr.
Proof.
  destruct (heap w !! this) as [o |] eqn:Hlive.
  - destruct c; simpl.
    + by rewrite (AddRef_live this w o Hlive).
    + destruct (Z.eq_dec (wrap32 (mRefCount o - 1)) 0) as [Hz | Hnz].
      * by rewrite (Release_live_zero this w o Hlive Hz).
      * by rewrite (Release_live_nonzero this w o Hlive Hnz).
    + destruct (Z_lt_le_dec (mRefCount o) RefTarget_.cEmbedded) as [Hlt | Hge].
      * by rewrite (SetEmbedded_live_ok this w o Hlive Hlt).
      * rewrite (SetEmbedded_live_fatal this w o Hlive Hge). discriminate.
  - destruct c; simpl;
      unfold RefTarget_.AddRef, RefTarget_.Release, RefTarget_.SetEmbedded,
        bind, load_mRefCount; rewrite Hlive; discriminate.
Qed.

Lemma exec_calls_dtor_assertion (this : loc) (cs : list call) (w : world) :
  exec_calls this cs w ≠ Fatal RefTarget_.dtor_expr.
Proof.
  revert w. induction cs as [| c cs IH]; intros w; simpl; [discriminate |].
  unfold bind. pose proof (exec_call_dtor_assertion this c w) as Hc.
  destruct (exec_call this c w); [apply IH | exact Hc | discriminate].
Qed.

Ltac wrap32_step :=
  match goal with
  | |- wrap32 (wrap32 ?a + ?s + ?t - ?r) = _ =>
      replace (wrap32 a + s + t - r) with (wrap32 a + (s + t - r)) by lia;
      rewrite wrap32_add_l; f_equal; lia
  end.

(** While the object lives, its counter is the initial value plus the bias
    for each [SetEmbedded], plus the increments, minus the decrements, as a
    [uint32]. *)
Lemma exec_calls_counter (this : loc) (cs : list call) :
  ∀ (w w' : world) (c : Z) (o' : RefTarget),
  heap w !! this = Some (MkRefTarget c) → is_uint32 c →
  exec_calls this cs w = Done tt w' →
  heap w' !! this = Some o' →
  mRefCount o' =
    wrap32 (c + RefTarget_.cEmbedded * count_call CallSetEmbedded cs
              + count_call CallAddRef cs - count_call CallRelease cs).
Proof.
  induction cs as [| d cs IH]; intros w w' c o' Hlive Hc Hrun Hlive'.
  - simpl in Hrun. injection Hrun as <-. rewrite Hlive in Hlive'.
    injection Hlive' as <-. simpl. unfold count_call. simpl.
    rewrite wrap32_small; [lia | unfold is_uint32 in *; lia].
  - simpl in Hrun. unfold bind in Hrun.
    rewrite !(count_call_cons _ d).
    destruct d; simpl in Hrun.
    + rewrite (AddRef_live this w _ Hlive) in Hrun. simpl in Hrun.
      rewrite (IH _ _ _ _ (heap_set_heap_insert _ _ _) (wrap32_range _) Hrun Hlive').
      repeat case_decide; try congruence; wrap32_step.
    + destruct (Z.eq_dec (wrap32 (c - 1)) 0) as [Hz | Hnz].
      * rewrite (Release_live_zero this w _ Hlive Hz) in Hrun.
        apply exec_calls_dead in Hrun as [_ ->]; [| simpl; apply lookup_delete_eq].
        simpl in Hlive'. by rewrite lookup_delete_eq in Hlive'.
      * rewrite (Release_live_nonzero this w _ Hlive Hnz) in Hrun. simpl in Hrun.
        rewrite (IH _ _ _ _ (heap_set_heap_insert _ _ _) (wrap32_range _) Hrun Hlive').
        repeat case_decide; try congruence; wrap32_step.
    + destruct (Z_lt_le_dec c RefTarget_.cEmbedded) as [Hlt | Hge].
      * rewrite (SetEmbedded_live_ok this w _ Hlive Hlt) in Hrun. simpl in Hrun.
        rewrite (IH _ _ _ _ (heap_set_heap_insert _ _ _) (wrap32_range _) Hrun Hlive').
        repeat case_decide; try congruence; wrap32_step.
      * by rewrite (SetEmbedded_live_fatal this w _ Hlive Hge) in Hrun.
Qed.

(** [n] calls of [AddRef()] that do not overflow add [n]. *)
Lemma exec_AddRefs (this : loc) (n : nat) :
  ∀ (w : world) (c : Z),
  heap w !! this = Some (MkRefTarget c) → 0 <= c → c + Z.of_nat n < 2 ^ 32 →
  exec_calls this (replicate n CallAddRef) w =
    Done tt (set_heap (insert this (MkRefTarget (c + Z.of_nat n))) w).
Proof.
  induction n as [| n IH]; intros w c Hlive H0 Hn.
  - simpl. unfold ret. rewrite Z.add_0_r. by rewrite set_heap_insert_id.
  - simpl replicate. simpl exec_calls. unfold bind.
    rewrite (AddRef_live this w _ Hlive). simpl mRefCount.
    rewrite wrap32_small by (unfold is_uint32; lia).
    rewrite (IH _ (c + 1)); [| apply heap_set_heap_insert | lia ..].
    rewrite set_heap_insert_twice. do 4 f_equal. lia.
Qed.

(** [k] calls of [Release()] on a counter above [k] subtract [k] and
    destroy nothing. *)
Lemma exec_Releases (this : loc) (k : nat) :
  ∀ (w : world) (c : Z),
  heap w !! this = Some (MkRefTarget c) → Z.of_nat k < c → c < 2 ^ 32 →
  exec_calls this (replicate k CallRelease) w =
    Done tt (set_heap (insert this (MkRefTarget (c - Z.of_nat k))) w).
Proof.
  induction k as [| k IH]; intros w c Hlive Hk Hc.
  - simpl. unfold ret. rewrite Z.sub_0_r. by rewrite set_heap_insert_id.
  - simpl replicate. simpl exec_calls. unfold bind.
    assert (Hw : wrap32 (c - 1) = c - 1)
      by (apply wrap32_small; unfold is_uint32; lia).
    rewrite (Release_live_nonzero this w _ Hlive); simpl mRefCount; rewrite Hw;
      [| lia].
    rewrite (IH _ (c - 1)); [| apply heap_set_heap_insert | lia ..].
    rewrite set_heap_insert_twice. do 4 f_equal. lia.
Qed.

(** ** The destructor *)

(** C3.  [~RefTarget()] asserts [mRefCount == 0 || mRefCount == cEmbedded]:
    it passes on these two values and is fatal on every other one.  For an
    object that started at 0 and received as many [AddRef()] as [Release()]
    calls and at most one [SetEmbedded()], in any order: the destructor run
    by a [Release()] that reached 0 never fails its assertion, and if the
    object is still alive after the calls, destroying it passes the
    assertion. *)
Theorem dtor_assertion_balanced (this : loc) (cs : list call) (w w' : world) (o o' : RefTarget) :
  heap w !! this = Some o →
  (mRefCount o = 0 ∨ mRefCount o = RefTarget_.cEmbedded →
     RefTarget_.dtor this w = Done tt w)
  ∧ (mRefCount o ≠ 0 ∧ mRefCount o ≠ RefTarget_.cEmbedded →
     RefTarget_.dtor this w = Fatal RefTarget_.dtor_expr)
  ∧ (mRefCount o = 0 →
     count_call CallAddRef cs = count_call CallRelease cs →
     count_call CallSetEmbedded cs <= 1 →
     exec_calls this cs w ≠ Fatal RefTarget_.dtor_expr
     ∧ (exec_calls this cs w = Done tt w' →
        heap w' !! this = Some o' →
        (mRefCount o' = 0 ∨ mRefCount o' = RefTarget_.cEmbedded)
        ∧ RefTarget_.dtor this w' = Done tt w')).
Proof.
  intros Hlive. split; [| split].
  - apply (dtor_live_ok this w o Hlive).
  - intros [H0 HE]. by apply (dtor_live_fatal this w o Hlive).
  - intros H0 Hbal Hemb. split; [apply exec_calls_dtor_assertion |].
    intros Hrun Hlive'.
    assert (Hc : mRefCount o' = 0 ∨ mRefCount o' = RefTarget_.cEmbedded).
    { destruct o as [c]. simpl in H0. subst c.
      rewrite (exec_calls_counter this cs w w' 0 o' Hlive) by
        (done || unfold is_uint32; lia).
      rewrite Hbal.
      pose proof (count_call_nonneg CallSetEmbedded cs) as Hnn.
      assert (Hk : count_call CallSetEmbedded cs = 0 ∨ count_call CallSetEmbedded cs = 1) by lia.
      destruct Hk as [-> | ->]; [left | right].
      - replace (0 + _ * 0 + _ - _) with 0 by lia. reflexivity.
      - replace (0 + _ * 1 + _ - _) with RefTarget_.cEmbedded by lia. reflexivity. }
    split; [exact Hc |]. by apply (dtor_live_ok this w' o' Hlive').
Qed.

Lemma dtor_assertion_balanced_witness :
  let cs := [CallAddRef; CallSetEmbedded; CallAddRef; CallRelease; CallRelease] in
  let w := world_of [(1%positive, 0)] [] [] in
  let w' := world_of [(1%positive, RefTarget_.cEmbedded)] [] [] in
  heap w !! 1%positive = Some (MkRefTarget 0)
  ∧ exec_calls 1%positive cs w = Done tt w'
  ∧ RefTarget_.dtor 1%positive w' = Done tt w'
  ∧ RefTarget_.dtor 1%positive (world_of [(1%positive, 3)] [] []) =
      Fatal RefTarget_.dtor_expr.
Proof.
  intros cs w w'.
  assert (Hrun : exec_calls 1%positive cs w = Done tt w') by (vm_compute; reflexivity).
  split; [reflexivity |]. split; [exact Hrun |]. split.
  - destruct (dtor_assertion_balanced 1%positive cs w w'
                (MkRefTarget 0) (MkRefTarget RefTarget_.cEmbedded))
      as (_ & _ & H); [reflexivity |].
    destruct H as [_ H]; [reflexivity | reflexivity | vm_compute; discriminate |].
    apply H; [exact Hrun | reflexivity].
  - destruct (dtor_assertion_balanced 1%positive [] (world_of [(1%positive, 3)] [] [])
                (world_of [(1%positive, 3)] [] []) (MkRefTarget 3) (MkRefTarget 3))
      as (_ & H & _); [reflexivity |].
    apply H. split; discriminate.
Defined.

(** ** RefTarget::SetEmbedded *)

Lemma two_cEmbedded_fit : 2 * RefTarget_.cEmbedded < 2 ^ 32.
Proof. reflexivity. Qed.

(** After [SetEmbedded()] on a counter [c < cEmbedded], [k <= c] calls of
    [Release()] leave [c + cEmbedded - k], which is at least [cEmbedded]. *)
Lemma SetEmbedded_then_Releases (this : loc) (w : world) (c : Z) (k : nat) :
  heap w !! this = Some (MkRefTarget c) →
  0 <= c < RefTarget_.cEmbedded → Z.of_nat k <= c →
  exec_calls this (CallSetEmbedded :: replicate k CallRelease) w =
    Done tt (set_heap (insert this (MkRefTarget (c + RefTarget_.cEmbedded - Z.of_nat k))) w).
Proof.
  intros Hlive Hc Hk. pose proof two_cEmbedded_fit as Hfit.
  assert (HcE : 0 < RefTarget_.cEmbedded) by reflexivity.
  simpl exec_calls. unfold bind.
  rewrite (SetEmbedded_live_ok this w _ Hlive) by (simpl; lia). simpl mRefCount.
  rewrite wrap32_small by (unfold is_uint32; lia).
  rewrite (exec_Releases this k _ (c + RefTarget_.cEmbedded));
    [| apply heap_set_heap_insert | lia | lia].
  by rewrite set_heap_insert_twice.
Qed.

(** C4.  [SetEmbedded()] asserts [mRefCount < cEmbedded]: on a counter that
    is already at least [cEmbedded] it is fatal.  Otherwise it adds
    [cEmbedded] once; after that, [k] calls of [Release()] with [k] at most
    the counter before the call leave a counter of at least [cEmbedded], so
    never 0, nothing is deleted, and a second [SetEmbedded()], at once or
    after these releases, fails the assertion. *)
Theorem SetEmbedded_once (this : loc) (w : world) (o : RefTarget) (k : nat) :
  heap w !! this = Some o →
  is_uint32 (mRefCount o) →
  (RefTarget_.cEmbedded <= mRefCount o →
     RefTarget_.SetEmbedded this w = Fatal RefTarget_.SetEmbedded_expr)
  ∧ (mRefCount o < RefTarget_.cEmbedded →
     Z.of_nat k <= mRefCount o →
     let w1 := set_heap (insert this (MkRefTarget (mRefCount o + RefTarget_.cEmbedded))) w in
     let w2 := set_heap (insert this
                 (MkRefTarget (mRefCount o + RefTarget_.cEmbedded - Z.of_nat k))) w in
     RefTarget_.SetEmbedded this w = Done tt w1
     ∧ exec_calls this (replicate k CallRelease) w1 = Done tt w2
     ∧ RefTarget_.cEmbedded <= mRefCount o + RefTarget_.cEmbedded - Z.of_nat k
     ∧ mRefCount o + RefTarget_.cEmbedded - Z.of_nat k ≠ 0
     ∧ deleted w2 = deleted w
     ∧ RefTarget_.SetEmbedded this w1 = Fatal RefTarget_.SetEmbedded_expr
     ∧ RefTarget_.SetEmbedded this w2 = Fatal RefTarget_.SetEmbedded_expr).
Proof.
  intros Hlive Hu. split; [apply (SetEmbedded_live_fatal this w o Hlive) |].
  intros Hlt Hk w1 w2. destruct o as [c]. simpl in *.
  pose proof two_cEmbedded_fit as Hfit.
  assert (HcE : 0 < RefTarget_.cEmbedded) by reflexivity.
  unfold is_uint32 in Hu.
  assert (H1 : RefTarget_.SetEmbedded this w = Done tt w1).
  { rewrite (SetEmbedded_live_ok this w _ Hlive) by done. simpl.
    by rewrite wrap32_small by (unfold is_uint32; lia). }
  assert (H2 : exec_calls this (replicate k CallRelease) w1 = Done tt w2).
  { pose proof (SetEmbedded_then_Releases this w c k Hlive) as H.
    simpl exec_calls in H. unfold bind in H. rewrite H1 in H. apply H; lia. }
  repeat split; try done; try lia.
  - apply (SetEmbedded_live_fatal this w1 _ (heap_set_heap_insert _ _ _)). simpl. lia.
  - apply (SetEmbedded_live_fatal this w2 _ (heap_set_heap_insert _ _ _)). simpl. lia.
Qed.

Lemma SetEmbedded_once_witness :
  let w := world_of [(1%positive, 2)] [] [] in
  let w1 := world_of [(1%positive, 2 + RefTarget_.cEmbedded)] [] [] in
  heap w !! 1%positive = Some (MkRefTarget 2) ∧ is_uint32 2
  ∧ RefTarget_.SetEmbedded 1%positive w = Done tt w1
  ∧ exec_calls 1%positive [CallRelease; CallRelease] w1 =
      Done tt (world_of [(1%positive, RefTarget_.cEmbedded)] [] [])
  ∧ RefTarget_.SetEmbedded 1%positive w1 = Fatal RefTarget_.SetEmbedded_expr.
Proof.
  intros w w1.
  assert (Hu : is_uint32 2) by (unfold is_uint32; lia).
  destruct (SetEmbedded_once 1%positive w (MkRefTarget 2) 2 eq_refl Hu) as [_ H].
  destruct H as (H1 & H2 & _ & _ & _ & H3 & _); [reflexivity | simpl; lia |].
  split; [reflexivity |]. split; [exact Hu |].
  split; [exact H1 |]. split; [exact H2 | exact H3].
Defined.

(** C7.  Take an object that started at 0 and whose counter stands at
    [n] after some [AddRef()] and [Release()] calls ([n] is their net
    number, below 2^32).  [SetEmbedded()] is then either fatal (when
    [n >= cEmbedded]) or accepted, and in that case any [k <= n] calls of
    [Release()] end with the object alive, the counter at
    [n + cEmbedded - k], which is not 0, and nothing deleted. *)
Theorem embedded_never_destroyed
    (this : loc) (pre : list call) (w w1 : world) (o1 : RefTarget) (k : nat) :
  let n := count_call CallAddRef pre - count_call CallRelease pre in
  heap w !! this = Some (MkRefTarget 0) →
  count_call CallSetEmbedded pre = 0 →
  exec_calls this pre w = Done tt w1 →
  heap w1 !! this = Some o1 →
  0 <= n < 2 ^ 32 →
  Z.of_nat k <= n →
  mRefCount o1 = n
  ∧ (RefTarget_.cEmbedded <= n →
     RefTarget_.SetEmbedded this w1 = Fatal RefTarget_.SetEmbedded_expr)
  ∧ (n < RefTarget_.cEmbedded →
     ∃ w', exec_calls this (CallSetEmbedded :: replicate k CallRelease) w1 = Done tt w'
       ∧ heap w' !! this = Some (MkRefTarget (n + RefTarget_.cEmbedded - Z.of_nat k))
       ∧ n + RefTarget_.cEmbedded - Z.of_nat k ≠ 0
       ∧ deleted w' = deleted w1).
Proof.
  intros n Hlive Hpre Hrun Hlive1 Hn Hk.
  assert (Hc : mRefCount o1 = n).
  { rewrite (exec_calls_counter this pre w w1 0 o1 Hlive) by
      (done || unfold is_uint32; lia).
    rewrite Hpre.
    replace (0 + RefTarget_.cEmbedded * 0 + count_call CallAddRef pre
               - count_call CallRelease pre) with n by (unfold n; lia).
    by apply wrap32_small. }
  destruct o1 as [c]. simpl in Hc. subst c.
  split; [reflexivity |]. split.
  - intros Hge. by apply (SetEmbedded_live_fatal this w1 _ Hlive1).
  - intros Hlt. eexists. split.
    + apply (SetEmbedded_then_Releases this w1 n k Hlive1); lia.
    + simpl. rewrite lookup_insert_eq. repeat split.
      assert (HcE : 0 < RefTarget_.cEmbedded) by reflexivity. lia.
Qed.

Lemma embedded_never_destroyed_witness :
  let pre := [CallAddRef; CallAddRef; CallRelease; CallAddRef] in
  let w := world_of [(1%positive, 0)] [] [] in
  let w1 := world_of [(1%positive, 2)] [] [] in
  heap w !! 1%positive = Some (MkRefTarget 0)
  ∧ exec_calls 1%positive pre w = Done tt w1
  ∧ ∃ w', exec_calls 1%positive [CallSetEmbedded; CallRelease; CallRelease] w1 = Done tt w'
       ∧ heap w' !! 1%positive = Some (MkRefTarget RefTarget_.cEmbedded)
       ∧ deleted w' = deleted w1.
Proof.
  intros pre w w1.
  assert (Hrun : exec_calls 1%positive pre w = Done tt w1) by (vm_compute; reflexivity).
  split; [reflexivity |]. split; [exact Hrun |].
  destruct (embedded_never_destroyed 1%positive pre w w1 (MkRefTarget 2) 2)
    as (_ & _ & H); [reflexivity | reflexivity | exact Hrun | reflexivity
                    | vm_compute; split; [discriminate | reflexivity]
                    | vm_compute; discriminate |].
  destruct H as (w' & H1 & H2 & _ & H4); [reflexivity |].
  exists w'. split; [exact H1 |]. split; [exact H2 | exact H4].
Defined.

(** ** Handles *)

Ltac unfold_handle_ops :=
  unfold hash_Ref, hash_RefConst,
    Ref_.ctor_ptr, Ref_.copy_ctor, Ref_.move_ctor,
    Ref_.assign_ptr, Ref_.assign_copy, Ref_.assign_move,
    Ref_.eq_ptr, Ref_.eq_Ref, Ref_.ne_ptr, Ref_.ne_Ref, Ref_.GetPtr,
    Ref_.AddRef, Ref_.Release, Ref_.init_mPtr,
    RefConst_.ctor_ptr, RefConst_.copy_ctor, RefConst_.move_ctor,
    RefConst_.copy_ctor_Ref, RefConst_.move_ctor_Ref,
    RefConst_.assign_ptr, RefConst_.assign_copy, RefConst_.assign_move,
    RefConst_.assign_copy_Ref, RefConst_.assign_move_Ref,
    RefConst_.eq_ptr, RefConst_.eq_RefConst, RefConst_.eq_Ref,
    RefConst_.ne_ptr, RefConst_.ne_RefConst, RefConst_.ne_Ref, RefConst_.GetPtr,
    RefConst_.AddRef, RefConst_.Release, RefConst_.init_mPtr,
    Ref_.load_mPtr, Ref_.store_mPtr, RefConst_.load_mPtr, RefConst_.store_mPtr,
    bind, ret.

(** Rewrite the lookups of live handles and objects met while running. *)
Ltac run_handles :=
  repeat (simpl;
    match goal with
    | H : ?m !! ?k = _ |- context [?m !! ?k] => rewrite H
    | |- context [<[?k:=_]> _ !! ?k] => rewrite lookup_insert_eq
    | H : ?k ≠ ?j |- context [<[?k:=_]> _ !! ?j] => rewrite (lookup_insert_ne _ k j) by exact H
    | H : ?j ≠ ?k |- context [<[?k:=_]> _ !! ?j] =>
        rewrite (lookup_insert_ne _ k j) by (intros ->; by apply H)
    | |- context [bool_decide (?p ≠ ?p)] => rewrite (bool_decide_eq_false_2 (p ≠ p)) by auto
    | |- context [bool_decide (?p = ?p)] => rewrite (bool_decide_eq_true_2 (p = p)) by auto
    | H : ?p ≠ ?q |- context [bool_decide (?p ≠ ?q)] => rewrite (bool_decide_eq_true_2 (p ≠ q)) by exact H
    end).

(** C5.  Assigning to a handle the pointer it already holds, from a raw
    pointer or from a handle (the same one or another) holding that pointer,
    by copy or by move, for both kinds of handle: the call returns [*this] and
    the state is unchanged, so neither [Release()] nor [AddRef()] ran and no
    counter moved, not even for a moment. *)
Theorem assign_same_pointer_noop (w : world) (this inRHS : hloc) (p : ptr) :
  (refs w !! this = Some (MkRef p) →
     Ref_.assign_ptr this p w = Done this w
     ∧ (refs w !! inRHS = Some (MkRef p) →
        Ref_.assign_copy this inRHS w = Done this w
        ∧ Ref_.assign_move this inRHS w = Done this w))
  ∧ (crefs w !! this = Some (MkRefConst p) →
     RefConst_.assign_ptr this p w = Done this w
     ∧ (crefs w !! inRHS = Some (MkRefConst p) →
        RefConst_.assign_copy this inRHS w = Done this w
        ∧ RefConst_.assign_move this inRHS w = Done this w)
     ∧ (refs w !! inRHS = Some (MkRef p) →
        RefConst_.assign_copy_Ref this inRHS w = Done this w
        ∧ RefConst_.assign_move_Ref this inRHS w = Done this w)).
Proof.
  split; intros Hthis; repeat split; try intros Hrhs;
    unfold_handle_ops; run_handles; reflexivity.
Qed.

Lemma assign_same_pointer_noop_witness :
  let w := world_of [(1%positive, 2)]
             [(10%positive, Some 1%positive); (11%positive, Some 1%positive)]
             [(20%positive, Some 1%positive)] in
  Ref_.assign_ptr 10%positive (Some 1%positive) w = Done 10%positive w
  ∧ Ref_.assign_copy 10%positive 11%positive w = Done 10%positive w
  ∧ Ref_.assign_copy 10%positive 10%positive w = Done 10%positive w
  ∧ RefConst_.assign_move_Ref 20%positive 11%positive w = Done 20%positive w.
Proof.
  intros w.
  destruct (assign_same_pointer_noop w 10%positive 11%positive (Some 1%positive))
    as [HR HC].
  destruct (assign_same_pointer_noop w 10%positive 10%positive (Some 1%positive))
    as [HR' _].
  destruct (assign_same_pointer_noop w 20%positive 11%positive (Some 1%positive))
    as [_ HC'].
  destruct (HR eq_refl) as [H1 H2]. destruct (H2 eq_refl) as [H3 _].
  destruct (HR' eq_refl) as [_ H4]. destruct (H4 eq_refl) as [H5 _].
  destruct (HC' eq_refl) as (_ & _ & H6). destruct (H6 eq_refl) as [_ H7].
  split; [exact H1 |]. split; [exact H3 |]. split; [exact H5 | exact H7].
Defined.

(** ** Comparison and hashing *)

(** C8.  For handles holding [p] and [q], every [==] returns whether
    [p = q], every [!=] returns the negation of that, and the hash is the
    hash of the pointer; none changes the state.  Hence two handles holding
    the same pointer compare equal and hash equal, and a handle holding
    [nullptr] is equal to [nullptr] and different from every pointer to an
    object. *)
Theorem eq_hash_pointer_only
    (hash_ptr hash_const_ptr : ptr → Z) (w : world) (a b : hloc) (p q : ptr) (o : loc) :
  (refs w !! a = Some (MkRef p) →
     Ref_.eq_ptr a q w = Done (bool_decide (p = q)) w
     ∧ Ref_.ne_ptr a q w = Done (negb (bool_decide (p = q))) w
     ∧ hash_Ref hash_ptr a w = Done (hash_ptr p) w
     ∧ (p = nullptr →
        Ref_.eq_ptr a nullptr w = Done true w
        ∧ Ref_.eq_ptr a (Some o) w = Done false w)
     ∧ (refs w !! b = Some (MkRef q) →
        Ref_.eq_Ref a b w = Done (bool_decide (p = q)) w
        ∧ Ref_.ne_Ref a b w = Done (negb (bool_decide (p = q))) w
        ∧ (p = q →
           Ref_.eq_Ref a b w = Done true w
           ∧ hash_Ref hash_ptr a w = hash_Ref hash_ptr b w)))
  ∧ (crefs w !! a = Some (MkRefConst p) →
     RefConst_.eq_ptr a q w = Done (bool_decide (p = q)) w
     ∧ RefConst_.ne_ptr a q w = Done (negb (bool_decide (p = q))) w
     ∧ hash_RefConst hash_const_ptr a w = Done (hash_const_ptr p) w
     ∧ (p = nullptr →
        RefConst_.eq_ptr a nullptr w = Done true w
        ∧ RefConst_.eq_ptr a (Some o) w = Done false w)
     ∧ (crefs w !! b = Some (MkRefConst q) →
        RefConst_.eq_RefConst a b w = Done (bool_decide (p = q)) w
        ∧ RefConst_.ne_RefConst a b w = Done (negb (bool_decide (p = q))) w
        ∧ (p = q →
           RefConst_.eq_RefConst a b w = Done true w
           ∧ hash_RefConst hash_const_ptr a w = hash_RefConst hash_const_ptr b w))
     ∧ (refs w !! b = Some (MkRef q) →
        RefConst_.eq_Ref a b w = Done (bool_decide (p = q)) w
        ∧ RefConst_.ne_Ref a b w = Done (negb (bool_decide (p = q))) w
        ∧ (p = q → RefConst_.eq_Ref a b w = Done true w))).
Proof.
  assert (Hneg : ∀ x y : ptr, bool_decide (x ≠ y) = negb (bool_decide (x = y))).
  { intros x y. by rewrite bool_decide_not. }
  split; intros Ha; repeat split; try intros Hb; try intros Hpq; subst;
    unfold_handle_ops; run_handles; rewrite ?Hneg; reflexivity.
Qed.

Lemma eq_hash_pointer_only_witness :
  let w := world_of [(1%positive, 2)]
             [(10%positive, Some 1%positive); (11%positive, Some 1%positive);
              (12%positive, None)]
             [(20%positive, Some 1%positive)] in
  let h := λ p : ptr, match p with Some o => Z.pos o | None => 0 end in
  Ref_.eq_Ref 10%positive 11%positive w = Done true w
  ∧ hash_Ref h 10%positive w = hash_Ref h 11%positive w
  ∧ Ref_.eq_ptr 12%positive nullptr w = Done true w
  ∧ Ref_.eq_ptr 12%positive (Some 1%positive) w = Done false w
  ∧ RefConst_.eq_Ref 20%positive 10%positive w = Done true w.
Proof.
  intros w h.
  destruct (eq_hash_pointer_only h h w 10%positive 11%positive
              (Some 1%positive) (Some 1%positive) 1%positive) as [HR _].
  destruct (HR eq_refl) as (_ & _ & _ & _ & H). destruct (H eq_refl) as (_ & _ & H').
  destruct (H' eq_refl) as [H1 H2].
  destruct (eq_hash_pointer_only h h w 12%positive 11%positive
              nullptr (Some 1%positive) 1%positive) as [HN _].
  destruct (HN eq_refl) as (_ & _ & _ & H3 & _). destruct (H3 eq_refl) as [H4 H5].
  destruct (eq_hash_pointer_only h h w 20%positive 10%positive
              (Some 1%positive) (Some 1%positive) 1%positive) as [_ HC].
  destruct (HC eq_refl) as (_ & _ & _ & _ & _ & H6). destruct (H6 eq_refl) as (_ & _ & H7).
  split; [exact H1 |]. split; [exact H2 |]. split; [exact H4 |].
  split; [exact H5 | exact (H7 eq_refl)].
Defined.

(** ** Moving handles *)

(** [RefTarget::Release] on [o] touches no handle and no other object. *)
Lemma Release_frame (o : loc) (w w1 : world) :
  RefTarget_.Release o w = Done tt w1 →
  refs w1 = refs w ∧ crefs w1 = crefs w
  ∧ ∀ o', o' ≠ o → heap w1 !! o' = heap w !! o'.
Proof.
  destruct (heap w !! o) as [obj |] eqn:Hlive.
  - destruct (Z.eq_dec (wrap32 (mRefCount obj - 1)) 0) as [Hz | Hnz].
    + rewrite (Release_live_zero o w obj Hlive Hz). intros [= <-]. simpl.
      repeat split. intros o' Hne. by rewrite lookup_delete_ne.
    + rewrite (Release_live_nonzero o w obj Hlive Hnz). intros [= <-]. simpl.
      repeat split. intros o' Hne. by rewrite lookup_insert_ne.
  - unfold RefTarget_.Release, bind, load_mRefCount. by rewrite Hlive.
Qed.

(** The private [Release()] of a handle holding [q] touches no handle and
    no object other than the one [q] points to. *)
Lemma handle_Release_frame (q : ptr) (w w1 : world) :
  match q with Some o => RefTarget_.Release o | None => ret tt end w = Done tt w1 →
  refs w1 = refs w ∧ crefs w1 = crefs w
  ∧ ∀ o', q ≠ Some o' → heap w1 !! o' = heap w !! o'.
Proof.
  destruct q as [o |].
  - intros H. destruct (Release_frame o w w1 H) as (Hr & Hc & Hh).
    repeat split; try done. intros o' Hne. apply Hh. congruence.
  - intros [= <-]. done.
Qed.

Lemma Ref_Release_unfold (this : hloc) (q : ptr) (w : world) :
  refs w !! this = Some (MkRef q) →
  Ref_.Release this w =
  match q with Some o => RefTarget_.Release o | None => ret tt end w.
Proof. intros H. unfold Ref_.Release, bind, Ref_.load_mPtr. by rewrite H. Qed.

Lemma RefConst_Release_unfold (this : hloc) (q : ptr) (w : world) :
  crefs w !! this = Some (MkRefConst q) →
  RefConst_.Release this w =
  match q with Some o => RefTarget_.Release o | None => ret tt end w.
Proof. intros H. unfold RefConst_.Release, bind, RefConst_.load_mPtr. by rewrite H. Qed.

(** Move construction: the new handle takes the pointer, the source is
    emptied, and nothing else in the state changes. *)
Lemma Ref_move_ctor_spec (this inRHS : hloc) (p : ptr) (w : world) :
  refs w !! inRHS = Some (MkRef p) → this ≠ inRHS →
  Ref_.move_ctor this inRHS w =
    Done tt (set_refs (insert inRHS (MkRef nullptr)) (set_refs (insert this (MkRef p)) w)).
Proof. intros Hrhs Hne. unfold_handle_ops. run_handles. reflexivity. Qed.

Lemma RefConst_move_ctor_spec (this inRHS : hloc) (p : ptr) (w : world) :
  crefs w !! inRHS = Some (MkRefConst p) → this ≠ inRHS →
  RefConst_.move_ctor this inRHS w =
    Done tt (set_crefs (insert inRHS (MkRefConst nullptr))
               (set_crefs (insert this (MkRefConst p)) w)).
Proof. intros Hrhs Hne. unfold_handle_ops. run_handles. reflexivity. Qed.

Lemma RefConst_move_ctor_Ref_spec (this inRHS : hloc) (p : ptr) (w : world) :
  refs w !! inRHS = Some (MkRef p) →
  RefConst_.move_ctor_Ref this inRHS w =
    Done tt (set_refs (insert inRHS (MkRef nullptr))
               (set_crefs (insert this (MkRefConst p)) w)).
Proof. intros Hrhs. unfold_handle_ops. run_handles. reflexivity. Qed.

(** Move assignment between handles holding different pointers: the
    destination releases what it held, takes the pointer, and the source is
    emptied. *)
Lemma Ref_assign_move_spec (this inRHS : hloc) (p q : ptr) (w w1 : world) :
  refs w !! this = Some (MkRef q) → refs w !! inRHS = Some (MkRef p) → q ≠ p →
  Ref_.Release this w = Done tt w1 →
  Ref_.assign_move this inRHS w =
    Done this (set_refs (insert inRHS (MkRef nullptr)) (set_refs (insert this (MkRef p)) w1)).
Proof.
  intros Hthis Hrhs Hne Hrel.
  assert (Hd : this ≠ inRHS) by congruence.
  pose proof Hrel as Hrel'. rewrite (Ref_Release_unfold this q w Hthis) in Hrel'.
  destruct (handle_Release_frame q w w1 Hrel') as (Hr & _ & _).
  unfold Ref_.assign_move, bind, Ref_.load_mPtr, Ref_.store_mPtr, ret.
  rewrite Hthis. simpl. rewrite Hrhs. simpl.
  rewrite bool_decide_eq_true_2 by exact Hne. rewrite Hrel.
  rewrite Hr, Hrhs. simpl. rewrite Hr, Hthis. simpl.
  rewrite lookup_insert_ne by exact Hd. by rewrite Hr, Hrhs.
Qed.

Lemma RefConst_assign_move_spec (this inRHS : hloc) (p q : ptr) (w w1 : world) :
  crefs w !! this = Some (MkRefConst q) → crefs w !! inRHS = Some (MkRefConst p) → q ≠ p →
  RefConst_.Release this w = Done tt w1 →
  RefConst_.assign_move this inRHS w =
    Done this (set_crefs (insert inRHS (MkRefConst nullptr))
                 (set_crefs (insert this (MkRefConst p)) w1)).
Proof.
  intros Hthis Hrhs Hne Hrel.
  assert (Hd : this ≠ inRHS) by congruence.
  pose proof Hrel as Hrel'. rewrite (RefConst_Release_unfold this q w Hthis) in Hrel'.
  destruct (handle_Release_frame q w w1 Hrel') as (_ & Hc & _).
  unfold RefConst_.assign_move, bind, RefConst_.load_mPtr, RefConst_.store_mPtr, ret.
  rewrite Hthis. simpl. rewrite Hrhs. simpl.
  rewrite bool_decide_eq_true_2 by exact Hne. rewrite Hrel.
  rewrite Hc, Hrhs. simpl. rewrite Hc, Hthis. simpl.
  rewrite lookup_insert_ne by exact Hd. by rewrite Hc, Hrhs.
Qed.

Lemma RefConst_assign_move_Ref_spec (this inRHS : hloc) (p q : ptr) (w w1 : world) :
  crefs w !! this = Some (MkRefConst q) → refs w !! inRHS = Some (MkRef p) → q ≠ p →
  RefConst_.Release this w = Done tt w1 →
  RefConst_.assign_move_Ref this inRHS w =
    Done this (set_refs (insert inRHS (MkRef nullptr))
                 (set_crefs (insert this (MkRefConst p)) w1)).
Proof.
  intros Hthis Hrhs Hne Hrel.
  pose proof Hrel as Hrel'. rewrite (RefConst_Release_unfold this q w Hthis) in Hrel'.
  destruct (handle_Release_frame q w w1 Hrel') as (Hr & Hc & _).
  unfold RefConst_.assign_move_Ref, bind, RefConst_.load_mPtr, Ref_.load_mPtr,
    RefConst_.store_mPtr, Ref_.store_mPtr, ret.
  rewrite Hthis. simpl. rewrite Hrhs. simpl.
  rewrite bool_decide_eq_true_2 by exact Hne. rewrite Hrel.
  rewrite Hr, Hrhs. simpl. rewrite Hc, Hthis. simpl. by rewrite Hr, Hrhs.
Qed.

(** Releasing a valid pointer returns. *)
Lemma handle_Release_total (q : ptr) (w : world) :
  valid_ptr w q →
  ∃ w1, match q with Some o => RefTarget_.Release o | None => ret tt end w = Done tt w1.
Proof.
  destruct q as [o |]; simpl.
  - intros [obj Hlive].
    destruct (Z.eq_dec (wrap32 (mRefCount obj - 1)) 0) as [Hz | Hnz].
    + eexists. by apply (Release_live_zero o w obj).
    + eexists. by apply (Release_live_nonzero o w obj).
  - intros _. by eexists.
Qed.

(** The claim C2 as stated fails for move assignment.  With [a] holding
    object 1 (counter 2) and [b] holding object 2, [a = std::move(b)]
    decrements the counter of object 1.  With [a] and [b] both holding
    object 1, [a = std::move(b)] leaves [b] holding object 1. *)
Lemma move_assign_not_counter_free :
  (let w := world_of [(1%positive, 2); (2%positive, 1)]
              [(10%positive, Some 1%positive); (11%positive, Some 2%positive)] [] in
   ∃ w', Ref_.assign_move 10%positive 11%positive w = Done 10%positive w'
     ∧ heap w !! 1%positive = Some (MkRefTarget 2)
     ∧ heap w' !! 1%positive = Some (MkRefTarget 1)
     ∧ heap w' ≠ heap w)
  ∧ (let w := world_of [(1%positive, 2)]
              [(10%positive, Some 1%positive); (11%positive, Some 1%positive)] [] in
     ∃ w', Ref_.assign_move 10%positive 11%positive w = Done 10%positive w'
       ∧ refs w' !! 11%positive = Some (MkRef (Some 1%positive))
       ∧ refs w' !! 11%positive ≠ Some (MkRef nullptr)).
Proof.
  split; intros w.
  - exists (MkWorld (list_to_map [(1%positive, MkRefTarget 1); (2%positive, MkRefTarget 1)])
              (list_to_map [(10%positive, MkRef (Some 2%positive));
                            (11%positive, MkRef nullptr)]) ∅ []).
    split; [vm_compute; reflexivity |]. split; [reflexivity |]. split; [reflexivity |].
    intros Heq. apply (f_equal (λ h : gmap loc RefTarget, h !! 1%positive)) in Heq.
    vm_compute in Heq. discriminate.
  - exists w. split; [vm_compute; reflexivity |]. split; [reflexivity |].
    vm_compute. discriminate.
Qed.

(** * Further properties *)

(** ** Counting handles *)

Section CountPtr.

Context {A : Type} (f : A → ptr).

Lemma filter_lookup_ind (o : loc) (h : hloc) (m : gmap hloc A) :
  match filter (λ kv : hloc * A, f kv.2 = Some o) m !! h with
  | Some _ => 1 | None => 0
  end = match m !! h with Some b => ind (f b) o | None => 0 end.
Proof.
  rewrite map_lookup_filter. destruct (m !! h) as [b |]; simpl; [| done].
  unfold ind. case_decide.
  - by rewrite option_guard_True.
  - by rewrite option_guard_False.
Qed.

Lemma count_ptr_delete (o : loc) (h : hloc) (m : gmap hloc A) :
  Z.of_nat (count_ptr f o (delete h m))
  = Z.of_nat (count_ptr f o m)
    - match m !! h with Some b => ind (f b) o | None => 0 end.
Proof.
  rewrite <- filter_lookup_ind. unfold count_ptr.
  rewrite map_filter_delete, map_size_delete.
  destruct (filter _ m !! h) as [x |] eqn:Hx; simpl; [| lia].
  assert (size (filter (λ kv : hloc * A, f kv.2 = Some o) m) ≠ 0%nat)
    by (apply (map_size_ne_0_lookup_2 _ h); eauto).
  lia.
Qed.

Lemma count_ptr_insert (o : loc) (h : hloc) (a : A) (m : gmap hloc A) :
  Z.of_nat (count_ptr f o (<[h:=a]> m))
  = Z.of_nat (count_ptr f o m)
    - match m !! h with Some b => ind (f b) o | None => 0 end
    + ind (f a) o.
Proof.
  unfold ind at 2. destruct (decide (f a = Some o)) as [Ha | Ha].
  - rewrite <- filter_lookup_ind. unfold count_ptr.
    rewrite map_filter_insert_True by done. rewrite map_size_insert.
    destruct (filter _ m !! h) as [x |] eqn:Hx; simpl; lia.
  - unfold count_ptr at 1. rewrite map_filter_insert_False by done.
    fold (count_ptr f o (delete h m)). rewrite count_ptr_delete. lia.
Qed.

Lemma count_ptr_pos (o : loc) (h : hloc) (b : A) (m : gmap hloc A) :
  m !! h = Some b → f b = Some o → 1 <= Z.of_nat (count_ptr f o m).
Proof.
  intros Hb Hf. unfold count_ptr.
  assert (size (filter (λ kv : hloc * A, f kv.2 = Some o) m) ≠ 0%nat).
  { apply (map_size_ne_0_lookup_2 _ h). exists b. by apply map_lookup_filter_Some. }
  lia.
Qed.

End CountPtr.

(** ** Counters against handles, step by step *)

Lemma counted_upto_ext (d d' : loc → Z) (w : world) :
  (∀ o, d o = d' o) → counted_upto d w → counted_upto d' w.
Proof. intros Hd H o. specialize (H o). by rewrite <- (Hd o). Qed.

Lemma handle_count_insert_Ref (w : world) (h : hloc) (p : ptr) (o : loc) :
  handle_count (set_refs (insert h (MkRef p)) w) o
  = handle_count w o
    - match refs w !! h with Some b => ind (Ref_mPtr b) o | None => 0 end
    + ind p o.
Proof.
  unfold handle_count. simpl. rewrite !Nat2Z.inj_add.
  rewrite (count_ptr_insert Ref_mPtr). simpl. lia.
Qed.

Lemma handle_count_delete_Ref (w : world) (h : hloc) (o : loc) :
  handle_count (set_refs (delete h) w) o
  = handle_count w o
    - match refs w !! h with Some b => ind (Ref_mPtr b) o | None => 0 end.
Proof.
  unfold handle_count. simpl. rewrite !Nat2Z.inj_add.
  rewrite (count_ptr_delete Ref_mPtr). lia.
Qed.

Lemma handle_count_insert_RefConst (w : world) (h : hloc) (p : ptr) (o : loc) :
  handle_count (set_crefs (insert h (MkRefConst p)) w) o
  = handle_count w o
    - match crefs w !! h with Some b => ind (RefConst_mPtr b) o | None => 0 end
    + ind p o.
Proof.
  unfold handle_count. simpl. rewrite !Nat2Z.inj_add.
  rewrite (count_ptr_insert RefConst_mPtr). simpl. lia.
Qed.

Lemma handle_count_delete_RefConst (w : world) (h : hloc) (o : loc) :
  handle_count (set_crefs (delete h) w) o
  = handle_count w o
    - match crefs w !! h with Some b => ind (RefConst_mPtr b) o | None => 0 end.
Proof.
  unfold handle_count. simpl. rewrite !Nat2Z.inj_add.
  rewrite (count_ptr_delete RefConst_mPtr). lia.
Qed.

Lemma handle_count_pos_Ref (w : world) (h : hloc) (o : loc) :
  refs w !! h = Some (MkRef (Some o)) → 1 <= handle_count w o.
Proof.
  intros H. unfold handle_count. rewrite Nat2Z.inj_add.
  pose proof (count_ptr_pos Ref_mPtr o h _ (refs w) H eq_refl). lia.
Qed.

Lemma handle_count_pos_RefConst (w : world) (h : hloc) (o : loc) :
  crefs w !! h = Some (MkRefConst (Some o)) → 1 <= handle_count w o.
Proof.
  intros H. unfold handle_count. rewrite Nat2Z.inj_add.
  pose proof (count_ptr_pos RefConst_mPtr o h _ (crefs w) H eq_refl). lia.
Qed.

Lemma handle_count_nonneg (w : world) (o : loc) : 0 <= handle_count w o.
Proof. unfold handle_count. lia. Qed.

(** Writing the pointer of a handle moves one unit of the account from the
    old target to the new one. *)
Lemma counted_store_Ref (d : loc → Z) (w : world) (h : hloc) (q p : ptr) :
  refs w !! h = Some (MkRef q) →
  counted_upto d w →
  counted_upto (λ o, d o + ind q o - ind p o) (set_refs (insert h (MkRef p)) w).
Proof.
  intros Hh H o. specialize (H o). rewrite handle_count_insert_Ref, Hh. simpl.
  destruct (heap w !! o) as [obj |]; [| lia].
  destruct H as [Hu [H | H]]; (split; [exact Hu |]); [left | right]; lia.
Qed.

Lemma counted_init_Ref (d : loc → Z) (w : world) (h : hloc) (p : ptr) :
  refs w !! h = None →
  counted_upto d w →
  counted_upto (λ o, d o - ind p o) (set_refs (insert h (MkRef p)) w).
Proof.
  intros Hh H o. specialize (H o). rewrite handle_count_insert_Ref, Hh. simpl.
  destruct (heap w !! o) as [obj |]; [| lia].
  destruct H as [Hu [H | H]]; (split; [exact Hu |]); [left | right]; lia.
Qed.

Lemma counted_delete_Ref (d : loc → Z) (w : world) (h : hloc) (q : ptr) :
  refs w !! h = Some (MkRef q) →
  counted_upto d w →
  counted_upto (λ o, d o + ind q o) (set_refs (delete h) w).
Proof.
  intros Hh H o. specialize (H o). rewrite handle_count_delete_Ref, Hh. simpl.
  destruct (heap w !! o) as [obj |]; [| lia].
  destruct H as [Hu [H | H]]; (split; [exact Hu |]); [left | right]; lia.
Qed.

Lemma counted_store_RefConst (d : loc → Z) (w : world) (h : hloc) (q p : ptr) :
  crefs w !! h = Some (MkRefConst q) →
  counted_upto d w →
  counted_upto (λ o, d o + ind q o - ind p o) (set_crefs (insert h (MkRefConst p)) w).
Proof.
  intros Hh H o. specialize (H o). rewrite handle_count_insert_RefConst, Hh. simpl.
  destruct (heap w !! o) as [obj |]; [| lia].
  destruct H as [Hu [H | H]]; (split; [exact Hu |]); [left | right]; lia.
Qed.

Lemma counted_init_RefConst (d : loc → Z) (w : world) (h : hloc) (p : ptr) :
  crefs w !! h = None →
  counted_upto d w →
  counted_upto (λ o, d o - ind p o) (set_crefs (insert h (MkRefConst p)) w).
Proof.
  intros Hh H o. specialize (H o). rewrite handle_count_insert_RefConst, Hh. simpl.
  destruct (heap w !! o) as [obj |]; [| lia].
  destruct H as [Hu [H | H]]; (split; [exact Hu |]); [left | right]; lia.
Qed.

Lemma counted_delete_RefConst (d : loc → Z) (w : world) (h : hloc) (q : ptr) :
  crefs w !! h = Some (MkRefConst q) →
  counted_upto d w →
  counted_upto (λ o, d o + ind q o) (set_crefs (delete h) w).
Proof.
  intros Hh H o. specialize (H o). rewrite handle_count_delete_RefConst, Hh. simpl.
  destruct (heap w !! o) as [obj |]; [| lia].
  destruct H as [Hu [H | H]]; (split; [exact Hu |]); [left | right]; lia.
Qed.

Lemma ind_same (o : loc) : ind (Some o) o = 1.
Proof. unfold ind. by rewrite decide_True. Qed.

Lemma ind_other (o x : loc) : x ≠ o → ind (Some o) x = 0.
Proof. intros H. unfold ind. rewrite decide_False; [done | congruence]. Qed.

Lemma ind_null (x : loc) : ind nullptr x = 0.
Proof. reflexivity. Qed.

Lemma ind_range (p : ptr) (x : loc) : 0 <= ind p x <= 1.
Proof. unfold ind. case_decide; lia. Qed.

(** [RefTarget::AddRef] adds one to the account of its object. *)
Lemma counted_AddRef (d : loc → Z) (w : world) (o : loc) (obj : RefTarget) :
  counted_upto d w → heap w !! o = Some obj → mRefCount obj + 1 < 2 ^ 32 →
  let w' := set_heap (insert o (MkRefTarget (mRefCount obj + 1))) w in
  RefTarget_.AddRef o w = Done tt w'
  ∧ counted_upto (λ x, d x + ind (Some o) x) w'.
Proof.
  intros H Hlive Hov w'. pose proof (H o) as Ho. rewrite Hlive in Ho.
  destruct Ho as [Hu Ho]. unfold is_uint32 in Hu. split.
  - rewrite (AddRef_live o w obj Hlive).
    by rewrite wrap32_small by (unfold is_uint32; lia).
  - intros x. unfold w'. simpl heap.
    change (handle_count (set_heap _ w) x) with (handle_count w x).
    destruct (decide (x = o)) as [-> | Hne].
    + rewrite lookup_insert_eq, ind_same. simpl.
      split; [unfold is_uint32; lia |]. destruct Ho; [left | right]; lia.
    + rewrite lookup_insert_ne by done. rewrite ind_other by done.
      specialize (H x). destruct (heap w !! x) as [objx |]; [| lia].
      destruct H as [Hux [H | H]]; (split; [exact Hux |]); [left | right]; lia.
Qed.

(** [RefTarget::Release] of a reference that is accounted for takes one from
    the account of its object, and deletes the object exactly when that
    leaves a counter of 0. *)
Lemma counted_Release (d : loc → Z) (w : world) (o : loc) :
  counted_upto d w → 1 <= handle_count w o + d o →
  ∃ w', RefTarget_.Release o w = Done tt w'
    ∧ counted_upto (λ x, d x - ind (Some o) x) w'
    ∧ refs w' = refs w ∧ crefs w' = crefs w
    ∧ (∀ x, x ≠ o → heap w' !! x = heap w !! x).
Proof.
  intros H Hpos. pose proof (H o) as Ho.
  destruct (heap w !! o) as [obj |] eqn:Hlive; [| lia].
  destruct Ho as [Hu Ho]. unfold is_uint32 in Hu.
  assert (HcE : 0 < RefTarget_.cEmbedded) by reflexivity.
  assert (Hw : wrap32 (mRefCount obj - 1) = mRefCount obj - 1)
    by (apply wrap32_small; unfold is_uint32; lia).
  destruct (Z.eq_dec (mRefCount obj) 1) as [H1 | H1].
  - exists (log_delete o (set_heap (delete o) w)).
    split; [apply (Release_live_zero o w obj Hlive); rewrite Hw; lia |].
    split; [| simpl; repeat split; intros x Hx; by rewrite lookup_delete_ne].
    intros x. simpl heap.
    change (handle_count (log_delete _ _) x) with (handle_count w x).
    destruct (decide (x = o)) as [-> | Hne].
    + rewrite lookup_delete_eq, ind_same. lia.
    + rewrite lookup_delete_ne by done. rewrite ind_other by done.
      specialize (H x). destruct (heap w !! x) as [objx |]; [| lia].
      destruct H as [Hux [H | H]]; (split; [exact Hux |]); [left | right]; lia.
  - exists (set_heap (insert o (MkRefTarget (mRefCount obj - 1))) w).
    split; [rewrite (Release_live_nonzero o w obj Hlive); rewrite Hw; [done | lia] |].
    split; [| simpl; repeat split; intros x Hx; by rewrite lookup_insert_ne].
    intros x. simpl heap.
    change (handle_count (set_heap _ w) x) with (handle_count w x).
    destruct (decide (x = o)) as [-> | Hne].
    + rewrite lookup_insert_eq, ind_same. simpl.
      split; [unfold is_uint32; lia |]. destruct Ho; [left | right]; lia.
    + rewrite lookup_insert_ne by done. rewrite ind_other by done.
      specialize (H x). destruct (heap w !! x) as [objx |]; [| lia].
      destruct H as [Hux [H | H]]; (split; [exact Hux |]); [left | right]; lia.
Qed.

(** The private [AddRef()] and [Release()] of a handle, for the pointer
    [p] it holds. *)
Lemma counted_handle_AddRef (d : loc → Z) (w : world) (p : ptr) :
  counted_upto d w → valid_ptr w p → no_overflow w p →
  ∃ w', match p with Some o => RefTarget_.AddRef o | None => ret tt end w = Done tt w'
    ∧ counted_upto (λ x, d x + ind p x) w'
    ∧ refs w' = refs w ∧ crefs w' = crefs w.
Proof.
  intros H Hv Hov. destruct p as [o |]; simpl in *.
  - destruct Hv as [obj Hlive].
    destruct (counted_AddRef d w o obj H Hlive (Hov obj Hlive)) as [HA HC].
    eexists. split; [exact HA |]. split; [exact HC | done].
  - exists w. split; [done |]. split; [| done].
    apply (counted_upto_ext d); [| done]. intros x. rewrite ind_null. lia.
Qed.

Lemma counted_handle_Release (d : loc → Z) (w : world) (q : ptr) :
  counted_upto d w →
  (∀ o, q = Some o → 1 <= handle_count w o + d o) →
  ∃ w', match q with Some o => RefTarget_.Release o | None => ret tt end w = Done tt w'
    ∧ counted_upto (λ x, d x - ind q x) w'
    ∧ refs w' = refs w ∧ crefs w' = crefs w
    ∧ (∀ x, q ≠ Some x → heap w' !! x = heap w !! x).
Proof.
  intros H Hpos. destruct q as [o |]; simpl.
  - destruct (counted_Release d w o H (Hpos o eq_refl)) as (w' & HR & HC & Hr & Hc & Hh).
    exists w'. repeat split; try done. intros x Hx. apply Hh. congruence.
  - exists w. split; [done |]. split; [| done].
    apply (counted_upto_ext d); [| done]. intros x. rewrite ind_null. lia.
Qed.

(** In a state where counters and handles agree no handle dangles. *)
Lemma counted_valid_Ref (w : world) (h : hloc) (p : ptr) :
  counted w → refs w !! h = Some (MkRef p) → valid_ptr w p.
Proof.
  intros H Hh. destruct p as [o |]; [| done]. simpl.
  specialize (H o). pose proof (handle_count_pos_Ref w h o Hh).
  destruct (heap w !! o); [by eexists | lia].
Qed.

Lemma counted_valid_RefConst (w : world) (h : hloc) (p : ptr) :
  counted w → crefs w !! h = Some (MkRefConst p) → valid_ptr w p.
Proof.
  intros H Hh. destruct p as [o |]; [| done]. simpl.
  specialize (H o). pose proof (handle_count_pos_RefConst w h o Hh).
  destruct (heap w !! o); [by eexists | lia].
Qed.

(** ** Every member function of Ref keeps counters and handles in agreement *)

Lemma Ref_AddRef_unfold (this : hloc) (p : ptr) (w : world) :
  refs w !! this = Some (MkRef p) →
  Ref_.AddRef this w =
  match p with Some o => RefTarget_.AddRef o | None => ret tt end w.
Proof. intros H. unfold Ref_.AddRef, bind, Ref_.load_mPtr. by rewrite H. Qed.

Ltac close_account H :=
  eapply counted_upto_ext; [| exact H]; intros ?; simpl; lia.

Lemma counted_Ref_ctor (this : hloc) (w : world) :
  counted w → refs w !! this = None →
  ∃ w', Ref_.ctor this w = Done tt w' ∧ counted w'.
Proof.
  intros H Hf. eexists. split; [reflexivity |].
  pose proof (counted_init_Ref _ w this nullptr Hf H) as H1.
  eapply counted_upto_ext; [| exact H1]. intros x. simpl. rewrite ind_null. lia.
Qed.

Lemma counted_Ref_ctor_ptr (this : hloc) (p : ptr) (w : world) :
  counted w → refs w !! this = None → valid_ptr w p → no_overflow w p →
  ∃ w', Ref_.ctor_ptr this p w = Done tt w' ∧ counted w'.
Proof.
  intros H Hf Hv Hov.
  pose proof (counted_init_Ref _ w this p Hf H) as H1.
  destruct (counted_handle_AddRef _ _ p H1 Hv Hov) as (w2 & HA & H2 & _).
  exists w2. split; [| close_account H2].
  unfold Ref_.ctor_ptr, bind, Ref_.init_mPtr.
  rewrite (Ref_AddRef_unfold this p); [exact HA | apply lookup_insert_eq].
Qed.

Lemma counted_Ref_copy_ctor (this inRHS : hloc) (p : ptr) (w : world) :
  counted w → refs w !! this = None → refs w !! inRHS = Some (MkRef p) →
  no_overflow w p →
  ∃ w', Ref_.copy_ctor this inRHS w = Done tt w' ∧ counted w'.
Proof.
  intros H Hf Hrhs Hov.
  pose proof (counted_valid_Ref w inRHS p H Hrhs) as Hv.
  pose proof (counted_init_Ref _ w this p Hf H) as H1.
  destruct (counted_handle_AddRef _ _ p H1 Hv Hov) as (w2 & HA & H2 & _).
  exists w2. split; [| close_account H2].
  unfold Ref_.copy_ctor, bind, Ref_.init_mPtr, Ref_.load_mPtr. rewrite Hrhs. simpl.
  rewrite (Ref_AddRef_unfold this p); [exact HA | apply lookup_insert_eq].
Qed.

Lemma counted_Ref_move_ctor (this inRHS : hloc) (p : ptr) (w : world) :
  counted w → refs w !! this = None → refs w !! inRHS = Some (MkRef p) →
  ∃ w', Ref_.move_ctor this inRHS w = Done tt w' ∧ counted w'.
Proof.
  intros H Hf Hrhs.
  assert (Hd : this ≠ inRHS) by congruence.
  pose proof (counted_init_Ref _ w this p Hf H) as H1.
  assert (Hrhs1 : refs (set_refs (insert this (MkRef p)) w) !! inRHS = Some (MkRef p))
    by (simpl; by rewrite lookup_insert_ne).
  pose proof (counted_store_Ref _ _ inRHS p nullptr Hrhs1 H1) as H2.
  eexists. split; [by apply Ref_move_ctor_spec |].
  eapply counted_upto_ext; [| exact H2]. intros x. simpl. rewrite ind_null. lia.
Qed.

Lemma counted_Ref_dtor (this : hloc) (q : ptr) (w : world) :
  counted w → refs w !! this = Some (MkRef q) →
  ∃ w', Ref_.dtor this w = Done tt w' ∧ counted w'.
Proof.
  intros H Hthis.
  destruct (counted_handle_Release _ w q H) as (w1 & HR & H1 & Hr & _).
  { intros o ->. pose proof (handle_count_pos_Ref w this o Hthis). lia. }
  rewrite <- (Ref_Release_unfold this q w Hthis) in HR.
  assert (Hthis1 : refs w1 !! this = Some (MkRef q)) by (by rewrite Hr).
  pose proof (counted_delete_Ref _ w1 this q Hthis1 H1) as H2.
  eexists. split; [unfold Ref_.dtor, bind; by rewrite HR | close_account H2].
Qed.

Lemma counted_Ref_assign_ptr (this : hloc) (q p : ptr) (w : world) :
  counted w → refs w !! this = Some (MkRef q) → valid_ptr w p → no_overflow w p →
  ∃ w', Ref_.assign_ptr this p w = Done this w' ∧ counted w'.
Proof.
  intros H Hthis Hv Hov.
  destruct (decide (q = p)) as [-> | Hne].
  { exists w. split; [| done]. unfold_handle_ops. run_handles. reflexivity. }
  destruct (counted_handle_Release _ w q H) as (w1 & HR & H1 & Hr & _ & Hh).
  { intros o ->. pose proof (handle_count_pos_Ref w this o Hthis). lia. }
  rewrite <- (Ref_Release_unfold this q w Hthis) in HR.
  assert (Hthis1 : refs w1 !! this = Some (MkRef q)) by (by rewrite Hr).
  pose proof (counted_store_Ref _ w1 this q p Hthis1 H1) as H2.
  destruct (counted_handle_AddRef _ _ p H2) as (w3 & HA & H3 & _).
  { destruct p as [o |]; [| done]. simpl in *. rewrite Hh by congruence. exact Hv. }
  { destruct p as [o |]; [| done]. simpl in *. rewrite Hh by congruence. exact Hov. }
  exists w3. split; [| close_account H3].
  unfold Ref_.assign_ptr, bind, Ref_.load_mPtr, Ref_.store_mPtr, ret.
  rewrite Hthis. simpl. rewrite bool_decide_eq_true_2 by exact Hne.
  rewrite HR, Hthis1.
  rewrite (Ref_AddRef_unfold this p); [by rewrite HA | apply lookup_insert_eq].
Qed.

Lemma counted_Ref_assign_copy (this inRHS : hloc) (q p : ptr) (w : world) :
  counted w → refs w !! this = Some (MkRef q) → refs w !! inRHS = Some (MkRef p) →
  no_overflow w p →
  ∃ w', Ref_.assign_copy this inRHS w = Done this w' ∧ counted w'.
Proof.
  intros H Hthis Hrhs Hov.
  pose proof (counted_valid_Ref w inRHS p H Hrhs) as Hv.
  destruct (decide (q = p)) as [-> | Hne].
  { exists w. split; [| done]. unfold_handle_ops. run_handles. reflexivity. }
  destruct (counted_handle_Release _ w q H) as (w1 & HR & H1 & Hr & _ & Hh).
  { intros o ->. pose proof (handle_count_pos_Ref w this o Hthis). lia. }
  rewrite <- (Ref_Release_unfold this q w Hthis) in HR.
  assert (Hthis1 : refs w1 !! this = Some (MkRef q)) by (by rewrite Hr).
  assert (Hrhs1 : refs w1 !! inRHS = Some (MkRef p)) by (by rewrite Hr).
  pose proof (counted_store_Ref _ w1 this q p Hthis1 H1) as H2.
  destruct (counted_handle_AddRef _ _ p H2) as (w3 & HA & H3 & _).
  { destruct p as [o |]; [| done]. simpl in *. rewrite Hh by congruence. exact Hv. }
  { destruct p as [o |]; [| done]. simpl in *. rewrite Hh by congruence. exact Hov. }
  exists w3. split; [| close_account H3].
  unfold Ref_.assign_copy, bind, Ref_.load_mPtr, Ref_.store_mPtr, ret.
  rewrite Hthis. simpl. rewrite Hrhs. simpl.
  rewrite bool_decide_eq_true_2 by exact Hne.
  rewrite HR, Hrhs1. simpl. rewrite Hthis1.
  rewrite (Ref_AddRef_unfold this p); [by rewrite HA | apply lookup_insert_eq].
Qed.

Lemma counted_Ref_assign_move (this inRHS : hloc) (q p : ptr) (w : world) :
  counted w → refs w !! this = Some (MkRef q) → refs w !! inRHS = Some (MkRef p) →
  ∃ w', Ref_.assign_move this inRHS w = Done this w' ∧ counted w'.
Proof.
  intros H Hthis Hrhs.
  destruct (decide (q = p)) as [-> | Hne].
  { exists w. split; [| done]. unfold_handle_ops. run_handles. reflexivity. }
  assert (Hd : this ≠ inRHS) by congruence.
  destruct (counted_handle_Release _ w q H) as (w1 & HR & H1 & Hr & _ & Hh).
  { intros o ->. pose proof (handle_count_pos_Ref w this o Hthis). lia. }
  rewrite <- (Ref_Release_unfold this q w Hthis) in HR.
  assert (Hthis1 : refs w1 !! this = Some (MkRef q)) by (by rewrite Hr).
  pose proof (counted_store_Ref _ w1 this q p Hthis1 H1) as H2.
  assert (Hrhs2 : refs (set_refs (insert this (MkRef p)) w1) !! inRHS = Some (MkRef p))
    by (simpl; by rewrite lookup_insert_ne, Hr).
  pose proof (counted_store_Ref _ _ inRHS p nullptr Hrhs2 H2) as H3.
  eexists. split; [by apply (Ref_assign_move_spec this inRHS p q w w1) |].
  eapply counted_upto_ext; [| exact H3]. intros x. simpl. rewrite ind_null. lia.
Qed.

(** ** ... and so does every member function of RefConst *)

Lemma RefConst_AddRef_unfold (this : hloc) (p : ptr) (w : world) :
  crefs w !! this = Some (MkRefConst p) →
  RefConst_.AddRef this w =
  match p with Some o => RefTarget_.AddRef o | None => ret tt end w.
Proof. intros H. unfold RefConst_.AddRef, bind, RefConst_.load_mPtr. by rewrite H. Qed.

Lemma counted_RefConst_ctor (this : hloc) (w : world) :
  counted w → crefs w !! this = None →
  ∃ w', RefConst_.ctor this w = Done tt w' ∧ counted w'.
Proof.
  intros H Hf. eexists. split; [reflexivity |].
  pose proof (counted_init_RefConst _ w this nullptr Hf H) as H1.
  eapply counted_upto_ext; [| exact H1]. intros x. simpl. rewrite ind_null. lia.
Qed.

Lemma counted_RefConst_ctor_ptr (this : hloc) (p : ptr) (w : world) :
  counted w → crefs w !! this = None → valid_ptr w p → no_overflow w p →
  ∃ w', RefConst_.ctor_ptr this p w = Done tt w' ∧ counted w'.
Proof.
  intros H Hf Hv Hov.
  pose proof (counted_init_RefConst _ w this p Hf H) as H1.
  destruct (counted_handle_AddRef _ _ p H1 Hv Hov) as (w2 & HA & H2 & _).
  exists w2. split; [| close_account H2].
  unfold RefConst_.ctor_ptr, bind, RefConst_.init_mPtr.
  rewrite (RefConst_AddRef_unfold this p); [exact HA | apply lookup_insert_eq].
Qed.

Lemma counted_RefConst_copy_ctor (this inRHS : hloc) (p : ptr) (w : world) :
  counted w → crefs w !! this = None → crefs w !! inRHS = Some (MkRefConst p) →
  no_overflow w p →
  ∃ w', RefConst_.copy_ctor this inRHS w = Done tt w' ∧ counted w'.
Proof.
  intros H Hf Hrhs Hov.
  pose proof (counted_valid_RefConst w inRHS p H Hrhs) as Hv.
  pose proof (counted_init_RefConst _ w this p Hf H) as H1.
  destruct (counted_handle_AddRef _ _ p H1 Hv Hov) as (w2 & HA & H2 & _).
  exists w2. split; [| close_account H2].
  unfold RefConst_.copy_ctor, bind, RefConst_.init_mPtr, RefConst_.load_mPtr. rewrite Hrhs. simpl.
  rewrite (RefConst_AddRef_unfold this p); [exact HA | apply lookup_insert_eq].
Qed.

Lemma counted_RefConst_move_ctor (this inRHS : hloc) (p : ptr) (w : world) :
  counted w → crefs w !! this = None → crefs w !! inRHS = Some (MkRefConst p) →
  ∃ w', RefConst_.move_ctor this inRHS w = Done tt w' ∧ counted w'.
Proof.
  intros H Hf Hrhs.
  assert (Hd : this ≠ inRHS) by congruence.
  pose proof (counted_init_RefConst _ w this p Hf H) as H1.
  assert (Hrhs1 : crefs (set_crefs (insert this (MkRefConst p)) w) !! inRHS = Some (MkRefConst p))
    by (simpl; by rewrite lookup_insert_ne).
  pose proof (counted_store_RefConst _ _ inRHS p nullptr Hrhs1 H1) as H2.
  eexists. split; [by apply RefConst_move_ctor_spec |].
  eapply counted_upto_ext; [| exact H2]. intros x. simpl. rewrite ind_null. lia.
Qed.

Lemma counted_RefConst_dtor (this : hloc) (q : ptr) (w : world) :
  counted w → crefs w !! this = Some (MkRefConst q) →
  ∃ w', RefConst_.dtor this w = Done tt w' ∧ counted w'.
Proof.
  intros H Hthis.
  destruct (counted_handle_Release _ w q H) as (w1 & HR & H1 & _ & Hr & _).
  { intros o ->. pose proof (handle_count_pos_RefConst w this o Hthis). lia. }
  rewrite <- (RefConst_Release_unfold this q w Hthis) in HR.
  assert (Hthis1 : crefs w1 !! this = Some (MkRefConst q)) by (by rewrite Hr).
  pose proof (counted_delete_RefConst _ w1 this q Hthis1 H1) as H2.
  eexists. split; [unfold RefConst_.dtor, bind; by rewrite HR | close_account H2].
Qed.

Lemma counted_RefConst_assign_ptr (this : hloc) (q p : ptr) (w : world) :
  counted w → crefs w !! this = Some (MkRefConst q) → valid_ptr w p → no_overflow w p →
  ∃ w', RefConst_.assign_ptr this p w = Done this w' ∧ counted w'.
Proof.
  intros H Hthis Hv Hov.
  destruct (decide (q = p)) as [-> | Hne].
  { exists w. split; [| done]. unfold_handle_ops. run_handles. reflexivity. }
  destruct (counted_handle_Release _ w q H) as (w1 & HR & H1 & _ & Hr & Hh).
  { intros o ->. pose proof (handle_count_pos_RefConst w this o Hthis). lia. }
  rewrite <- (RefConst_Release_unfold this q w Hthis) in HR.
  assert (Hthis1 : crefs w1 !! this = Some (MkRefConst q)) by (by rewrite Hr).
  pose proof (counted_store_RefConst _ w1 this q p Hthis1 H1) as H2.
  destruct (counted_handle_AddRef _ _ p H2) as (w3 & HA & H3 & _).
  { destruct p as [o |]; [| done]. simpl in *. rewrite Hh by congruence. exact Hv. }
  { destruct p as [o |]; [| done]. simpl in *. rewrite Hh by congruence. exact Hov. }
  exists w3. split; [| close_account H3].
  unfold RefConst_.assign_ptr, bind, RefConst_.load_mPtr, RefConst_.store_mPtr, ret.
  rewrite Hthis. simpl. rewrite bool_decide_eq_true_2 by exact Hne.
  rewrite HR, Hthis1.
  rewrite (RefConst_AddRef_unfold this p); [by rewrite HA | apply lookup_insert_eq].
Qed.

Lemma counted_RefConst_assign_copy (this inRHS : hloc) (q p : ptr) (w : world) :
  counted w → crefs w !! this = Some (MkRefConst q) → crefs w !! inRHS = Some (MkRefConst p) →
  no_overflow w p →
  ∃ w', RefConst_.assign_copy this inRHS w = Done this w' ∧ counted w'.
Proof.
  intros H Hthis Hrhs Hov.
  pose proof (counted_valid_RefConst w inRHS p H Hrhs) as Hv.
  destruct (decide (q = p)) as [-> | Hne].
  { exists w. split; [| done]. unfold_handle_ops. run_handles. reflexivity. }
  destruct (counted_handle_Release _ w q H) as (w1 & HR & H1 & _ & Hr & Hh).
  { intros o ->. pose proof (handle_count_pos_RefConst w this o Hthis). lia. }
  rewrite <- (RefConst_Release_unfold this q w Hthis) in HR.
  assert (Hthis1 : crefs w1 !! this = Some (MkRefConst q)) by (by rewrite Hr).
  assert (Hrhs1 : crefs w1 !! inRHS = Some (MkRefConst p)) by (by rewrite Hr).
  pose proof (counted_store_RefConst _ w1 this q p Hthis1 H1) as H2.
  destruct (counted_handle_AddRef _ _ p H2) as (w3 & HA & H3 & _).
  { destruct p as [o |]; [| done]. simpl in *. rewrite Hh by congruence. exact Hv. }
  { destruct p as [o |]; [| done]. simpl in *. rewrite Hh by congruence. exact Hov. }
  exists w3. split; [| close_account H3].
  unfold RefConst_.assign_copy, bind, RefConst_.load_mPtr, RefConst_.store_mPtr, ret.
  rewrite Hthis. simpl. rewrite Hrhs. simpl.
  rewrite bool_decide_eq_true_2 by exact Hne.
  rewrite HR, Hrhs1. simpl. rewrite Hthis1.
  rewrite (RefConst_AddRef_unfold this p); [by rewrite HA | apply lookup_insert_eq].
Qed.

Lemma counted_RefConst_assign_move (this inRHS : hloc) (q p : ptr) (w : world) :
  counted w → crefs w !! this = Some (MkRefConst q) → crefs w !! inRHS = Some (MkRefConst p) →
  ∃ w', RefConst_.assign_move this inRHS w = Done this w' ∧ counted w'.
Proof.
  intros H Hthis Hrhs.
  destruct (decide (q = p)) as [-> | Hne].
  { exists w. split; [| done]. unfold_handle_ops. run_handles. reflexivity. }
  assert (Hd : this ≠ inRHS) by congruence.
  destruct (counted_handle_Release _ w q H) as (w1 & HR & H1 & _ & Hr & Hh).
  { intros o ->. pose proof (handle_count_pos_RefConst w this o Hthis). lia. }
  rewrite <- (RefConst_Release_unfold this q w Hthis) in HR.
  assert (Hthis1 : crefs w1 !! this = Some (MkRefConst q)) by (by rewrite Hr).
  pose proof (counted_store_RefConst _ w1 this q p Hthis1 H1) as H2.
  assert (Hrhs2 : crefs (set_crefs (insert this (MkRefConst p)) w1) !! inRHS = Some (MkRefConst p))
    by (simpl; by rewrite lookup_insert_ne, Hr).
  pose proof (counted_store_RefConst _ _ inRHS p nullptr Hrhs2 H2) as H3.
  eexists. split; [by apply (RefConst_assign_move_spec this inRHS p q w w1) |].
  eapply counted_upto_ext; [| exact H3]. intros x. simpl. rewrite ind_null. lia.
Qed.

Lemma counted_RefConst_copy_ctor_Ref (this inRHS : hloc) (p : ptr) (w : world) :
  counted w → crefs w !! this = None → refs w !! inRHS = Some (MkRef p) →
  no_overflow w p →
  ∃ w', RefConst_.copy_ctor_Ref this inRHS w = Done tt w' ∧ counted w'.
Proof.
  intros H Hf Hrhs Hov.
  pose proof (counted_valid_Ref w inRHS p H Hrhs) as Hv.
  pose proof (counted_init_RefConst _ w this p Hf H) as H1.
  destruct (counted_handle_AddRef _ _ p H1 Hv Hov) as (w2 & HA & H2 & _).
  exists w2. split; [| close_account H2].
  unfold RefConst_.copy_ctor_Ref, bind, RefConst_.init_mPtr, Ref_.load_mPtr.
  rewrite Hrhs. simpl.
  rewrite (RefConst_AddRef_unfold this p); [exact HA | apply lookup_insert_eq].
Qed.

Lemma counted_RefConst_move_ctor_Ref (this inRHS : hloc) (p : ptr) (w : world) :
  counted w → crefs w !! this = None → refs w !! inRHS = Some (MkRef p) →
  ∃ w', RefConst_.move_ctor_Ref this inRHS w = Done tt w' ∧ counted w'.
Proof.
  intros H Hf Hrhs.
  pose proof (counted_init_RefConst _ w this p Hf H) as H1.
  pose proof (counted_store_Ref _ (set_crefs (insert this (MkRefConst p)) w)
                inRHS p nullptr Hrhs H1) as H2.
  eexists. split; [by apply RefConst_move_ctor_Ref_spec |].
  eapply counted_upto_ext; [| exact H2]. intros x. simpl. rewrite ind_null. lia.
Qed.

Lemma counted_RefConst_assign_copy_Ref (this inRHS : hloc) (q p : ptr) (w : world) :
  counted w → crefs w !! this = Some (MkRefConst q) → refs w !! inRHS = Some (MkRef p) →
  no_overflow w p →
  ∃ w', RefConst_.assign_copy_Ref this inRHS w = Done this w' ∧ counted w'.
Proof.
  intros H Hthis Hrhs Hov.
  pose proof (counted_valid_Ref w inRHS p H Hrhs) as Hv.
  destruct (decide (q = p)) as [-> | Hne].
  { exists w. split; [| done]. unfold_handle_ops. run_handles. reflexivity. }
  destruct (counted_handle_Release _ w q H) as (w1 & HR & H1 & Hr & Hc & Hh).
  { intros o ->. pose proof (handle_count_pos_RefConst w this o Hthis). lia. }
  rewrite <- (RefConst_Release_unfold this q w Hthis) in HR.
  assert (Hthis1 : crefs w1 !! this = Some (MkRefConst q)) by (by rewrite Hc).
  assert (Hrhs1 : refs w1 !! inRHS = Some (MkRef p)) by (by rewrite Hr).
  pose proof (counted_store_RefConst _ w1 this q p Hthis1 H1) as H2.
  destruct (counted_handle_AddRef _ _ p H2) as (w3 & HA & H3 & _).
  { destruct p as [o |]; [| done]. simpl in *. rewrite Hh by congruence. exact Hv. }
  { destruct p as [o |]; [| done]. simpl in *. rewrite Hh by congruence. exact Hov. }
  exists w3. split; [| close_account H3].
  unfold RefConst_.assign_copy_Ref, bind, RefConst_.load_mPtr, Ref_.load_mPtr,
    RefConst_.store_mPtr, ret.
  rewrite Hthis. simpl. rewrite Hrhs. simpl.
  rewrite bool_decide_eq_true_2 by exact Hne.
  rewrite HR, Hrhs1. simpl. rewrite Hthis1.
  rewrite (RefConst_AddRef_unfold this p); [by rewrite HA | apply lookup_insert_eq].
Qed.

Lemma counted_RefConst_assign_move_Ref (this inRHS : hloc) (q p : ptr) (w : world) :
  counted w → crefs w !! this = Some (MkRefConst q) → refs w !! inRHS = Some (MkRef p) →
  ∃ w', RefConst_.assign_move_Ref this inRHS w = Done this w' ∧ counted w'.
Proof.
  intros H Hthis Hrhs.
  destruct (decide (q = p)) as [-> | Hne].
  { exists w. split; [| done]. unfold_handle_ops. run_handles. reflexivity. }
  destruct (counted_handle_Release _ w q H) as (w1 & HR & H1 & Hr & Hc & Hh).
  { intros o ->. pose proof (handle_count_pos_RefConst w this o Hthis). lia. }
  rewrite <- (RefConst_Release_unfold this q w Hthis) in HR.
  assert (Hthis1 : crefs w1 !! this = Some (MkRefConst q)) by (by rewrite Hc).
  pose proof (counted_store_RefConst _ w1 this q p Hthis1 H1) as H2.
  assert (Hrhs2 : refs (set_crefs (insert this (MkRefConst p)) w1) !! inRHS
                  = Some (MkRef p)) by (simpl; by rewrite Hr).
  pose proof (counted_store_Ref _ _ inRHS p nullptr Hrhs2 H2) as H3.
  eexists. split; [by apply (RefConst_assign_move_Ref_spec this inRHS p q w w1) |].
  eapply counted_upto_ext; [| exact H3]. intros x. simpl. rewrite ind_null. lia.
Qed.

(** ** Creating objects and marking them as embedded *)

Lemma counted_ctor (o : loc) (w : world) :
  counted w → heap w !! o = None →
  ∃ w', RefTarget_.ctor o w = Done tt w' ∧ counted w'.
Proof.
  intros H Hf. eexists. split; [reflexivity |].
  intros x. simpl heap.
  change (handle_count (set_heap _ w) x) with (handle_count w x).
  destruct (decide (x = o)) as [-> | Hne].
  - rewrite lookup_insert_eq. specialize (H o). rewrite Hf in H. simpl.
    split; [unfold is_uint32; lia | left; lia].
  - rewrite lookup_insert_ne by done. apply H.
Qed.

Lemma counted_SetEmbedded (o : loc) (obj : RefTarget) (w : world) :
  counted w → heap w !! o = Some obj → mRefCount obj < RefTarget_.cEmbedded →
  ∃ w', RefTarget_.SetEmbedded o w = Done tt w' ∧ counted w'.
Proof.
  intros H Hlive Hlt. pose proof two_cEmbedded_fit as Hfit.
  pose proof (handle_count_nonneg w o) as Hnn.
  pose proof (H o) as Ho. rewrite Hlive in Ho. destruct Ho as [Hu Ho].
  unfold is_uint32 in Hu.
  eexists. split; [by apply (SetEmbedded_live_ok o w obj) |].
  rewrite wrap32_small by (unfold is_uint32; lia).
  intros x. simpl heap.
  change (handle_count (set_heap _ w) x) with (handle_count w x).
  destruct (decide (x = o)) as [-> | Hne].
  - rewrite lookup_insert_eq. simpl.
    split; [unfold is_uint32; lia |]. right. lia.
  - rewrite lookup_insert_ne by done. apply H.
Qed.

(** ** Programs *)

Lemma exec_op_counted (op : handle_op) (w : world) :
  counted w → op_pre w op →
  ∃ w', exec_op op w = Done tt w' ∧ counted w'.
Proof.
  intros H Hpre.
  assert (Hret : ∀ (m : M hloc) (h : hloc),
            (∃ w', m w = Done h w' ∧ counted w') →
            ∃ w', (m ;;; ret tt) w = Done tt w' ∧ counted w').
  { intros m h (w' & Hm & Hc). exists w'. unfold bind, ret. by rewrite Hm. }
  destruct op; simpl in Hpre; simpl exec_op.
  - by apply counted_ctor.
  - destruct Hpre as (obj & Hlive & Hlt). by apply (counted_SetEmbedded o obj).
  - by apply counted_Ref_ctor.
  - destruct Hpre as (Hf & Hv & Hov). by apply counted_Ref_ctor_ptr.
  - destruct Hpre as (Hf & p & Hrhs & Hov). by apply (counted_Ref_copy_ctor this inRHS p).
  - destruct Hpre as (Hf & [[p] Hrhs]). by apply (counted_Ref_move_ctor this inRHS p).
  - destruct Hpre as [[q] Hthis]. by apply (counted_Ref_dtor this q).
  - destruct Hpre as ([[q] Hthis] & Hv & Hov). apply (Hret _ this).
    by apply (counted_Ref_assign_ptr this q p).
  - destruct Hpre as ([[q] Hthis] & p & Hrhs & Hov). apply (Hret _ this).
    by apply (counted_Ref_assign_copy this inRHS q p).
  - destruct Hpre as ([[q] Hthis] & [[p] Hrhs]). apply (Hret _ this).
    by apply (counted_Ref_assign_move this inRHS q p).
  - by apply counted_RefConst_ctor.
  - destruct Hpre as (Hf & Hv & Hov). by apply counted_RefConst_ctor_ptr.
  - destruct Hpre as (Hf & p & Hrhs & Hov).
    by apply (counted_RefConst_copy_ctor this inRHS p).
  - destruct Hpre as (Hf & [[p] Hrhs]). by apply (counted_RefConst_move_ctor this inRHS p).
  - destruct Hpre as (Hf & p & Hrhs & Hov).
    by apply (counted_RefConst_copy_ctor_Ref this inRHS p).
  - destruct Hpre as (Hf & [[p] Hrhs]).
    by apply (counted_RefConst_move_ctor_Ref this inRHS p).
  - destruct Hpre as [[q] Hthis]. by apply (counted_RefConst_dtor this q).
  - destruct Hpre as ([[q] Hthis] & Hv & Hov). apply (Hret _ this).
    by apply (counted_RefConst_assign_ptr this q p).
  - destruct Hpre as ([[q] Hthis] & p & Hrhs & Hov). apply (Hret _ this).
    by apply (counted_RefConst_assign_copy this inRHS q p).
  - destruct Hpre as ([[q] Hthis] & [[p] Hrhs]). apply (Hret _ this).
    by apply (counted_RefConst_assign_move this inRHS q p).
  - destruct Hpre as ([[q] Hthis] & p & Hrhs & Hov). apply (Hret _ this).
    by apply (counted_RefConst_assign_copy_Ref this inRHS q p).
  - destruct Hpre as ([[q] Hthis] & [[p] Hrhs]). apply (Hret _ this).
    by apply (counted_RefConst_assign_move_Ref this inRHS q p).
Qed.

(** * Further properties of RefTarget *)

Lemma world_eta (w : world) :
  MkWorld (heap w) (refs w) (crefs w) (deleted w) = w.
Proof. by destruct w. Qed.

(** X1.  [AddRef()] on a live object always returns: it stores the counter
    plus one as a [uint32], deletes nothing, fails no assertion and touches
    nothing else.  At 2^32 - 1 the counter wraps to 0 and the object stays
    alive, unlike a [Release()] that reaches 0. *)
Theorem AddRef_never_destroys (this : loc) (w : world) (o : RefTarget) :
  heap w !! this = Some o →
  ∃ w', RefTarget_.AddRef this w = Done tt w'
    ∧ heap w' !! this = Some (MkRefTarget (wrap32 (mRefCount o + 1)))
    ∧ (mRefCount o = 2 ^ 32 - 1 → heap w' !! this = Some (MkRefTarget 0))
    ∧ (is_uint32 (mRefCount o) → mRefCount o ≠ 2 ^ 32 - 1 →
       heap w' !! this = Some (MkRefTarget (mRefCount o + 1)))
    ∧ (∀ q, q ≠ this → heap w' !! q = heap w !! q)
    ∧ deleted w' = deleted w ∧ refs w' = refs w ∧ crefs w' = crefs w.
Proof.
  intros Hlive. eexists. split; [by apply (AddRef_live this w o) |].
  simpl. rewrite lookup_insert_eq. repeat split.
  - intros ->. reflexivity.
  - intros Hu Hne. rewrite wrap32_small; [done |]. unfold is_uint32 in *. lia.
  - intros q Hq. by rewrite lookup_insert_ne.
Qed.

Lemma AddRef_never_destroys_witness :
  let w := world_of [(1%positive, 2 ^ 32 - 1)] [] [] in
  heap w !! 1%positive = Some (MkRefTarget (2 ^ 32 - 1))
  ∧ ∃ w', RefTarget_.AddRef 1%positive w = Done tt w'
      ∧ heap w' !! 1%positive = Some (MkRefTarget 0)
      ∧ deleted w' = deleted w.
Proof.
  intros w. split; [reflexivity |].
  destruct (AddRef_never_destroys 1%positive w (MkRefTarget (2 ^ 32 - 1)) eq_refl)
    as (w' & H1 & _ & H2 & _ & _ & H3 & _).
  exists w'. split; [exact H1 |]. split; [by apply H2 | exact H3].
Defined.



(** X3.  [Release()] followed by [AddRef()]: for a counter [c <> 1] the
    state is exactly what it was (also at [c = 0], through 2^32 - 1); for
    [c = 1] the [Release()] deletes the object and the [AddRef()] is a use
    after free. *)
Theorem Release_AddRef_roundtrip (this : loc) (w : world) (c : Z) :
  heap w !! this = Some (MkRefTarget c) → is_uint32 c →
  (c ≠ 1 → (RefTarget_.Release this ;;; RefTarget_.AddRef this) w = Done tt w)
  ∧ (c = 1 → (RefTarget_.Release this ;;; RefTarget_.AddRef this) w = Undefined).
Proof.
  intros Hlive Hu.
  assert (Hback : wrap32 (wrap32 (c - 1) + 1) = c).
  { rewrite wrap32_add_l. replace (c - 1 + 1) with c by lia. by apply wrap32_small. }
  unfold bind. split.
  - intros Hne.
    assert (Hnz : wrap32 (c - 1) ≠ 0) by (by rewrite wrap32_pred_zero).
    rewrite (Release_live_nonzero this w _ Hlive Hnz). simpl mRefCount.
    rewrite (AddRef_live this _ _ (heap_set_heap_insert _ _ _)). simpl mRefCount.
    by rewrite Hback, set_heap_insert_twice, set_heap_insert_id.
  - intros ->. rewrite (Release_live_zero this w _ Hlive) by done.
    unfold RefTarget_.AddRef, bind, load_mRefCount. simpl.
    by rewrite lookup_delete_eq.
Qed.

Lemma Release_AddRef_roundtrip_witness :
  let w := world_of [(1%positive, 1)] [] [] in
  heap w !! 1%positive = Some (MkRefTarget 1) ∧ is_uint32 1
  ∧ (RefTarget_.Release 1%positive ;;; RefTarget_.AddRef 1%positive) w = Undefined.
Proof.
  intros w. assert (Hu : is_uint32 1) by (unfold is_uint32; lia).
  split; [reflexivity |]. split; [exact Hu |].
  destruct (Release_AddRef_roundtrip 1%positive w 1 eq_refl Hu) as [_ H].
  by apply H.
Defined.




(** X5.  After a sequence of calls that leaves the object alive,
    [GetRefCount()] returns the initial counter, plus [cEmbedded] for each
    [SetEmbedded()], plus the number of [AddRef()] calls, minus the number of
    [Release()] calls, modulo 2^32; it changes nothing. *)
Theorem GetRefCount_after_calls (this : loc) (cs : list call) (w w' : world) (c : Z) :
  heap w !! this = Some (MkRefTarget c) → is_uint32 c →
  exec_calls this cs w = Done tt w' →
  is_Some (heap w' !! this) →
  RefTarget_.GetRefCount this w'
  = Done (wrap32 (c + RefTarget_.cEmbedded * count_call CallSetEmbedded cs
                    + count_call CallAddRef cs - count_call CallRelease cs)) w'.
Proof.
  intros Hlive Hu Hrun [o' Hlive'].
  unfold RefTarget_.GetRefCount. rewrite (load_mRefCount_live this w' o' Hlive').
  by rewrite (exec_calls_counter this cs w w' c o' Hlive Hu Hrun Hlive').
Qed.

Lemma GetRefCount_after_calls_witness :
  let w := world_of [(1%positive, 0)] [] [] in
  heap w !! 1%positive = Some (MkRefTarget 0) ∧ is_uint32 0
  ∧ exec_calls 1%positive [CallAddRef; CallSetEmbedded; CallAddRef; CallRelease] w
    = Done tt (world_of [(1%positive, RefTarget_.cEmbedded + 1)] [] [])
  ∧ RefTarget_.GetRefCount 1%positive
      (world_of [(1%positive, RefTarget_.cEmbedded + 1)] [] [])
    = Done (RefTarget_.cEmbedded + 1)
        (world_of [(1%positive, RefTarget_.cEmbedded + 1)] [] []).
Proof.
  intros w. assert (Hu : is_uint32 0) by (unfold is_uint32; lia).
  assert (Hrun : exec_calls 1%positive [CallAddRef; CallSetEmbedded; CallAddRef; CallRelease] w
                 = Done tt (world_of [(1%positive, RefTarget_.cEmbedded + 1)] [] []))
    by (vm_compute; reflexivity).
  split; [reflexivity |]. split; [exact Hu |]. split; [exact Hrun |].
  rewrite (GetRefCount_after_calls 1%positive _ w _ 0 eq_refl Hu Hrun);
    [reflexivity | by eexists].
Defined.

(** * Further properties of the handles *)

Lemma Ref_ctor_ptr_null (this : hloc) (w : world) :
  Ref_.ctor_ptr this nullptr w = Done tt (set_refs (insert this (MkRef nullptr)) w).
Proof. unfold_handle_ops. run_handles. reflexivity. Qed.

Lemma Ref_ctor_ptr_live (this : hloc) (o : loc) (obj : RefTarget) (w : world) :
  heap w !! o = Some obj →
  Ref_.ctor_ptr this (Some o) w
  = Done tt (set_heap (insert o (MkRefTarget (wrap32 (mRefCount obj + 1))))
               (set_refs (insert this (MkRef (Some o))) w)).
Proof.
  intros Hlive. unfold Ref_.ctor_ptr, bind, Ref_.init_mPtr.
  rewrite (Ref_AddRef_unfold this (Some o)) by apply lookup_insert_eq.
  by rewrite (AddRef_live o _ obj).
Qed.

Lemma Ref_ctor_ptr_dangling (this : hloc) (o : loc) (w : world) :
  heap w !! o = None → Ref_.ctor_ptr this (Some o) w = Undefined.
Proof.
  intros Hdead. unfold Ref_.ctor_ptr, bind, Ref_.init_mPtr.
  rewrite (Ref_AddRef_unfold this (Some o)) by apply lookup_insert_eq.
  unfold RefTarget_.AddRef, bind, load_mRefCount. simpl. by rewrite Hdead.
Qed.



Lemma RefConst_ctor_ptr_null (this : hloc) (w : world) :
  RefConst_.ctor_ptr this nullptr w = Done tt (set_crefs (insert this (MkRefConst nullptr)) w).
Proof. unfold_handle_ops. run_handles. reflexivity. Qed.

Lemma RefConst_ctor_ptr_live (this : hloc) (o : loc) (obj : RefTarget) (w : world) :
  heap w !! o = Some obj →
  RefConst_.ctor_ptr this (Some o) w
  = Done tt (set_heap (insert o (MkRefTarget (wrap32 (mRefCount obj + 1))))
               (set_crefs (insert this (MkRefConst (Some o))) w)).
Proof.
  intros Hlive. unfold RefConst_.ctor_ptr, bind, RefConst_.init_mPtr.
  rewrite (RefConst_AddRef_unfold this (Some o)) by apply lookup_insert_eq.
  by rewrite (AddRef_live o _ obj).
Qed.

Lemma RefConst_ctor_ptr_dangling (this : hloc) (o : loc) (w : world) :
  heap w !! o = None → RefConst_.ctor_ptr this (Some o) w = Undefined.
Proof.
  intros Hdead. unfold RefConst_.ctor_ptr, bind, RefConst_.init_mPtr.
  rewrite (RefConst_AddRef_unfold this (Some o)) by apply lookup_insert_eq.
  unfold RefTarget_.AddRef, bind, load_mRefCount. simpl. by rewrite Hdead.
Qed.



(** X6.  Constructing a handle (of either kind) from a raw pointer: from
    [nullptr] no object is touched; from a pointer to a live object the
    counter of that object goes up by one as a [uint32] and nothing else
    changes; from a pointer to an object that is gone the behaviour is
    undefined.  In the first two cases [GetPtr()] on the new handle returns
    the pointer given. *)
Theorem handle_from_pointer (this : hloc) (w : world) (o : loc) :
  (Ref_.ctor_ptr this nullptr w = Done tt (set_refs (insert this (MkRef nullptr)) w)
   ∧ (∀ obj, heap w !! o = Some obj →
        Ref_.ctor_ptr this (Some o) w
        = Done tt (set_heap (insert o (MkRefTarget (wrap32 (mRefCount obj + 1))))
                     (set_refs (insert this (MkRef (Some o))) w)))
   ∧ (heap w !! o = None → Ref_.ctor_ptr this (Some o) w = Undefined)
   ∧ (∀ p w', Ref_.ctor_ptr this p w = Done tt w' → Ref_.GetPtr this w' = Done p w'))
  ∧ (RefConst_.ctor_ptr this nullptr w
     = Done tt (set_crefs (insert this (MkRefConst nullptr)) w)
     ∧ (∀ obj, heap w !! o = Some obj →
          RefConst_.ctor_ptr this (Some o) w
          = Done tt (set_heap (insert o (MkRefTarget (wrap32 (mRefCount obj + 1))))
                       (set_crefs (insert this (MkRefConst (Some o))) w)))
     ∧ (heap w !! o = None → RefConst_.ctor_ptr this (Some o) w = Undefined)
     ∧ (∀ p w', RefConst_.ctor_ptr this p w = Done tt w' →
          RefConst_.GetPtr this w' = Done p w')).
Proof.
  split; (split; [| split; [| split]]).
  - apply Ref_ctor_ptr_null.
  - intros obj Hlive. by apply Ref_ctor_ptr_live.
  - apply Ref_ctor_ptr_dangling.
  - intros [x |] w' Hrun.
    + destruct (heap w !! x) as [obj |] eqn:Hx.
      * rewrite (Ref_ctor_ptr_live this x obj w Hx) in Hrun. injection Hrun as <-.
        unfold Ref_.GetPtr, Ref_.load_mPtr. simpl. by rewrite lookup_insert_eq.
      * by rewrite (Ref_ctor_ptr_dangling this x w Hx) in Hrun.
    + rewrite Ref_ctor_ptr_null in Hrun. injection Hrun as <-.
      unfold Ref_.GetPtr, Ref_.load_mPtr. simpl. by rewrite lookup_insert_eq.
  - apply RefConst_ctor_ptr_null.
  - intros obj Hlive. by apply RefConst_ctor_ptr_live.
  - apply RefConst_ctor_ptr_dangling.
  - intros [x |] w' Hrun.
    + destruct (heap w !! x) as [obj |] eqn:Hx.
      * rewrite (RefConst_ctor_ptr_live this x obj w Hx) in Hrun. injection Hrun as <-.
        unfold RefConst_.GetPtr, RefConst_.load_mPtr. simpl. by rewrite lookup_insert_eq.
      * by rewrite (RefConst_ctor_ptr_dangling this x w Hx) in Hrun.
    + rewrite RefConst_ctor_ptr_null in Hrun. injection Hrun as <-.
      unfold RefConst_.GetPtr, RefConst_.load_mPtr. simpl. by rewrite lookup_insert_eq.
Qed.



Lemma Ref_assign_nullptr (this : hloc) (q : ptr) (w w1 : world) :
  refs w !! this = Some (MkRef q) →
  Ref_.Release this w = Done tt w1 →
  Ref_.assign_ptr this nullptr w = Done this (set_refs (insert this (MkRef nullptr)) w1)
  ∧ Ref_.dtor this w = Done tt (set_refs (delete this) w1).
Proof.
  intros Hthis Hrel. split.
  - destruct q as [o |].
    + pose proof Hrel as Hrel'. rewrite (Ref_Release_unfold this _ w Hthis) in Hrel'.
      destruct (handle_Release_frame (Some o) w w1 Hrel') as (Hr & _ & _).
      unfold Ref_.assign_ptr, bind, Ref_.load_mPtr, Ref_.store_mPtr, ret.
      rewrite Hthis. simpl. try rewrite bool_decide_eq_true_2 by done.
      rewrite Hrel, Hr, Hthis.
      rewrite (Ref_AddRef_unfold this nullptr); [done | apply lookup_insert_eq].
    + rewrite (Ref_Release_unfold this _ w Hthis) in Hrel. injection Hrel as <-.
      unfold_handle_ops. run_handles. unfold set_refs.
      rewrite insert_id by done. by destruct w.
  - unfold Ref_.dtor, bind. by rewrite Hrel.
Qed.

Lemma Ref_assign_nullptr_undefined (this : hloc) (w : world) :
  Ref_.Release this w = Undefined →
  Ref_.assign_ptr this nullptr w = Undefined ∧ Ref_.dtor this w = Undefined.
Proof.
  intros Hrel. split; [| unfold Ref_.dtor, bind; by rewrite Hrel].
  unfold Ref_.assign_ptr, bind.
  destruct (Ref_.load_mPtr this w) as [q w0 | |] eqn:Hload; [| | done].
  - unfold Ref_.load_mPtr in Hload.
    destruct (refs w !! this) as [r |] eqn:Hthis; [| done]. injection Hload as <- <-.
    destruct r as [[o |]].
    + simpl. try rewrite bool_decide_eq_true_2 by done. by rewrite Hrel.
    + unfold Ref_.Release, bind, Ref_.load_mPtr in Hrel. by rewrite Hthis in Hrel.
  - unfold Ref_.load_mPtr in Hload. by destruct (refs w !! this).
Qed.

Lemma Ref_move_ctor_then_dtor (this inRHS : hloc) (p : ptr) (w : world) :
  refs w !! this = None → refs w !! inRHS = Some (MkRef p) →
  (Ref_.move_ctor this inRHS ;;; Ref_.dtor inRHS) w
  = Done tt (set_refs (λ m, delete inRHS (<[this := MkRef p]> m)) w).
Proof.
  intros Hf Hrhs. assert (Hd : this ≠ inRHS) by congruence.
  unfold bind at 1. rewrite (Ref_move_ctor_spec this inRHS p w Hrhs Hd).
  unfold Ref_.dtor, bind.
  rewrite (Ref_Release_unfold inRHS nullptr) by apply lookup_insert_eq.
  unfold ret, set_refs. simpl. by rewrite delete_insert_eq.
Qed.

Lemma RefConst_assign_nullptr (this : hloc) (q : ptr) (w w1 : world) :
  crefs w !! this = Some (MkRefConst q) →
  RefConst_.Release this w = Done tt w1 →
  RefConst_.assign_ptr this nullptr w = Done this (set_crefs (insert this (MkRefConst nullptr)) w1)
  ∧ RefConst_.dtor this w = Done tt (set_crefs (delete this) w1).
Proof.
  intros Hthis Hrel. split.
  - destruct q as [o |].
    + pose proof Hrel as Hrel'. rewrite (RefConst_Release_unfold this _ w Hthis) in Hrel'.
      destruct (handle_Release_frame (Some o) w w1 Hrel') as (_ & Hr & _).
      unfold RefConst_.assign_ptr, bind, RefConst_.load_mPtr, RefConst_.store_mPtr, ret.
      rewrite Hthis. simpl. try rewrite bool_decide_eq_true_2 by done.
      rewrite Hrel, Hr, Hthis.
      rewrite (RefConst_AddRef_unfold this nullptr); [done | apply lookup_insert_eq].
    + rewrite (RefConst_Release_unfold this _ w Hthis) in Hrel. injection Hrel as <-.
      unfold_handle_ops. run_handles. unfold set_crefs.
      rewrite insert_id by done. by destruct w.
  - unfold RefConst_.dtor, bind. by rewrite Hrel.
Qed.

Lemma RefConst_assign_nullptr_undefined (this : hloc) (w : world) :
  RefConst_.Release this w = Undefined →
  RefConst_.assign_ptr this nullptr w = Undefined ∧ RefConst_.dtor this w = Undefined.
Proof.
  intros Hrel. split; [| unfold RefConst_.dtor, bind; by rewrite Hrel].
  unfold RefConst_.assign_ptr, bind.
  destruct (RefConst_.load_mPtr this w) as [q w0 | |] eqn:Hload; [| | done].
  - unfold RefConst_.load_mPtr in Hload.
    destruct (crefs w !! this) as [r |] eqn:Hthis; [| done]. injection Hload as <- <-.
    destruct r as [[o |]].
    + simpl. try rewrite bool_decide_eq_true_2 by done. by rewrite Hrel.
    + unfold RefConst_.Release, bind, RefConst_.load_mPtr in Hrel. by rewrite Hthis in Hrel.
  - unfold RefConst_.load_mPtr in Hload. by destruct (crefs w !! this).
Qed.

Lemma RefConst_move_ctor_then_dtor (this inRHS : hloc) (p : ptr) (w : world) :
  crefs w !! this = None → crefs w !! inRHS = Some (MkRefConst p) →
  (RefConst_.move_ctor this inRHS ;;; RefConst_.dtor inRHS) w
  = Done tt (set_crefs (λ m, delete inRHS (<[this := MkRefConst p]> m)) w).
Proof.
  intros Hf Hrhs. assert (Hd : this ≠ inRHS) by congruence.
  unfold bind at 1. rewrite (RefConst_move_ctor_spec this inRHS p w Hrhs Hd).
  unfold RefConst_.dtor, bind.
  rewrite (RefConst_Release_unfold inRHS nullptr) by apply lookup_insert_eq.
  unfold ret, set_crefs. simpl. by rewrite delete_insert_eq.
Qed.

Lemma handle_from_pointer_witness :
  let w := world_of [(1%positive, 4)] [] [] in
  Ref_.ctor_ptr 10%positive (Some 1%positive) w
  = Done tt (world_of [(1%positive, 5)] [(10%positive, Some 1%positive)] [])
  ∧ Ref_.ctor_ptr 10%positive (Some 2%positive) w = Undefined.
Proof.
  intros w.
  destruct (handle_from_pointer 10%positive w 1%positive) as [(_ & H1 & _) _].
  destruct (handle_from_pointer 10%positive w 2%positive) as [(_ & _ & H2 & _) _].
  split; [| by apply H2].
  etrans; [exact (H1 (MkRefTarget 4) eq_refl) | vm_compute; reflexivity].
Defined.

(** X8.  [h = nullptr], the way the source asks to release an object: it
    does to every object what the destructor of [h] does, namely what the
    private [Release()] of [h] does, and leaves [h] alive and empty where
    the destructor ends it.  Where [Release()] is undefined (the pointer
    dangles), both are. *)
Theorem assign_nullptr_releases (this : hloc) (q : ptr) (w w1 : world) :
  (refs w !! this = Some (MkRef q) →
     (Ref_.Release this w = Done tt w1 →
        Ref_.assign_ptr this nullptr w
        = Done this (set_refs (insert this (MkRef nullptr)) w1)
        ∧ Ref_.dtor this w = Done tt (set_refs (delete this) w1))
     ∧ (Ref_.Release this w = Undefined →
        Ref_.assign_ptr this nullptr w = Undefined ∧ Ref_.dtor this w = Undefined))
  ∧ (crefs w !! this = Some (MkRefConst q) →
     (RefConst_.Release this w = Done tt w1 →
        RefConst_.assign_ptr this nullptr w
        = Done this (set_crefs (insert this (MkRefConst nullptr)) w1)
        ∧ RefConst_.dtor this w = Done tt (set_crefs (delete this) w1))
     ∧ (RefConst_.Release this w = Undefined →
        RefConst_.assign_ptr this nullptr w = Undefined
        ∧ RefConst_.dtor this w = Undefined)).
Proof.
  split; intros Hthis; split.
  - by apply (Ref_assign_nullptr this q).
  - apply Ref_assign_nullptr_undefined.
  - by apply (RefConst_assign_nullptr this q).
  - apply RefConst_assign_nullptr_undefined.
Qed.

Lemma assign_nullptr_releases_witness :
  let w := world_of [(1%positive, 1)] [(10%positive, Some 1%positive)] [] in
  let w1 := log_delete 1%positive (set_heap (delete 1%positive) w) in
  Ref_.Release 10%positive w = Done tt w1
  ∧ Ref_.assign_ptr 10%positive nullptr w
    = Done 10%positive (set_refs (insert 10%positive (MkRef nullptr)) w1)
  ∧ Ref_.dtor 10%positive w = Done tt (set_refs (delete 10%positive) w1).
Proof.
  intros w w1.
  assert (Hrel : Ref_.Release 10%positive w = Done tt w1) by (vm_compute; reflexivity).
  split; [exact Hrel |].
  destruct (assign_nullptr_releases 10%positive (Some 1%positive) w w1) as [H _].
  destruct (H eq_refl) as [H' _]. exact (H' Hrel).
Defined.

(** X9.  A moved-from handle can be destroyed freely.  Move-constructing
    [this] from [inRHS] and then destroying [inRHS] touches no object and no
    counter, whatever the pointer (it is never dereferenced): all that
    happens is that the pointer now sits in [this] and [inRHS] is gone.
    This holds for Ref from Ref, RefConst from RefConst and RefConst from
    Ref. *)
Theorem moved_from_handle_is_inert (this inRHS : hloc) (p : ptr) (w : world) :
  (refs w !! this = None → refs w !! inRHS = Some (MkRef p) →
     (Ref_.move_ctor this inRHS ;;; Ref_.dtor inRHS) w
     = Done tt (set_refs (λ m, delete inRHS (<[this := MkRef p]> m)) w))
  ∧ (crefs w !! this = None → crefs w !! inRHS = Some (MkRefConst p) →
     (RefConst_.move_ctor this inRHS ;;; RefConst_.dtor inRHS) w
     = Done tt (set_crefs (λ m, delete inRHS (<[this := MkRefConst p]> m)) w))
  ∧ (refs w !! inRHS = Some (MkRef p) →
     (RefConst_.move_ctor_Ref this inRHS ;;; Ref_.dtor inRHS) w
     = Done tt (set_refs (delete inRHS) (set_crefs (insert this (MkRefConst p)) w))).
Proof.
  split; [| split].
  - apply Ref_move_ctor_then_dtor.
  - apply RefConst_move_ctor_then_dtor.
  - intros Hrhs. unfold bind at 1.
    rewrite (RefConst_move_ctor_Ref_spec this inRHS p w Hrhs).
    unfold Ref_.dtor, bind.
    rewrite (Ref_Release_unfold inRHS nullptr) by apply lookup_insert_eq.
    unfold ret, set_refs, set_crefs. simpl. by rewrite delete_insert_eq.
Qed.

Lemma moved_from_handle_is_inert_witness :
  let w := world_of [(1%positive, 1)] [(10%positive, Some 1%positive)] [] in
  (Ref_.move_ctor 11%positive 10%positive ;;; Ref_.dtor 10%positive) w
  = Done tt (world_of [(1%positive, 1)] [(11%positive, Some 1%positive)] [])
  ∧ (RefConst_.move_ctor_Ref 20%positive 10%positive ;;; Ref_.dtor 10%positive) w
    = Done tt (world_of [(1%positive, 1)] [] [(20%positive, Some 1%positive)]).
Proof.
  intros w.
  destruct (moved_from_handle_is_inert 11%positive 10%positive (Some 1%positive) w)
    as (H1 & _ & _).
  destruct (moved_from_handle_is_inert 20%positive 10%positive (Some 1%positive) w)
    as (_ & _ & H3).
  split.
  - etrans; [exact (H1 eq_refl eq_refl) | vm_compute; reflexivity].
  - etrans; [exact (H3 eq_refl) | vm_compute; reflexivity].
Defined.

(** X10.  Swapping two handles through a temporary,
    [Ref<T> tmp(std::move(a)); a = std::move(b); b = std::move(tmp);]
    followed by the destruction of [tmp], exchanges the two pointers and
    touches no object and no counter, whatever the pointers are. *)
Theorem swap_by_moves (a b tmp : hloc) (p q : ptr) (w : world) :
  refs w !! a = Some (MkRef p) → refs w !! b = Some (MkRef q) →
  a ≠ b → refs w !! tmp = None →
  (Ref_.move_ctor tmp a ;;; Ref_.assign_move a b ;;;
   Ref_.assign_move b tmp ;;; Ref_.dtor tmp) w
  = Done tt (set_refs (λ m, <[b := MkRef p]> (<[a := MkRef q]> m)) w).
Proof.
  intros Ha Hb Hab Htmp.
  assert (Hta : tmp ≠ a) by congruence. assert (Htb : tmp ≠ b) by congruence.
  assert (Hfin : ∀ m : gmap hloc Ref, m = refs w →
            ∀ x y, delete tmp (<[tmp:=x]> (<[b:=MkRef p]> (<[a:=MkRef q]> (<[tmp:=y]> m))))
                   = <[b:=MkRef p]> (<[a:=MkRef q]> m)).
  { intros m -> x y. apply map_eq. intros k.
    destruct (decide (k = tmp)) as [-> | Hk].
    - rewrite lookup_delete_eq. by rewrite !lookup_insert_ne by done.
    - rewrite lookup_delete_ne, (lookup_insert_ne _ tmp) by done.
      destruct (decide (k = b)) as [-> | Hkb]; [by rewrite !lookup_insert_eq |].
      rewrite !(lookup_insert_ne _ b) by done.
      destruct (decide (k = a)) as [-> | Hka]; [by rewrite !lookup_insert_eq |].
      rewrite !(lookup_insert_ne _ a) by done. by rewrite lookup_insert_ne. }
  unfold bind at 1. rewrite (Ref_move_ctor_spec tmp a p w Ha Hta).
  set (w1 := set_refs (insert a (MkRef nullptr)) (set_refs (insert tmp (MkRef p)) w)).
  assert (Ha1 : refs w1 !! a = Some (MkRef nullptr)) by apply lookup_insert_eq.
  assert (Hb1 : refs w1 !! b = Some (MkRef q)).
  { unfold w1. simpl. by rewrite !lookup_insert_ne by done. }
  assert (Ht1 : refs w1 !! tmp = Some (MkRef p)).
  { unfold w1. simpl. rewrite lookup_insert_ne by done. apply lookup_insert_eq. }
  (* a = std::move(b) *)
  assert (H2 : ∃ w2, Ref_.assign_move a b w1 = Done a w2
             ∧ heap w2 = heap w ∧ crefs w2 = crefs w ∧ deleted w2 = deleted w
             ∧ refs w2 !! b = Some (MkRef nullptr)
             ∧ refs w2 !! tmp = Some (MkRef p)
             ∧ <[b:=MkRef nullptr]> (<[a:=MkRef q]> (refs w1)) = refs w2).
  { destruct q as [oq |].
    - eexists. split.
      + apply (Ref_assign_move_spec a b (Some oq) nullptr w1 w1 Ha1 Hb1); [done |].
        by rewrite (Ref_Release_unfold a nullptr w1 Ha1).
      + simpl. rewrite lookup_insert_eq, !lookup_insert_ne, lookup_insert_eq by done.
        done.
    - exists w1. split.
      + unfold_handle_ops. run_handles. reflexivity.
      + repeat split; try done. simpl.
        rewrite (insert_id _ b); [apply insert_insert_eq |].
        unfold w1. simpl. by rewrite !lookup_insert_ne, Hb by done. }
  destruct H2 as (w2 & HA2 & Hh2 & Hc2 & Hd2 & Hb2 & Ht2 & Hr2).
  unfold bind at 1. rewrite HA2.
  (* b = std::move(tmp) *)
  assert (H3 : ∃ w3, Ref_.assign_move b tmp w2 = Done b w3
             ∧ heap w3 = heap w ∧ crefs w3 = crefs w ∧ deleted w3 = deleted w
             ∧ refs w3 !! tmp = Some (MkRef nullptr)
             ∧ <[tmp:=MkRef nullptr]> (<[b:=MkRef p]> (refs w2)) = refs w3).
  { destruct p as [op |].
    - eexists. split.
      + apply (Ref_assign_move_spec b tmp (Some op) nullptr w2 w2 Hb2 Ht2); [done |].
        by rewrite (Ref_Release_unfold b nullptr w2 Hb2).
      + simpl. by rewrite lookup_insert_eq.
    - exists w2. split.
      + unfold_handle_ops. run_handles. reflexivity.
      + repeat split; try done. simpl.
        by rewrite (insert_id _ b), (insert_id _ tmp). }
  destruct H3 as (w3 & HA3 & Hh3 & Hc3 & Hd3 & Ht3 & Hr3).
  unfold bind at 1. rewrite HA3.
  unfold Ref_.dtor, bind. rewrite (Ref_Release_unfold tmp nullptr w3 Ht3).
  unfold ret, set_refs. simpl. rewrite Hh3, Hc3, Hd3. f_equal. f_equal.
  rewrite <- Hr3, <- Hr2. unfold w1. simpl.
  rewrite (insert_insert_eq _ a).
  rewrite <- (Hfin (refs w) eq_refl (MkRef nullptr) (MkRef p)). f_equal. f_equal.
  rewrite (insert_insert_eq _ b). done.
Qed.

Lemma swap_by_moves_witness :
  let w := world_of [(1%positive, 1)]
             [(10%positive, Some 1%positive); (11%positive, None)] [] in
  (Ref_.move_ctor 12%positive 10%positive ;;; Ref_.assign_move 10%positive 11%positive ;;;
   Ref_.assign_move 11%positive 12%positive ;;; Ref_.dtor 12%positive) w
  = Done tt (world_of [(1%positive, 1)]
               [(10%positive, None); (11%positive, Some 1%positive)] []).
Proof.
  intros w.
  etrans; [apply (swap_by_moves 10%positive 11%positive 12%positive
                    (Some 1%positive) None w);
           [reflexivity | reflexivity | discriminate | reflexivity]
          | vm_compute; reflexivity].
Defined.
Lemma counted_empty (d : list loc) : counted (MkWorld ∅ ∅ ∅ d).
Proof.
  intros o. simpl. rewrite lookup_empty.
  unfold handle_count, count_ptr. simpl.
  rewrite !map_filter_empty, !map_size_empty. reflexivity.
Qed.

(** Discharge [op_pre] on a concrete state. *)
Ltac solve_op_pre :=
  simpl;
  repeat match goal with
         | |- _ ∧ _ => split
         | |- ∃ _, _ => eexists
         | |- is_Some _ => eexists
         | |- True => exact I
         | |- no_overflow _ _ => unfold no_overflow
         | |- valid_ptr _ _ => unfold valid_ptr
         | |- _ = _ => reflexivity
         | |- _ < _ => reflexivity
         | |- ∀ obj : RefTarget, _ → _ =>
             let obj := fresh "obj" in
             let Hobj := fresh "Hobj" in
             intros obj Hobj; vm_compute in Hobj; injection Hobj as <-
         end.

(** Discharge [ops_pre] on a concrete state by running the program. *)
Ltac solve_ops_pre :=
  repeat match goal with
         | |- ops_pre_of _ _ [] => exact I
         | |- ops_pre_of _ _ (_ :: _) =>
             let w' := fresh "w" in
             let Hw' := fresh "Hw" in
             split; [solve_op_pre
                    | intros w' Hw'; vm_compute in Hw'; injection Hw' as <-]
         end.

Lemma counted_one_handle :
  counted (world_of [(1%positive, 1)] [(10%positive, Some 1%positive)] []).
Proof.
  destruct (exec_op_counted (NewObject 1%positive) (MkWorld ∅ ∅ ∅ []) (counted_empty []))
    as (w1 & Hrun1 & H1); [reflexivity |].
  vm_compute in Hrun1. injection Hrun1 as <-.
  destruct (exec_op_counted (Ref_from_ptr 10%positive (Some 1%positive)) _ H1)
    as (w2 & Hrun2 & H2); [solve_op_pre |].
  vm_compute in Hrun2. injection Hrun2 as <-. exact H2.
Qed.

(** * The handles for any T *)

Lemma bind_ext {A B} (m m' : M A) (k k' : A → M B) (w : world) :
  m w = m' w → (∀ a w', k a w' = k' a w') → bind m k w = bind m' k' w.
Proof. intros Hm Hk. unfold bind. rewrite Hm. destruct (m' w); [apply Hk | done | done]. Qed.

(** ** RefTarget<T>::Release for any destructor of T *)

Section ReleaseOfT.

Variable T_dtor : loc → M unit.
Variables (this : loc) (w : world) (o : RefTarget).
Hypothesis Hlive : heap w !! this = Some o.

(** A [Release()] that does not reach 0 never gets to the destructor. *)
Lemma ReleaseOf_live_nonzero :
  wrap32 (mRefCount o - 1) ≠ 0 →
  RefTargetOf.Release T_dtor this w =
  Done tt (set_heap (insert this (MkRefTarget (wrap32 (mRefCount o - 1)))) w).
Proof using Hlive.
  intros Hnz. unfold RefTargetOf.Release, bind.
  rewrite (load_mRefCount_live this w o Hlive), (store_mRefCount_live this w o Hlive).
  apply Z.eqb_neq in Hnz. by rewrite Hnz.
Qed.

(** A [Release()] that reaches 0 is [delete this], run with the counter
    at 0. *)
Lemma ReleaseOf_live_zero :
  wrap32 (mRefCount o - 1) = 0 →
  RefTargetOf.Release T_dtor this w =
  RefTargetOf.delete_T T_dtor this (set_heap (insert this (MkRefTarget 0)) w).
Proof using Hlive.
  intros Hz. unfold RefTargetOf.Release, bind.
  rewrite (load_mRefCount_live this w o Hlive), (store_mRefCount_live this w o Hlive).
  by rewrite Hz.
Qed.

End ReleaseOfT.

(** For a [T] whose destructor does nothing, [Release()] is that of
    [RefTarget_]. *)
Lemma ReleaseOf_trivial (T_dtor : loc → M unit) :
  (∀ o w, T_dtor o w = Done tt w) →
  ∀ o w, RefTargetOf.Release T_dtor o w = RefTarget_.Release o w.
Proof.
  intros Htriv o w. unfold RefTargetOf.Release, RefTarget_.Release.
  apply bind_ext; [done |]. intros c w1. simpl.
  apply bind_ext; [done |]. intros [] w2.
  destruct (wrap32 (c - 1) =? 0); [| done].
  unfold RefTargetOf.delete_T, RefTarget_.delete_T, bind. by rewrite Htriv.
Qed.

(** [delete] of a live object with counter 0 by a [T] whose destructor
    does nothing. *)
Lemma delete_T_trivial (T_dtor : loc → M unit) (o : loc) (w : world) :
  (∀ w', T_dtor o w' = Done tt w') →
  RefTargetOf.delete_T T_dtor o (set_heap (insert o (MkRefTarget 0)) w)
  = Done tt (log_delete o (set_heap (delete o) w)).
Proof.
  intros Htriv. unfold RefTargetOf.delete_T, bind. rewrite Htriv.
  unfold RefTarget_.dtor, bind, load_mRefCount, JPH_ASSERT. simpl.
  rewrite lookup_insert_eq. simpl. unfold set_heap, log_delete. simpl.
  by rewrite delete_insert_eq.
Qed.

(** ** Ref<T> for any T: which calls an operator makes *)

Section RefOfT.

Variables T_AddRef T_Release : loc → M unit.

Lemma RefOf_Release_call (this : hloc) (q : ptr) (w : world) :
  refs w !! this = Some (MkRef q) →
  RefOf.Release T_Release this w = call_on T_Release q w.
Proof. intros H. unfold RefOf.Release, bind, Ref_.load_mPtr. by rewrite H. Qed.

Lemma RefOf_AddRef_call (this : hloc) (p : ptr) (w : world) :
  refs w !! this = Some (MkRef p) →
  RefOf.AddRef T_AddRef this w = call_on T_AddRef p w.
Proof. intros H. unfold RefOf.AddRef, bind, Ref_.load_mPtr. by rewrite H. Qed.

Lemma RefOf_dtor_call (this : hloc) (q : ptr) (w : world) :
  refs w !! this = Some (MkRef q) →
  RefOf.dtor T_Release this w
  = (call_on T_Release q ;;; fun w' => Done tt (set_refs (delete this) w')) w.
Proof. intros H. unfold RefOf.dtor, bind. by rewrite (RefOf_Release_call this q). Qed.

Lemma RefOf_assign_move_same (this inRHS : hloc) (p : ptr) (w : world) :
  refs w !! this = Some (MkRef p) → refs w !! inRHS = Some (MkRef p) →
  RefOf.assign_move T_Release this inRHS w = Done this w.
Proof.
  intros Hthis Hrhs. unfold RefOf.assign_move, bind, Ref_.load_mPtr, ret.
  rewrite Hthis. simpl. rewrite Hrhs. simpl.
  by rewrite bool_decide_eq_false_2 by auto.
Qed.

Lemma RefOf_assign_move_done (this inRHS : hloc) (p q p1 : ptr) (w w1 : world) :
  refs w !! this = Some (MkRef q) → refs w !! inRHS = Some (MkRef p) → q ≠ p →
  call_on T_Release q w = Done tt w1 →
  is_Some (refs w1 !! this) → refs w1 !! inRHS = Some (MkRef p1) →
  RefOf.assign_move T_Release this inRHS w
  = Done this (set_refs (insert inRHS (MkRef nullptr))
                 (set_refs (insert this (MkRef p1)) w1)).
Proof.
  intros Hthis Hrhs Hne Hcall [r Hthis1] Hrhs1.
  assert (Hd : this ≠ inRHS) by congruence.
  unfold RefOf.assign_move, bind, Ref_.load_mPtr, Ref_.store_mPtr, ret.
  rewrite Hthis. simpl. rewrite Hrhs. simpl.
  rewrite bool_decide_eq_true_2 by exact Hne.
  rewrite (RefOf_Release_call this q w Hthis), Hcall, Hrhs1. simpl.
  rewrite Hthis1. simpl. rewrite lookup_insert_ne by exact Hd. by rewrite Hrhs1.
Qed.

Lemma RefOf_assign_move_dead_source (this inRHS : hloc) (p q : ptr) (w w1 : world) :
  refs w !! this = Some (MkRef q) → refs w !! inRHS = Some (MkRef p) → q ≠ p →
  call_on T_Release q w = Done tt w1 →
  refs w1 !! inRHS = None →
  RefOf.assign_move T_Release this inRHS w = Undefined.
Proof.
  intros Hthis Hrhs Hne Hcall Hdead.
  unfold RefOf.assign_move, bind, Ref_.load_mPtr, Ref_.store_mPtr, ret.
  rewrite Hthis. simpl. rewrite Hrhs. simpl.
  rewrite bool_decide_eq_true_2 by exact Hne.
  by rewrite (RefOf_Release_call this q w Hthis), Hcall, Hdead.
Qed.

Lemma RefOf_assign_ptr_done (this : hloc) (p q : ptr) (w w1 : world) :
  refs w !! this = Some (MkRef q) → q ≠ p →
  call_on T_Release q w = Done tt w1 →
  is_Some (refs w1 !! this) →
  RefOf.assign_ptr T_AddRef T_Release this p w
  = (call_on T_AddRef p ;;; ret this) (set_refs (insert this (MkRef p)) w1).
Proof.
  intros Hthis Hne Hcall [r Hthis1].
  unfold RefOf.assign_ptr, bind, Ref_.load_mPtr, Ref_.store_mPtr, ret.
  rewrite Hthis. simpl. rewrite bool_decide_eq_true_2 by exact Hne.
  rewrite (RefOf_Release_call this q w Hthis), Hcall, Hthis1.
  rewrite (RefOf_AddRef_call this p) by apply lookup_insert_eq.
  by destruct (call_on T_AddRef p _).
Qed.

Lemma RefOf_assign_copy_done (this inRHS : hloc) (p q p1 : ptr) (w w1 : world) :
  refs w !! this = Some (MkRef q) → refs w !! inRHS = Some (MkRef p) → q ≠ p →
  call_on T_Release q w = Done tt w1 →
  is_Some (refs w1 !! this) → refs w1 !! inRHS = Some (MkRef p1) →
  RefOf.assign_copy T_AddRef T_Release this inRHS w
  = (call_on T_AddRef p1 ;;; ret this) (set_refs (insert this (MkRef p1)) w1).
Proof.
  intros Hthis Hrhs Hne Hcall [r Hthis1] Hrhs1.
  unfold RefOf.assign_copy, bind, Ref_.load_mPtr, Ref_.store_mPtr, ret.
  rewrite Hthis. simpl. rewrite Hrhs. simpl.
  rewrite bool_decide_eq_true_2 by exact Hne.
  rewrite (RefOf_Release_call this q w Hthis), Hcall, Hrhs1. simpl. rewrite Hthis1.
  rewrite (RefOf_AddRef_call this p1) by apply lookup_insert_eq.
  by destruct (call_on T_AddRef p1 _).
Qed.

End RefOfT.

(** ** RefConst<T> for any T *)

Section RefConstOfT.

Variables T_AddRef T_Release : loc → M unit.

Lemma RefConstOf_Release_call (this : hloc) (q : ptr) (w : world) :
  crefs w !! this = Some (MkRefConst q) →
  RefConstOf.Release T_Release this w = call_on T_Release q w.
Proof. intros H. unfold RefConstOf.Release, bind, RefConst_.load_mPtr. by rewrite H. Qed.

Lemma RefConstOf_AddRef_call (this : hloc) (p : ptr) (w : world) :
  crefs w !! this = Some (MkRefConst p) →
  RefConstOf.AddRef T_AddRef this w = call_on T_AddRef p w.
Proof. intros H. unfold RefConstOf.AddRef, bind, RefConst_.load_mPtr. by rewrite H. Qed.

Lemma RefConstOf_dtor_call (this : hloc) (q : ptr) (w : world) :
  crefs w !! this = Some (MkRefConst q) →
  RefConstOf.dtor T_Release this w
  = (call_on T_Release q ;;; fun w' => Done tt (set_crefs (delete this) w')) w.
Proof. intros H. unfold RefConstOf.dtor, bind. by rewrite (RefConstOf_Release_call this q). Qed.

Lemma RefConstOf_assign_move_same (this inRHS : hloc) (p : ptr) (w : world) :
  crefs w !! this = Some (MkRefConst p) → crefs w !! inRHS = Some (MkRefConst p) →
  RefConstOf.assign_move T_Release this inRHS w = Done this w.
Proof.
  intros Hthis Hrhs. unfold RefConstOf.assign_move, bind, RefConst_.load_mPtr, ret.
  rewrite Hthis. simpl. rewrite Hrhs. simpl.
  by rewrite bool_decide_eq_false_2 by auto.
Qed.

Lemma RefConstOf_assign_move_done (this inRHS : hloc) (p q p1 : ptr) (w w1 : world) :
  crefs w !! this = Some (MkRefConst q) → crefs w !! inRHS = Some (MkRefConst p) → q ≠ p →
  call_on T_Release q w = Done tt w1 →
  is_Some (crefs w1 !! this) → crefs w1 !! inRHS = Some (MkRefConst p1) →
  RefConstOf.assign_move T_Release this inRHS w
  = Done this (set_crefs (insert inRHS (MkRefConst nullptr))
                 (set_crefs (insert this (MkRefConst p1)) w1)).
Proof.
  intros Hthis Hrhs Hne Hcall [r Hthis1] Hrhs1.
  assert (Hd : this ≠ inRHS) by congruence.
  unfold RefConstOf.assign_move, bind, RefConst_.load_mPtr, RefConst_.store_mPtr, ret.
  rewrite Hthis. simpl. rewrite Hrhs. simpl.
  rewrite bool_decide_eq_true_2 by exact Hne.
  rewrite (RefConstOf_Release_call this q w Hthis), Hcall, Hrhs1. simpl.
  rewrite Hthis1. simpl. rewrite lookup_insert_ne by exact Hd. by rewrite Hrhs1.
Qed.

Lemma RefConstOf_assign_move_dead_source (this inRHS : hloc) (p q : ptr) (w w1 : world) :
  crefs w !! this = Some (MkRefConst q) → crefs w !! inRHS = Some (MkRefConst p) → q ≠ p →
  call_on T_Release q w = Done tt w1 →
  crefs w1 !! inRHS = None →
  RefConstOf.assign_move T_Release this inRHS w = Undefined.
Proof.
  intros Hthis Hrhs Hne Hcall Hdead.
  unfold RefConstOf.assign_move, bind, RefConst_.load_mPtr, RefConst_.store_mPtr, ret.
  rewrite Hthis. simpl. rewrite Hrhs. simpl.
  rewrite bool_decide_eq_true_2 by exact Hne.
  by rewrite (RefConstOf_Release_call this q w Hthis), Hcall, Hdead.
Qed.

Lemma RefConstOf_assign_ptr_done (this : hloc) (p q : ptr) (w w1 : world) :
  crefs w !! this = Some (MkRefConst q) → q ≠ p →
  call_on T_Release q w = Done tt w1 →
  is_Some (crefs w1 !! this) →
  RefConstOf.assign_ptr T_AddRef T_Release this p w
  = (call_on T_AddRef p ;;; ret this) (set_crefs (insert this (MkRefConst p)) w1).
Proof.
  intros Hthis Hne Hcall [r Hthis1].
  unfold RefConstOf.assign_ptr, bind, RefConst_.load_mPtr, RefConst_.store_mPtr, ret.
  rewrite Hthis. simpl. rewrite bool_decide_eq_true_2 by exact Hne.
  rewrite (RefConstOf_Release_call this q w Hthis), Hcall, Hthis1.
  rewrite (RefConstOf_AddRef_call this p) by apply lookup_insert_eq.
  by destruct (call_on T_AddRef p _).
Qed.

Lemma RefConstOf_assign_copy_done (this inRHS : hloc) (p q p1 : ptr) (w w1 : world) :
  crefs w !! this = Some (MkRefConst q) → crefs w !! inRHS = Some (MkRefConst p) → q ≠ p →
  call_on T_Release q w = Done tt w1 →
  is_Some (crefs w1 !! this) → crefs w1 !! inRHS = Some (MkRefConst p1) →
  RefConstOf.assign_copy T_AddRef T_Release this inRHS w
  = (call_on T_AddRef p1 ;;; ret this) (set_crefs (insert this (MkRefConst p1)) w1).
Proof.
  intros Hthis Hrhs Hne Hcall [r Hthis1] Hrhs1.
  unfold RefConstOf.assign_copy, bind, RefConst_.load_mPtr, RefConst_.store_mPtr, ret.
  rewrite Hthis. simpl. rewrite Hrhs. simpl.
  rewrite bool_decide_eq_true_2 by exact Hne.
  rewrite (RefConstOf_Release_call this q w Hthis), Hcall, Hrhs1. simpl. rewrite Hthis1.
  rewrite (RefConstOf_AddRef_call this p1) by apply lookup_insert_eq.
  by destruct (call_on T_AddRef p1 _).
Qed.

End RefConstOfT.

(** ** RefConst<T> assigned from a Ref<T>, for any T *)

Section RefConstOfRefT.

Variables T_AddRef T_Release : loc → M unit.

Lemma RefConstOf_assign_move_Ref_same (this inRHS : hloc) (p : ptr) (w : world) :
  crefs w !! this = Some (MkRefConst p) → refs w !! inRHS = Some (MkRef p) →
  RefConstOf.assign_move_Ref T_Release this inRHS w = Done this w.
Proof.
  intros Hthis Hrhs.
  unfold RefConstOf.assign_move_Ref, bind, RefConst_.load_mPtr, Ref_.load_mPtr, ret.
  rewrite Hthis. simpl. rewrite Hrhs. simpl.
  by rewrite bool_decide_eq_false_2 by auto.
Qed.

Lemma RefConstOf_assign_move_Ref_done (this inRHS : hloc) (p q p1 : ptr) (w w1 : world) :
  crefs w !! this = Some (MkRefConst q) → refs w !! inRHS = Some (MkRef p) → q ≠ p →
  call_on T_Release q w = Done tt w1 →
  is_Some (crefs w1 !! this) → refs w1 !! inRHS = Some (MkRef p1) →
  RefConstOf.assign_move_Ref T_Release this inRHS w
  = Done this (set_refs (insert inRHS (MkRef nullptr))
                 (set_crefs (insert this (MkRefConst p1)) w1)).
Proof.
  intros Hthis Hrhs Hne Hcall [r Hthis1] Hrhs1.
  unfold RefConstOf.assign_move_Ref, bind, RefConst_.load_mPtr, Ref_.load_mPtr,
    RefConst_.store_mPtr, Ref_.store_mPtr, ret.
  rewrite Hthis. simpl. rewrite Hrhs. simpl.
  rewrite bool_decide_eq_true_2 by exact Hne.
  rewrite (RefConstOf_Release_call T_Release this q w Hthis), Hcall, Hrhs1. simpl.
  rewrite Hthis1. simpl. by rewrite Hrhs1.
Qed.

Lemma RefConstOf_assign_move_Ref_dead_source (this inRHS : hloc) (p q : ptr) (w w1 : world) :
  crefs w !! this = Some (MkRefConst q) → refs w !! inRHS = Some (MkRef p) → q ≠ p →
  call_on T_Release q w = Done tt w1 →
  refs w1 !! inRHS = None →
  RefConstOf.assign_move_Ref T_Release this inRHS w = Undefined.
Proof.
  intros Hthis Hrhs Hne Hcall Hdead.
  unfold RefConstOf.assign_move_Ref, bind, RefConst_.load_mPtr, Ref_.load_mPtr, ret.
  rewrite Hthis. simpl. rewrite Hrhs. simpl.
  rewrite bool_decide_eq_true_2 by exact Hne.
  by rewrite (RefConstOf_Release_call T_Release this q w Hthis), Hcall, Hdead.
Qed.

Lemma RefConstOf_assign_copy_Ref_done (this inRHS : hloc) (p q p1 : ptr) (w w1 : world) :
  crefs w !! this = Some (MkRefConst q) → refs w !! inRHS = Some (MkRef p) → q ≠ p →
  call_on T_Release q w = Done tt w1 →
  is_Some (crefs w1 !! this) → refs w1 !! inRHS = Some (MkRef p1) →
  RefConstOf.assign_copy_Ref T_AddRef T_Release this inRHS w
  = (call_on T_AddRef p1 ;;; ret this) (set_crefs (insert this (MkRefConst p1)) w1).
Proof.
  intros Hthis Hrhs Hne Hcall [r Hthis1] Hrhs1.
  unfold RefConstOf.assign_copy_Ref, bind, RefConst_.load_mPtr, Ref_.load_mPtr,
    RefConst_.store_mPtr, ret.
  rewrite Hthis. simpl. rewrite Hrhs. simpl.
  rewrite bool_decide_eq_true_2 by exact Hne.
  rewrite (RefConstOf_Release_call T_Release this q w Hthis), Hcall, Hrhs1. simpl.
  rewrite Hthis1.
  rewrite (RefConstOf_AddRef_call T_AddRef this p1) by apply lookup_insert_eq.
  by destruct (call_on T_AddRef p1 _).
Qed.

End RefConstOfRefT.

(** [Release()] of [RefTarget<T>] through a pointer to a live object that it
    does not destroy: one counter changes, for any [T]. *)
Lemma call_Release_survives (T_dtor : loc → M unit) (o : loc) (obj : RefTarget) (w : world) :
  heap w !! o = Some obj → wrap32 (mRefCount obj - 1) ≠ 0 →
  call_on (RefTargetOf.Release T_dtor) (Some o) w
  = Done tt (set_heap (insert o (MkRefTarget (wrap32 (mRefCount obj - 1)))) w).
Proof. intros Hlive Hnz. simpl. by apply ReleaseOf_live_nonzero. Qed.

(** ** Moving handles, for any T *)

(** C2, as the code has it, for any [T].  Move construction gives the new
    handle the pointer of the source, empties the source and makes no call:
    only these two handles change.  Move assignment between handles that
    hold the same pointer changes nothing: the source keeps its pointer.
    Move assignment between handles that hold different pointers makes one
    call on a counted object, [Release()] on what the destination held (none
    if it held [nullptr]), and no [AddRef()] or [Release()] on the moved
    object or any other.  If both handles are alive after that call, the
    destination takes the pointer the source holds and the source is
    emptied, and nothing else changes after the call; if that call has
    destroyed the source handle (a member of the object released), reading
    it is undefined.  With the [Release()] of [RefTarget<T>], when the
    object the destination held is not destroyed, its counter is one lower
    and the moved object and every other object keep their counters. *)
Theorem move_transfers_pointer
    (T_Release T_dtor : loc → M unit) (this inRHS : hloc) (p q p1 : ptr)
    (w w1 : world) (oq : loc) (objq : RefTarget) :
  (* construction *)
  ((refs w !! inRHS = Some (MkRef p) → this ≠ inRHS →
      Ref_.move_ctor this inRHS w
      = Done tt (set_refs (insert inRHS (MkRef nullptr))
                   (set_refs (insert this (MkRef p)) w)))
   ∧ (crefs w !! inRHS = Some (MkRefConst p) → this ≠ inRHS →
      RefConst_.move_ctor this inRHS w
      = Done tt (set_crefs (insert inRHS (MkRefConst nullptr))
                   (set_crefs (insert this (MkRefConst p)) w)))
   ∧ (refs w !! inRHS = Some (MkRef p) →
      RefConst_.move_ctor_Ref this inRHS w
      = Done tt (set_refs (insert inRHS (MkRef nullptr))
                   (set_crefs (insert this (MkRefConst p)) w))))
  (* assignment, same pointer *)
  ∧ ((refs w !! this = Some (MkRef p) → refs w !! inRHS = Some (MkRef p) →
      RefOf.assign_move T_Release this inRHS w = Done this w)
     ∧ (crefs w !! this = Some (MkRefConst p) → crefs w !! inRHS = Some (MkRefConst p) →
        RefConstOf.assign_move T_Release this inRHS w = Done this w)
     ∧ (crefs w !! this = Some (MkRefConst p) → refs w !! inRHS = Some (MkRef p) →
        RefConstOf.assign_move_Ref T_Release this inRHS w = Done this w))
  (* assignment, different pointers: the one call, and what follows it *)
  ∧ ((refs w !! this = Some (MkRef q) → refs w !! inRHS = Some (MkRef p) → q ≠ p →
      call_on T_Release q w = Done tt w1 →
      (is_Some (refs w1 !! this) → refs w1 !! inRHS = Some (MkRef p1) →
         RefOf.assign_move T_Release this inRHS w
         = Done this (set_refs (insert inRHS (MkRef nullptr))
                        (set_refs (insert this (MkRef p1)) w1)))
      ∧ (refs w1 !! inRHS = None →
         RefOf.assign_move T_Release this inRHS w = Undefined))
     ∧ (crefs w !! this = Some (MkRefConst q) → crefs w !! inRHS = Some (MkRefConst p) →
        q ≠ p → call_on T_Release q w = Done tt w1 →
        (is_Some (crefs w1 !! this) → crefs w1 !! inRHS = Some (MkRefConst p1) →
           RefConstOf.assign_move T_Release this inRHS w
           = Done this (set_crefs (insert inRHS (MkRefConst nullptr))
                          (set_crefs (insert this (MkRefConst p1)) w1)))
        ∧ (crefs w1 !! inRHS = None →
           RefConstOf.assign_move T_Release this inRHS w = Undefined))
     ∧ (crefs w !! this = Some (MkRefConst q) → refs w !! inRHS = Some (MkRef p) →
        q ≠ p → call_on T_Release q w = Done tt w1 →
        (is_Some (crefs w1 !! this) → refs w1 !! inRHS = Some (MkRef p1) →
           RefConstOf.assign_move_Ref T_Release this inRHS w
           = Done this (set_refs (insert inRHS (MkRef nullptr))
                          (set_crefs (insert this (MkRefConst p1)) w1)))
        ∧ (refs w1 !! inRHS = None →
           RefConstOf.assign_move_Ref T_Release this inRHS w = Undefined)))
  (* assignment, different pointers, the object released is not destroyed *)
  ∧ (heap w !! oq = Some objq → wrap32 (mRefCount objq - 1) ≠ 0 → Some oq ≠ p →
     let w' := set_heap (insert oq (MkRefTarget (wrap32 (mRefCount objq - 1)))) w in
     (refs w !! this = Some (MkRef (Some oq)) → refs w !! inRHS = Some (MkRef p) →
        RefOf.assign_move (RefTargetOf.Release T_dtor) this inRHS w
        = Done this (set_refs (insert inRHS (MkRef nullptr))
                       (set_refs (insert this (MkRef p)) w')))
     ∧ (crefs w !! this = Some (MkRefConst (Some oq)) →
        crefs w !! inRHS = Some (MkRefConst p) →
        RefConstOf.assign_move (RefTargetOf.Release T_dtor) this inRHS w
        = Done this (set_crefs (insert inRHS (MkRefConst nullptr))
                       (set_crefs (insert this (MkRefConst p)) w')))
     ∧ (crefs w !! this = Some (MkRefConst (Some oq)) →
        refs w !! inRHS = Some (MkRef p) →
        RefConstOf.assign_move_Ref (RefTargetOf.Release T_dtor) this inRHS w
        = Done this (set_refs (insert inRHS (MkRef nullptr))
                       (set_crefs (insert this (MkRefConst p)) w')))).
Proof.
  split; [| split; [| split]].
  - split; [| split].
    + intros Hrhs Hne. by apply Ref_move_ctor_spec.
    + intros Hrhs Hne. by apply RefConst_move_ctor_spec.
    + intros Hrhs. by apply RefConst_move_ctor_Ref_spec.
  - split; [| split]; intros Hthis Hrhs.
    + by apply (RefOf_assign_move_same T_Release this inRHS p).
    + by apply (RefConstOf_assign_move_same T_Release this inRHS p).
    + by apply (RefConstOf_assign_move_Ref_same T_Release this inRHS p).
  - split; [| split]; intros Hthis Hrhs Hne Hcall; split.
    + intros Hthis1 Hrhs1. by apply (RefOf_assign_move_done T_Release this inRHS p q).
    + intros Hdead. by apply (RefOf_assign_move_dead_source T_Release this inRHS p q w w1).
    + intros Hthis1 Hrhs1. by apply (RefConstOf_assign_move_done T_Release this inRHS p q).
    + intros Hdead.
      by apply (RefConstOf_assign_move_dead_source T_Release this inRHS p q w w1).
    + intros Hthis1 Hrhs1.
      by apply (RefConstOf_assign_move_Ref_done T_Release this inRHS p q).
    + intros Hdead.
      by apply (RefConstOf_assign_move_Ref_dead_source T_Release this inRHS p q w w1).
  - intros Hlive Hnz Hne w'.
    pose proof (call_Release_survives T_dtor oq objq w Hlive Hnz) as Hcall.
    split; [| split]; intros Hthis Hrhs.
    + apply (RefOf_assign_move_done _ this inRHS p (Some oq) p w w' Hthis Hrhs Hne Hcall);
        [by eexists | exact Hrhs].
    + apply (RefConstOf_assign_move_done _ this inRHS p (Some oq) p w w' Hthis Hrhs Hne Hcall);
        [by eexists | exact Hrhs].
    + apply (RefConstOf_assign_move_Ref_done _ this inRHS p (Some oq) p w w'
               Hthis Hrhs Hne Hcall); [by eexists | exact Hrhs].
Qed.

Lemma move_transfers_pointer_witness :
  (* object 1 has the member handle 11, which holds object 2 *)
  let T_dtor := λ o : loc, if decide (o = 1%positive) then Ref_.dtor 11%positive else ret tt in
  let T_Release := RefTargetOf.Release T_dtor in
  let w := world_of [(1%positive, 1); (2%positive, 2)]
             [(10%positive, Some 1%positive); (11%positive, Some 2%positive);
              (12%positive, Some 2%positive)] [] in
  let w1 := MkWorld {[2%positive := MkRefTarget 1]}
              (list_to_map [(10%positive, MkRef (Some 1%positive));
                            (12%positive, MkRef (Some 2%positive))]) ∅ [1%positive] in
  call_on T_Release (Some 1%positive) w = Done tt w1
  ∧ RefOf.assign_move T_Release 10%positive 12%positive w
    = Done 10%positive
        (set_refs (insert 12%positive (MkRef nullptr))
           (set_refs (insert 10%positive (MkRef (Some 2%positive))) w1))
  ∧ RefOf.assign_move T_Release 10%positive 11%positive w = Undefined.
Proof.
  intros T_dtor T_Release w w1.
  assert (Hcall : call_on T_Release (Some 1%positive) w = Done tt w1)
    by (vm_compute; reflexivity).
  split; [exact Hcall |]. split.
  - destruct (move_transfers_pointer T_Release T_dtor 10%positive 12%positive
                (Some 2%positive) (Some 1%positive) (Some 2%positive) w w1
                1%positive (MkRefTarget 1)) as (_ & _ & (H & _) & _).
    destruct (H eq_refl eq_refl ltac:(discriminate) Hcall) as [Hdone _].
    apply Hdone; [by eexists | reflexivity].
  - destruct (move_transfers_pointer T_Release T_dtor 10%positive 11%positive
                (Some 2%positive) (Some 1%positive) (Some 2%positive) w w1
                1%positive (MkRefTarget 1)) as (_ & _ & (H & _) & _).
    destruct (H eq_refl eq_refl ltac:(discriminate) Hcall) as [_ Hdead].
    apply Hdead. reflexivity.
Defined.

(** The member functions of [Ref_] and [RefConst_] are those of [RefOf] and
    [RefConstOf] with the [AddRef()] and [Release()] of [RefTarget_]. *)
Lemma Ref_is_RefOf (this inRHS : hloc) (p : ptr) :
  Ref_.ctor_ptr this p = RefOf.ctor_ptr RefTarget_.AddRef this p
  ∧ Ref_.copy_ctor this inRHS = RefOf.copy_ctor RefTarget_.AddRef this inRHS
  ∧ Ref_.dtor this = RefOf.dtor RefTarget_.Release this
  ∧ Ref_.assign_ptr this p = RefOf.assign_ptr RefTarget_.AddRef RefTarget_.Release this p
  ∧ Ref_.assign_copy this inRHS
    = RefOf.assign_copy RefTarget_.AddRef RefTarget_.Release this inRHS
  ∧ Ref_.assign_move this inRHS = RefOf.assign_move RefTarget_.Release this inRHS.
Proof. repeat split. Qed.

Lemma RefConst_is_RefConstOf (this inRHS : hloc) (p : ptr) :
  RefConst_.ctor_ptr this p = RefConstOf.ctor_ptr RefTarget_.AddRef this p
  ∧ RefConst_.copy_ctor this inRHS = RefConstOf.copy_ctor RefTarget_.AddRef this inRHS
  ∧ RefConst_.copy_ctor_Ref this inRHS
    = RefConstOf.copy_ctor_Ref RefTarget_.AddRef this inRHS
  ∧ RefConst_.dtor this = RefConstOf.dtor RefTarget_.Release this
  ∧ RefConst_.assign_ptr this p
    = RefConstOf.assign_ptr RefTarget_.AddRef RefTarget_.Release this p
  ∧ RefConst_.assign_copy this inRHS
    = RefConstOf.assign_copy RefTarget_.AddRef RefTarget_.Release this inRHS
  ∧ RefConst_.assign_move this inRHS = RefConstOf.assign_move RefTarget_.Release this inRHS
  ∧ RefConst_.assign_copy_Ref this inRHS
    = RefConstOf.assign_copy_Ref RefTarget_.AddRef RefTarget_.Release this inRHS
  ∧ RefConst_.assign_move_Ref this inRHS
    = RefConstOf.assign_move_Ref RefTarget_.Release this inRHS.
Proof. repeat split. Qed.

(** ** Assigning another object, for any T *)

(** X13.  Assigning to a handle another pointer than the one it holds, from
    a raw pointer or by copy from a handle, for any [T] and all five copying
    assignment operators: the operator calls [Release()] on what the handle
    held (none for [nullptr]); if the handle (and the source handle) is alive
    after that call, it stores the new pointer and then calls [AddRef()] on
    it (none for [nullptr]), and returns [*this]; it does nothing else.
    With the [AddRef()] and [Release()] of [RefTarget<T>], from a live
    object [oq] that the [Release()] does not destroy to another live object
    [op]: the handle holds [op], the counter of [op] is one higher, that of
    [oq] one lower, and no other object and no other handle changes. *)
Theorem assign_retargets
    (T_AddRef T_Release T_dtor : loc → M unit) (this inRHS : hloc) (p q p1 : ptr)
    (w w1 : world) (oq op : loc) (objq objp : RefTarget) :
  (* the calls *)
  ((refs w !! this = Some (MkRef q) → q ≠ p →
      call_on T_Release q w = Done tt w1 → is_Some (refs w1 !! this) →
      RefOf.assign_ptr T_AddRef T_Release this p w
      = (call_on T_AddRef p ;;; ret this) (set_refs (insert this (MkRef p)) w1))
   ∧ (refs w !! this = Some (MkRef q) → refs w !! inRHS = Some (MkRef p) → q ≠ p →
      call_on T_Release q w = Done tt w1 →
      is_Some (refs w1 !! this) → refs w1 !! inRHS = Some (MkRef p1) →
      RefOf.assign_copy T_AddRef T_Release this inRHS w
      = (call_on T_AddRef p1 ;;; ret this) (set_refs (insert this (MkRef p1)) w1))
   ∧ (crefs w !! this = Some (MkRefConst q) → q ≠ p →
      call_on T_Release q w = Done tt w1 → is_Some (crefs w1 !! this) →
      RefConstOf.assign_ptr T_AddRef T_Release this p w
      = (call_on T_AddRef p ;;; ret this) (set_crefs (insert this (MkRefConst p)) w1))
   ∧ (crefs w !! this = Some (MkRefConst q) → crefs w !! inRHS = Some (MkRefConst p) →
      q ≠ p → call_on T_Release q w = Done tt w1 →
      is_Some (crefs w1 !! this) → crefs w1 !! inRHS = Some (MkRefConst p1) →
      RefConstOf.assign_copy T_AddRef T_Release this inRHS w
      = (call_on T_AddRef p1 ;;; ret this) (set_crefs (insert this (MkRefConst p1)) w1))
   ∧ (crefs w !! this = Some (MkRefConst q) → refs w !! inRHS = Some (MkRef p) →
      q ≠ p → call_on T_Release q w = Done tt w1 →
      is_Some (crefs w1 !! this) → refs w1 !! inRHS = Some (MkRef p1) →
      RefConstOf.assign_copy_Ref T_AddRef T_Release this inRHS w
      = (call_on T_AddRef p1 ;;; ret this) (set_crefs (insert this (MkRefConst p1)) w1)))
  (* from [oq], which is not destroyed, to [op] *)
  ∧ (heap w !! oq = Some objq → heap w !! op = Some objp → oq ≠ op →
     wrap32 (mRefCount objq - 1) ≠ 0 →
     let heap' := <[op := MkRefTarget (wrap32 (mRefCount objp + 1))]>
                    (<[oq := MkRefTarget (wrap32 (mRefCount objq - 1))]> (heap w)) in
     let w_Ref := MkWorld heap' (<[this := MkRef (Some op)]> (refs w))
                    (crefs w) (deleted w) in
     let w_RefConst := MkWorld heap' (refs w)
                         (<[this := MkRefConst (Some op)]> (crefs w)) (deleted w) in
     (refs w !! this = Some (MkRef (Some oq)) →
        RefOf.assign_ptr RefTarget_.AddRef (RefTargetOf.Release T_dtor) this (Some op) w
        = Done this w_Ref
        ∧ (refs w !! inRHS = Some (MkRef (Some op)) →
           RefOf.assign_copy RefTarget_.AddRef (RefTargetOf.Release T_dtor) this inRHS w
           = Done this w_Ref))
     ∧ (crefs w !! this = Some (MkRefConst (Some oq)) →
        RefConstOf.assign_ptr RefTarget_.AddRef (RefTargetOf.Release T_dtor)
          this (Some op) w = Done this w_RefConst
        ∧ (crefs w !! inRHS = Some (MkRefConst (Some op)) →
           RefConstOf.assign_copy RefTarget_.AddRef (RefTargetOf.Release T_dtor)
             this inRHS w = Done this w_RefConst)
        ∧ (refs w !! inRHS = Some (MkRef (Some op)) →
           RefConstOf.assign_copy_Ref RefTarget_.AddRef (RefTargetOf.Release T_dtor)
             this inRHS w = Done this w_RefConst))).
Proof.
  split.
  - split; [| split; [| split; [| split]]].
    + intros Hthis Hne Hc H1. by apply (RefOf_assign_ptr_done _ _ this p q).
    + intros Hthis Hrhs Hne Hc H1 Hr1. by apply (RefOf_assign_copy_done _ _ this inRHS p q).
    + intros Hthis Hne Hc H1. by apply (RefConstOf_assign_ptr_done _ _ this p q).
    + intros Hthis Hrhs Hne Hc H1 Hr1.
      by apply (RefConstOf_assign_copy_done _ _ this inRHS p q).
    + intros Hthis Hrhs Hne Hc H1 Hr1.
      by apply (RefConstOf_assign_copy_Ref_done _ _ this inRHS p q).
  - intros Hq Hp Hne Hnz heap' w_Ref w_RefConst.
    pose proof (call_Release_survives T_dtor oq objq w Hq Hnz) as Hcall.
    set (w1' := set_heap (insert oq (MkRefTarget (wrap32 (mRefCount objq - 1)))) w) in *.
    assert (Hne' : Some oq ≠ Some op) by congruence.
    assert (Hadd : ∀ w2, heap w2 = heap w1' →
              (call_on RefTarget_.AddRef (Some op) ;;; ret this) w2
              = Done this (set_heap (insert op (MkRefTarget (wrap32 (mRefCount objp + 1)))) w2)).
    { intros w2 Hh. unfold bind. simpl.
      rewrite (AddRef_live op w2 objp); [done |].
      rewrite Hh. unfold w1'. simpl. by rewrite lookup_insert_ne. }
    split.
    + intros Hthis. split.
      * rewrite (RefOf_assign_ptr_done _ _ this (Some op) (Some oq) w w1' Hthis Hne' Hcall)
          by (by eexists).
        by rewrite Hadd.
      * intros Hrhs.
        rewrite (RefOf_assign_copy_done _ _ this inRHS (Some op) (Some oq) (Some op)
                   w w1' Hthis Hrhs Hne' Hcall) by (done || by eexists).
        by rewrite Hadd.
    + intros Hthis. split; [| split].
      * rewrite (RefConstOf_assign_ptr_done _ _ this (Some op) (Some oq) w w1'
                   Hthis Hne' Hcall) by (by eexists).
        by rewrite Hadd.
      * intros Hrhs.
        rewrite (RefConstOf_assign_copy_done _ _ this inRHS (Some op) (Some oq) (Some op)
                   w w1' Hthis Hrhs Hne' Hcall) by (done || by eexists).
        by rewrite Hadd.
      * intros Hrhs.
        rewrite (RefConstOf_assign_copy_Ref_done _ _ this inRHS (Some op) (Some oq)
                   (Some op) w w1' Hthis Hrhs Hne' Hcall) by (done || by eexists).
        by rewrite Hadd.
Qed.

Lemma assign_retargets_witness :
  (* object 1 has the member handle 11, which holds object 2 *)
  let T_dtor := λ o : loc, if decide (o = 1%positive) then Ref_.dtor 11%positive else ret tt in
  let T_Release := RefTargetOf.Release T_dtor in
  (* object 1 survives *)
  (let w := world_of [(1%positive, 2); (2%positive, 1)]
              [(10%positive, Some 1%positive); (12%positive, Some 2%positive)] [] in
   RefOf.assign_copy RefTarget_.AddRef T_Release 10%positive 12%positive w
   = Done 10%positive
       (world_of [(1%positive, 1); (2%positive, 2)]
          [(10%positive, Some 2%positive); (12%positive, Some 2%positive)] []))
  (* object 1 is destroyed, and its member handle with it *)
  ∧ (let w := world_of [(1%positive, 1); (2%positive, 2)]
                [(10%positive, Some 1%positive); (11%positive, Some 2%positive);
                 (12%positive, Some 2%positive)] [] in
     let w1 := MkWorld {[2%positive := MkRefTarget 1]}
                 (list_to_map [(10%positive, MkRef (Some 1%positive));
                               (12%positive, MkRef (Some 2%positive))]) ∅ [1%positive] in
     call_on T_Release (Some 1%positive) w = Done tt w1
     ∧ RefOf.assign_copy RefTarget_.AddRef T_Release 10%positive 12%positive w
       = Done 10%positive
           (MkWorld {[2%positive := MkRefTarget 2]}
              (list_to_map [(10%positive, MkRef (Some 2%positive));
                            (12%positive, MkRef (Some 2%positive))]) ∅ [1%positive])).
Proof.
  intros T_dtor T_Release. split.
  - intros w.
    destruct (assign_retargets RefTarget_.AddRef T_Release T_dtor 10%positive 12%positive
                (Some 2%positive) (Some 1%positive) (Some 2%positive) w w
                1%positive 2%positive (MkRefTarget 2) (MkRefTarget 1)) as [_ H].
    destruct H as [H _]; [reflexivity | reflexivity | discriminate | discriminate |].
    destruct (H eq_refl) as [_ H']. etrans; [exact (H' eq_refl) | vm_compute; reflexivity].
  - intros w w1.
    assert (Hcall : call_on T_Release (Some 1%positive) w = Done tt w1)
      by (vm_compute; reflexivity).
    split; [exact Hcall |].
    destruct (assign_retargets RefTarget_.AddRef T_Release T_dtor 10%positive 12%positive
                (Some 2%positive) (Some 1%positive) (Some 2%positive) w w1
                1%positive 2%positive (MkRefTarget 1) (MkRefTarget 2))
      as [(_ & H & _) _].
    etrans; [apply (H eq_refl eq_refl ltac:(discriminate) Hcall);
             [by eexists | reflexivity]
            | vm_compute; reflexivity].
Defined.

(** ** The last handle, for any T *)

Lemma RefOf_last_handle
    (T_dtor : loc → M unit) (this : hloc) (o : loc) (obj : RefTarget) (w : world) :
  counted w → heap w !! o = Some obj → refs w !! this = Some (MkRef (Some o)) →
  let last := handle_count w o = 1 ∧ mRefCount obj < RefTarget_.cEmbedded in
  (¬ last →
     RefOf.dtor (RefTargetOf.Release T_dtor) this w
     = Done tt (set_refs (delete this)
                  (set_heap (insert o (MkRefTarget (mRefCount obj - 1))) w)))
  ∧ (last →
     RefOf.dtor (RefTargetOf.Release T_dtor) this w
     = (RefTargetOf.delete_T T_dtor o ;;; fun w' => Done tt (set_refs (delete this) w'))
         (set_heap (insert o (MkRefTarget 0)) w))
  ∧ (last → (∀ w', T_dtor o w' = Done tt w') →
     RefOf.dtor (RefTargetOf.Release T_dtor) this w
     = Done tt (set_refs (delete this) (log_delete o (set_heap (delete o) w)))).
Proof.
  intros H Hlive Hthis last.
  pose proof (H o) as Ho. rewrite Hlive in Ho. destruct Ho as [Hu Ho].
  unfold is_uint32 in Hu.
  pose proof (handle_count_pos_Ref w this o Hthis) as Hpos.
  assert (HcE : 1 < RefTarget_.cEmbedded) by reflexivity.
  assert (Hw : wrap32 (mRefCount obj - 1) = mRefCount obj - 1)
    by (apply wrap32_small; unfold is_uint32; lia).
  assert (Hlast : last ↔ mRefCount obj = 1) by (unfold last; lia).
  rewrite (RefOf_dtor_call _ this (Some o) w Hthis). unfold bind, call_on.
  split; [| split].
  - intros Hn. assert (Hc : mRefCount obj ≠ 1) by (intros E; by apply Hn, Hlast).
    rewrite (ReleaseOf_live_nonzero T_dtor o w obj Hlive); rewrite Hw; [done | lia].
  - intros Hl. apply Hlast in Hl.
    rewrite (ReleaseOf_live_zero T_dtor o w obj Hlive) by (rewrite Hw; lia).
    reflexivity.
  - intros Hl Htriv. apply Hlast in Hl.
    rewrite (ReleaseOf_live_zero T_dtor o w obj Hlive) by (rewrite Hw; lia).
    by rewrite (delete_T_trivial T_dtor o w Htriv).
Qed.


Lemma RefConstOf_last_handle
    (T_dtor : loc → M unit) (this : hloc) (o : loc) (obj : RefTarget) (w : world) :
  counted w → heap w !! o = Some obj → crefs w !! this = Some (MkRefConst (Some o)) →
  let last := handle_count w o = 1 ∧ mRefCount obj < RefTarget_.cEmbedded in
  (¬ last →
     RefConstOf.dtor (RefTargetOf.Release T_dtor) this w
     = Done tt (set_crefs (delete this)
                  (set_heap (insert o (MkRefTarget (mRefCount obj - 1))) w)))
  ∧ (last →
     RefConstOf.dtor (RefTargetOf.Release T_dtor) this w
     = (RefTargetOf.delete_T T_dtor o ;;; fun w' => Done tt (set_crefs (delete this) w'))
         (set_heap (insert o (MkRefTarget 0)) w))
  ∧ (last → (∀ w', T_dtor o w' = Done tt w') →
     RefConstOf.dtor (RefTargetOf.Release T_dtor) this w
     = Done tt (set_crefs (delete this) (log_delete o (set_heap (delete o) w)))).
Proof.
  intros H Hlive Hthis last.
  pose proof (H o) as Ho. rewrite Hlive in Ho. destruct Ho as [Hu Ho].
  unfold is_uint32 in Hu.
  pose proof (handle_count_pos_RefConst w this o Hthis) as Hpos.
  assert (HcE : 1 < RefTarget_.cEmbedded) by reflexivity.
  assert (Hw : wrap32 (mRefCount obj - 1) = mRefCount obj - 1)
    by (apply wrap32_small; unfold is_uint32; lia).
  assert (Hlast : last ↔ mRefCount obj = 1) by (unfold last; lia).
  rewrite (RefConstOf_dtor_call _ this (Some o) w Hthis). unfold bind, call_on.
  split; [| split].
  - intros Hn. assert (Hc : mRefCount obj ≠ 1) by (intros E; by apply Hn, Hlast).
    rewrite (ReleaseOf_live_nonzero T_dtor o w obj Hlive); rewrite Hw; [done | lia].
  - intros Hl. apply Hlast in Hl.
    rewrite (ReleaseOf_live_zero T_dtor o w obj Hlive) by (rewrite Hw; lia).
    reflexivity.
  - intros Hl Htriv. apply Hlast in Hl.
    rewrite (ReleaseOf_live_zero T_dtor o w obj Hlive) by (rewrite Hw; lia).
    by rewrite (delete_T_trivial T_dtor o w Htriv).
Qed.

(** X11.  Destroying a handle calls [delete] on its object exactly when the
    handle was the last one and the object is not embedded, for any [T].
    In a state where counters and handles agree, the destructor of a handle
    (of either kind) that points at [o]: when another handle points at [o]
    or the counter of [o] is [cEmbedded] or more, it lowers that counter by
    one, ends the handle and changes nothing else; otherwise it is
    [delete o] run with the counter at 0, followed by the end of the
    handle.  For a [T] whose destructor does nothing, that [delete] removes
    [o], logs it, and leaves every other object and handle alone. *)
Theorem last_handle_deletes
    (T_dtor : loc → M unit) (this : hloc) (o : loc) (obj : RefTarget) (w : world) :
  counted w → heap w !! o = Some obj →
  let last := handle_count w o = 1 ∧ mRefCount obj < RefTarget_.cEmbedded in
  (refs w !! this = Some (MkRef (Some o)) →
     (¬ last →
        RefOf.dtor (RefTargetOf.Release T_dtor) this w
        = Done tt (set_refs (delete this)
                     (set_heap (insert o (MkRefTarget (mRefCount obj - 1))) w)))
     ∧ (last →
        RefOf.dtor (RefTargetOf.Release T_dtor) this w
        = (RefTargetOf.delete_T T_dtor o ;;; fun w' => Done tt (set_refs (delete this) w'))
            (set_heap (insert o (MkRefTarget 0)) w))
     ∧ (last → (∀ w', T_dtor o w' = Done tt w') →
        RefOf.dtor (RefTargetOf.Release T_dtor) this w
        = Done tt (set_refs (delete this) (log_delete o (set_heap (delete o) w)))))
  ∧ (crefs w !! this = Some (MkRefConst (Some o)) →
     (¬ last →
        RefConstOf.dtor (RefTargetOf.Release T_dtor) this w
        = Done tt (set_crefs (delete this)
                     (set_heap (insert o (MkRefTarget (mRefCount obj - 1))) w)))
     ∧ (last →
        RefConstOf.dtor (RefTargetOf.Release T_dtor) this w
        = (RefTargetOf.delete_T T_dtor o ;;; fun w' => Done tt (set_crefs (delete this) w'))
            (set_heap (insert o (MkRefTarget 0)) w))
     ∧ (last → (∀ w', T_dtor o w' = Done tt w') →
        RefConstOf.dtor (RefTargetOf.Release T_dtor) this w
        = Done tt (set_crefs (delete this) (log_delete o (set_heap (delete o) w))))).
Proof.
  intros H Hlive last. split; intros Hthis.
  - by apply RefOf_last_handle.
  - by apply RefConstOf_last_handle.
Qed.

Lemma counted_two_handles :
  counted (world_of [(1%positive, 2)]
             [(10%positive, Some 1%positive)] [(20%positive, Some 1%positive)]).
Proof.
  destruct (exec_op_counted (RefConst_copy_Ref 20%positive 10%positive) _ counted_one_handle)
    as (w2 & Hrun2 & H2); [solve_op_pre |].
  vm_compute in Hrun2. injection Hrun2 as <-. exact H2.
Qed.

Lemma last_handle_deletes_witness :
  let T_dtor := λ _ : loc, ret tt in
  (let w := world_of [(1%positive, 1)] [(10%positive, Some 1%positive)] [] in
   counted w ∧ heap w !! 1%positive = Some (MkRefTarget 1)
   ∧ handle_count w 1%positive = 1
   ∧ RefOf.dtor (RefTargetOf.Release T_dtor) 10%positive w
     = Done tt (MkWorld ∅ ∅ ∅ [1%positive]))
  ∧ (let w := world_of [(1%positive, 2)]
                [(10%positive, Some 1%positive)] [(20%positive, Some 1%positive)] in
     counted w ∧ heap w !! 1%positive = Some (MkRefTarget 2)
     ∧ handle_count w 1%positive = 2
     ∧ RefOf.dtor (RefTargetOf.Release T_dtor) 10%positive w
       = Done tt (world_of [(1%positive, 1)] [] [(20%positive, Some 1%positive)])).
Proof.
  intros T_dtor. split; intros w.
  - split; [exact counted_one_handle |]. split; [reflexivity |]. split; [reflexivity |].
    destruct (last_handle_deletes T_dtor 10%positive 1%positive (MkRefTarget 1) w
                counted_one_handle eq_refl) as [H _].
    destruct (H eq_refl) as (_ & _ & Hc).
    etrans; [apply Hc; [split; reflexivity | reflexivity] | vm_compute; reflexivity].
  - split; [exact counted_two_handles |]. split; [reflexivity |]. split; [reflexivity |].
    destruct (last_handle_deletes T_dtor 10%positive 1%positive (MkRefTarget 2) w
                counted_two_handles eq_refl) as [H _].
    destruct (H eq_refl) as (Ha & _ & _).
    etrans; [apply Ha; intros [E _]; vm_compute in E; discriminate
            | vm_compute; reflexivity].
Defined.

(** ** Programs, for a T whose destructor does nothing *)

(** Running a statement with such a [T] is running it with [Ref_] and
    [RefConst_]. *)
Lemma exec_op_of_trivial (T_dtor : loc → M unit) :
  (∀ o w, T_dtor o w = Done tt w) →
  ∀ op w, exec_op_of T_dtor op w = exec_op op w.
Proof.
  intros Htriv op w. pose proof (ReleaseOf_trivial T_dtor Htriv) as HR.
  destruct op; simpl; try reflexivity;
    unfold RefOf.dtor, RefOf.assign_ptr, RefOf.assign_copy, RefOf.assign_move,
      RefOf.Release, Ref_.dtor, Ref_.assign_ptr, Ref_.assign_copy, Ref_.assign_move,
      Ref_.Release, RefConstOf.dtor, RefConstOf.assign_ptr, RefConstOf.assign_copy,
      RefConstOf.assign_move, RefConstOf.assign_copy_Ref, RefConstOf.assign_move_Ref,
      RefConstOf.Release, RefConst_.dtor, RefConst_.assign_ptr, RefConst_.assign_copy,
      RefConst_.assign_move, RefConst_.assign_copy_Ref, RefConst_.assign_move_Ref,
      RefConst_.Release;
    repeat first
      [ reflexivity
      | apply HR
      | apply bind_ext; [| intros ? ?]
      | match goal with
        | |- (if ?b then _ else _) _ = _ => destruct b
        | |- (match ?p with Some _ => _ | None => _ end) _ = _ => destruct p
        end ].
Qed.

(** X12.  For a [T] whose destructor does nothing (no members to destroy):
    a program that creates objects, marks some as embedded and otherwise
    uses them through handles only (construction, copy, move, assignment
    and destruction of Ref and RefConst, in any order), each statement
    meeting its precondition ([op_pre]: storage under construction is not
    in use, the handles named are alive, raw pointers handed over are
    valid, no counter overflows, and [SetEmbedded()] is called on a live
    object whose counter is below [cEmbedded], the condition it asserts),
    runs to its end: no dead object or handle is used and the assertion of
    [~RefTarget] holds at every deletion.  At the end, as at the start, the
    counter of every live object is the number of handles that point at it
    (plus [cEmbedded] if embedded), and no handle dangles. *)
Theorem counted_programs (T_dtor : loc → M unit) (ops : list handle_op) :
  (∀ o w, T_dtor o w = Done tt w) →
  ∀ w : world,
  counted w → ops_pre_of T_dtor w ops →
  ∃ w', exec_ops_of T_dtor ops w = Done tt w'
    ∧ counted w'
    ∧ (∀ h p, refs w' !! h = Some (MkRef p) → valid_ptr w' p)
    ∧ (∀ h p, crefs w' !! h = Some (MkRefConst p) → valid_ptr w' p).
Proof.
  intros Htriv. induction ops as [| op ops IH]; intros w H Hpre.
  - exists w. split; [done |]. split; [done |]. split; intros h p Hh.
    + by apply (counted_valid_Ref w h).
    + by apply (counted_valid_RefConst w h).
  - destruct Hpre as [Hop Hrest].
    destruct (exec_op_counted op w H Hop) as (w1 & Hrun & H1).
    rewrite <- (exec_op_of_trivial T_dtor Htriv) in Hrun.
    destruct (IH w1 H1 (Hrest w1 Hrun)) as (w' & Hrun' & H').
    exists w'. split; [| exact H']. simpl. unfold bind. by rewrite Hrun.
Qed.

Lemma counted_programs_witness :
  let T_dtor := λ _ : loc, ret tt in
  let prog := [NewObject 1%positive;
               Ref_from_ptr 10%positive (Some 1%positive);
               Ref_copy 11%positive 10%positive;
               RefConst_copy_Ref 20%positive 11%positive;
               Ref_set_ptr 10%positive nullptr;
               NewObject 2%positive;
               Embed 2%positive;
               Ref_set_ptr 10%positive (Some 2%positive);
               RefConst_set_move_Ref 20%positive 10%positive;
               Ref_set_move 10%positive 11%positive;
               Ref_destroy 11%positive;
               RefConst_destroy 20%positive;
               Ref_destroy 10%positive] in
  let w := MkWorld ∅ ∅ ∅ [] in
  (∀ o w0, T_dtor o w0 = Done tt w0)
  ∧ counted w ∧ ops_pre_of T_dtor w prog
  ∧ exec_ops_of T_dtor prog w
    = Done tt (MkWorld {[2%positive := MkRefTarget RefTarget_.cEmbedded]} ∅ ∅ [1%positive])
  ∧ ∃ w', exec_ops_of T_dtor prog w = Done tt w' ∧ counted w'.
Proof.
  intros T_dtor prog w.
  assert (Htriv : ∀ o w0, T_dtor o w0 = Done tt w0) by reflexivity.
  assert (Hpre : ops_pre_of T_dtor w prog) by (unfold prog, w; solve_ops_pre).
  split; [exact Htriv |]. split; [apply counted_empty |]. split; [exact Hpre |].
  split; [vm_compute; reflexivity |].
  destruct (counted_programs T_dtor prog Htriv w (counted_empty []) Hpre)
    as (w' & Hrun & H' & _).
  exists w'. split; [exact Hrun | exact H'].
Defined.
